(** * Tokenized-corpus storage and batch sampling (trainers/dataloader.py)

    A shallow embedding of the dataloader family of SuperTinyLanguageModels:
    the binary corpus writer ([prepare_data], [_write_tokenized_data]), the
    layout resolver ([get_data]) and the samplers ([get_batch],
    [__getitem__]) of [BaseDataloader] and its four subclasses.

    Modelling conventions.
    - Python exceptions are values of [exn]; a computation that may raise
      returns a [result].  Methods that touch the disk or the object are
      functions in the state-and-exception monad [M] over [world].
    - A numpy array / torch tensor is a shape and a row-major buffer
      ([ndarray]).  [astype(np.int64)] on [uint16] data, [torch.from_numpy],
      [pin_memory] and [.to(device)] keep shape and values and produce an
      array that is not backed by the file; they are the identity here.
    - A [<split>.bin] file is a list of bytes; [np.memmap(dtype=np.uint16)]
      decodes it as little-endian 16-bit words.
    - [torch.randint] and [torch.rand] read an entropy source ([rng]); every
      theorem quantifies over all entropy sources.
    - Sizes taken from the configuration (context window, batch size,
      byte context window) are natural numbers; indices are integers, with
      Python's negative-index and slice-clipping rules. *)

From Stdlib Require Import ZArith QArith Strings.Byte DecimalString.
From stdpp Require Import gmap strings list fin_maps.

Local Open Scope Z_scope.

(** ** Exceptions and results *)

Module Py.

Inductive exn : Set :=
| RuntimeError
| ValueError
| TypeError
| KeyError
| IndexError
| AttributeError
| ZeroDivisionError
| AssertionError
| OSError
| FileNotFoundError
| FileExistsError
| SystemExit.

(** [except RuntimeError]: none of the other classes above derives from it. *)
Definition is_RuntimeError (e : exn) : bool :=
  match e with RuntimeError => true | _ => false end.

Inductive result (A : Type) : Type :=
| Ok (a : A)
| Raise (e : exn).
Arguments Ok {A} a.
Arguments Raise {A} e.

Definition rbind {A B} (r : result A) (k : A -> result B) : result B :=
  match r with Ok a => k a | Raise e => Raise e end.

Definition is_Ok {A} (r : result A) : bool :=
  match r with Ok _ => true | Raise _ => false end.

(** [[f(x) for x in xs]], stopping at the first exception. *)
Fixpoint rmap {A B} (f : A -> result B) (xs : list A) : result (list B) :=
  match xs with
  | [] => Ok []
  | x :: xs' =>
      rbind (f x) (fun y => rbind (rmap f xs') (fun ys => Ok (y :: ys)))
  end.

End Py.
Export Py.

Notation "x <-? r ; k" := (rbind r (fun x => k))
  (at level 100, r at next level, right associativity, only parsing).

(** ** Arrays *)

Record ndarray : Set := NdArray { shape : list nat; buf : list Z }.

Definition numel (s : list nat) : nat := foldr Nat.mul 1%nat s.

(** Number of buffer elements per entry along axis 0. *)
Definition stride0 (a : ndarray) : nat := numel (tail (shape a)).

(** [len(a)]; every array below has at least one axis. *)
Definition len (a : ndarray) : nat := hd 0%nat (shape a).

(** A slice bound [i] for an axis of [n] entries: negative bounds count
    from the end, then the bound is clipped to [0, n]. *)
Definition clip_bound (n : nat) (i : Z) : nat :=
  Z.to_nat (Z.min (if i <? 0 then i + Z.of_nat n else i) (Z.of_nat n)).

(** [a[lo:hi]] along axis 0. *)
Definition slice0 (a : ndarray) (lo hi : Z) : result ndarray :=
  match shape a with
  | [] => Raise IndexError
  | n :: rest =>
      let s := clip_bound n lo in
      let e := clip_bound n hi in
      let rows := (e - s)%nat in
      Ok (NdArray (rows :: rest)
            (take (rows * numel rest) (drop (s * numel rest) (buf a))))
  end.

(** [a[i]] for an integer [i]. *)
Definition index0 (a : ndarray) (i : Z) : result ndarray :=
  match shape a with
  | [] => Raise IndexError
  | n :: rest =>
      let j := if i <? 0 then i + Z.of_nat n else i in
      if (0 <=? j) && (j <? Z.of_nat n) then
        Ok (NdArray rest
              (take (numel rest) (drop (Z.to_nat j * numel rest) (buf a))))
      else Raise IndexError
  end.

(** Cut a buffer into [n] consecutive blocks of [w] elements. *)
Fixpoint blocks (n w : nat) (l : list Z) : list (list Z) :=
  match n with
  | O => []
  | S n' => take w l :: blocks n' w (drop w l)
  end.

(** [a[:, j]] for a non-negative constant [j]. *)
Definition select1 (a : ndarray) (j : nat) : result ndarray :=
  match shape a with
  | b :: m :: rest =>
      if (j <? m)%nat then
        Ok (NdArray (b :: rest)
              (concat (map (fun blk => take (numel rest) (drop (j * numel rest) blk))
                         (blocks b (m * numel rest) (buf a)))))
      else Raise IndexError
  | _ => Raise IndexError
  end.

Definition shape_eqb (s t : list nat) : bool := bool_decide (s = t).

(** [torch.stack(ts)] / [np.stack(ts)] of a list: a new leading axis; the
    list must be non-empty and all shapes equal.  [e] is the exception class
    of the library ([RuntimeError] for torch, [ValueError] for numpy). *)
Definition stack_with (e : exn) (ts : list ndarray) : result ndarray :=
  match ts with
  | [] => Raise e
  | t :: rest =>
      if forallb (fun u => shape_eqb (shape u) (shape t)) rest then
        Ok (NdArray (length ts :: shape t) (concat (map buf ts)))
      else Raise e
  end.

Definition torch_stack := stack_with RuntimeError.
Definition np_stack := stack_with ValueError.

(** [np.concatenate(ts)]: joins along axis 0; the list must be non-empty,
    no array may be 0-dimensional and all trailing shapes must agree. *)
Definition np_concatenate (ts : list ndarray) : result ndarray :=
  match ts with
  | [] => Raise ValueError
  | t :: rest =>
      match shape t with
      | [] => Raise ValueError
      | _ :: tl_t =>
          if forallb (fun u => match shape u with
                               | [] => false
                               | _ :: tl_u => shape_eqb tl_u tl_t
                               end) rest
          then Ok (NdArray (foldr (fun u acc => (len u + acc)%nat) 0%nat ts :: tl_t)
                     (concat (map buf ts)))
          else Raise ValueError
      end
  end.

(** ** 16-bit storage *)

Definition byte_of_Z (z : Z) : byte :=
  match Byte.of_N (Z.to_N (z mod 256)) with
  | Some b => b
  | None => x00
  end.

Definition Z_of_byte (b : byte) : Z := Z.of_N (Byte.to_N b).

(** Little-endian [uint16] view of a byte string (a trailing odd byte is
    not part of any element; [np_memmap] below rejects such files). *)
Fixpoint decode_u16 (bs : list byte) : list Z :=
  match bs with
  | lo :: hi :: bs' => (Z_of_byte lo + 256 * Z_of_byte hi) :: decode_u16 bs'
  | _ => []
  end.

(** Storing an [int64] value into a [uint16] element keeps its low 16 bits
    (numpy item assignment casts without a range check). *)
Definition encode_u16 (vs : list Z) : list byte :=
  flat_map (fun v => [byte_of_Z (v mod 65536); byte_of_Z ((v mod 65536) / 256)]) vs.

(** ** The file system *)

Abbreviation path := (list string).

Record filesystem : Type := FS {
  dirs : gset path;
  files : gmap path (list byte)
}.

Definition dirname (p : path) : path := take (length p - 1) p.

(** [q] is an entry of directory [p]. *)
Definition entry_of (p q : path) : Prop := q ≠ [] ∧ dirname q = p.

#[global] Instance entry_of_dec p q : Decision (entry_of p q).
Proof. unfold entry_of. apply _. Defined.

Definition os_path_exists (fs : filesystem) (p : path) : bool :=
  bool_decide (p ∈ dirs fs) || bool_decide (is_Some (files fs !! p)).

Definition is_empty_dir (fs : filesystem) (p : path) : bool :=
  bool_decide (set_Forall (fun q => ¬ entry_of p q) (dirs fs))
  && bool_decide (map_Forall (fun q _ => ¬ entry_of p q) (files fs)).

(** The non-empty prefixes of [p], shortest first. *)
Definition prefixes (p : path) : list path :=
  map (fun k => take k p) (seq 1 (length p)).

(** [os.makedirs(p)]: creates [p] and every missing ancestor; the empty
    path names nothing, an existing leaf is an error, and so is an
    ancestor that is a file. *)
Definition os_makedirs (p : path) (fs : filesystem) : result filesystem :=
  if bool_decide (p = []) then Raise FileNotFoundError
  else if os_path_exists fs p then Raise FileExistsError
  else if existsb (fun q => bool_decide (is_Some (files fs !! q))) (prefixes p)
       then Raise OSError
       else Ok (FS (dirs fs ∪ list_to_set (prefixes p)) (files fs)).

(** [os.rmdir(p)]: only an existing, empty directory can be removed. *)
Definition os_rmdir (p : path) (fs : filesystem) : result filesystem :=
  if bool_decide (p ∈ dirs fs) then
    if is_empty_dir fs p then Ok (FS (dirs fs ∖ {[ p ]}) (files fs))
    else Raise OSError
  else Raise FileNotFoundError.

(** The pruning loop of [os.removedirs]: remove the ancestors, nearest
    first, until one of them cannot be removed (that error is swallowed). *)
Fixpoint prune (ancestors : list path) (fs : filesystem) : filesystem :=
  match ancestors with
  | [] => fs
  | a :: rest =>
      match os_rmdir a fs with
      | Ok fs' => prune rest fs'
      | Raise _ => fs
      end
  end.

(** [os.removedirs(p)]: [rmdir] of the leaf (its error propagates), then
    the pruning loop over the parents. *)
Definition os_removedirs (p : path) (fs : filesystem) : result filesystem :=
  fs' <-? os_rmdir p fs;
  Ok (prune (tail (reverse (prefixes p))) fs').

(** *** [np.memmap] *)

Inductive mmap_mode : Set := mode_r | mode_rplus | mode_wplus.

Definition writable (m : mmap_mode) : bool :=
  match m with mode_r => false | _ => true end.

(** [np.memmap(p, dtype=np.uint16, mode=m, shape=shp)].  Returns the new
    file system together with the outcome: ["w+"] creates or truncates the
    file, and a writable mode extends a file shorter than the requested
    shape with zero bytes.  The array maps the first [2 * numel shape]
    bytes. *)
Definition np_memmap (p : path) (m : mmap_mode) (shp : option (list nat))
    (fs : filesystem) : result ndarray * filesystem :=
  match m, shp with
  | mode_wplus, None => (Raise ValueError, fs)
  | _, _ =>
    let opened :=
      match m with
      | mode_wplus =>
          if bool_decide (dirname p ∈ dirs fs) && negb (bool_decide (p ∈ dirs fs))
          then Some (FS (dirs fs) (<[ p := [] ]> (files fs)), [])
          else None
      | _ => match files fs !! p with
             | Some c => Some (fs, c)
             | None => None
             end
      end in
    match opened with
    | None => (Raise FileNotFoundError, fs)
    | Some (fs1, c) =>
        let flen := length c in
        match (match shp with
               | Some s => Some s
               | None => if (flen mod 2 =? 0)%nat then Some [(flen / 2)%nat] else None
               end) with
        | None => (Raise ValueError, fs1)
        | Some s =>
            let bytes := (2 * numel s)%nat in
            let c' := if writable m && (flen <? bytes)%nat
                      then c ++ replicate (bytes - flen) x00 else c in
            let fs2 := if writable m && (flen <? bytes)%nat
                       then FS (dirs fs1) (<[ p := c' ]> (files fs1)) else fs1 in
            if (length c' =? 0)%nat then (Raise ValueError, fs2)
            else if (length c' <? bytes)%nat then (Raise ValueError, fs2)
            else (Ok (NdArray s (decode_u16 (take bytes c'))), fs2)
        end
    end
  end.

(** Replace the elements of [l] from position [off] on by [new]. *)
Definition splice {A} (l : list A) (off : nat) (new : list A) : list A :=
  take off l ++ new ++ drop (off + length new) l.

(** ** Configuration and dataloader objects *)

Inductive variant : Set :=
| StandardDataloader
| BytePoolingDataloader
| ConversationalDataloader
| NextTokenMLMDataloader.

Record config : Type := Config {
  data_dir : path;                       (* cfg.general.paths.data_dir *)
  dataset_name : string;                 (* cfg.trainer.dataset *)
  tokenizer_type : string;               (* cfg.model.embedder.tokenizer_type *)
  vocab_size : N;                        (* cfg.model.vocab_size *)
  context_window : nat;                  (* cfg.model.context_window *)
  batch_size : nat;                      (* cfg.trainer.training.batch_size *)
  byte_context_window : nat;             (* cfg.model.embedder.byte_context_window *)
  cfg_masking_pct : option (option Q)    (* cfg.trainer.dataloader.masking_pct:
                                            absent, or present (possibly None) *)
}.

(** The attributes of a dataloader object.  [loading_shapes] is [None] for
    the classes that never set the attribute ([hasattr] is false). *)
Record dataloader : Type := Dataloader {
  cls : variant;
  cfg : config;
  tokenized_data_path : path;
  masking_pct : option Q;
  loading_shapes : option (gmap string (option (list nat)));
  split : option string;
  data : option ndarray
}.

Definition has_shape_cache (v : variant) : bool :=
  match v with
  | BytePoolingDataloader | ConversationalDataloader => true
  | _ => false
  end.

Definition string_of_N (n : N) : string := NilZero.string_of_uint (N.to_uint n).

(** [BaseDataloader.__init__] followed by the subclass constructors. *)
Definition __init__ (v : variant) (c : config) : result dataloader :=
  let base := data_dir c ++ [dataset_name c;
                tokenizer_type c +:+ "-" +:+ string_of_N (vocab_size c)] in
  let p := match v with
           | BytePoolingDataloader =>
               data_dir c ++ [dataset_name c;
                 (tokenizer_type c +:+ "-" +:+ string_of_N (vocab_size c))
                   +:+ "-BytePooling"]
           | _ => base
           end in
  let obj := Dataloader v c p
               (match cfg_masking_pct c with
                | None => Some (3 # 20)%Q
                | Some o => o
                end)
               (if has_shape_cache v
                then Some (<[ "train"%string := None ]> (<[ "val"%string := None ]> ∅))
                else None)
               None None in
  match v with
  | ConversationalDataloader =>
      if bool_decide (dataset_name c = "openhermes-2.5"%string) then Ok obj
      else Raise AssertionError
  | _ => Ok obj
  end.

(** ** The state-and-exception monad *)

Record world : Type := World { fs : filesystem; self : dataloader }.

Definition M (A : Type) : Type := world -> result A * world.

Definition ret {A} (a : A) : M A := fun w => (Ok a, w).
Definition raise {A} (e : exn) : M A := fun w => (Raise e, w).
Definition bind {A B} (m : M A) (k : A -> M B) : M B :=
  fun w => match m w with
           | (Ok a, w') => k a w'
           | (Raise e, w') => (Raise e, w')
           end.
Definition lift {A} (r : result A) : M A := fun w => (r, w).

Notation "x <- m ;; k" := (bind m (fun x => k))
  (at level 100, m at next level, right associativity, only parsing).
Notation "m ;;; k" := (bind m (fun _ => k))
  (at level 100, right associativity, only parsing).

Definition get_self : M dataloader := fun w => (Ok (self w), w).
Definition put_self (d : dataloader) : M unit := fun w => (Ok tt, World (fs w) d).

(** A file-system operation inside [M]. *)
Definition memmap (p : path) (m : mmap_mode) (shp : option (list nat)) : M ndarray :=
  fun w => let '(r, fs') := np_memmap p m shp (fs w) in (r, World fs' (self w)).

Definition fs_update (f : filesystem -> result filesystem) : M unit :=
  fun w => match f (fs w) with
           | Ok fs' => (Ok tt, World fs' (self w))
           | Raise e => (Raise e, w)
           end.

Definition bin_file (d : dataloader) (sp : string) : path :=
  tokenized_data_path d ++ [sp +:+ ".bin"].

(** ** Randomness *)

(** The entropy consumed by one call: [randint_src k] feeds the [k]-th
    integer drawn by [torch.randint], [rand_src k] is the [k]-th uniform
    number drawn by [torch.rand]. *)
Record rng : Type := Rng { randint_src : nat -> Z; rand_src : nat -> Q }.

(** [torch.randint(high, (n,))]: [n] integers in [0, high); an empty range
    is an error. *)
Definition torch_randint (g : rng) (high : Z) (n : nat) : result (list Z) :=
  if high <=? 0 then Raise RuntimeError
  else Ok (map (fun k => randint_src g k mod high) (seq 0 n)).

(** [torch.rand(size) < p], in row-major order. *)
Definition Qltb (a b : Q) : bool := negb (Qle_bool b a).

Definition rand_mask (g : rng) (size : list nat) (p : Q) : list bool :=
  map (fun k => Qltb (rand_src g k) p) (seq 0 (numel size)).

(** [X[mask] = 0]. *)
Definition masked_fill0 (X : ndarray) (mask : list bool) : ndarray :=
  NdArray (shape X) (zip_with (fun (m : bool) v => if m then 0 else v) mask (buf X)).

(** ** Sampling *)

(** What [get_batch] and [__getitem__] return: [(X, y)] when [bmask] is
    [None], [(X, (y, mask))] otherwise. *)
Record batch : Type := Batch { bX : ndarray; bY : ndarray; bmask : option (list bool) }.

(** The two list comprehensions shared by the [get_batch] methods of
    [BaseDataloader], [BytePoolingDataloader] and [NextTokenMLMDataloader]:
    windows of [cw] entries along axis 0 starting at each drawn index, and
    the windows starting one entry later. *)
Definition window_pairs (data : ndarray) (cw : nat) (idxs : list Z)
    : result (ndarray * ndarray) :=
  xs <-? rmap (fun i => slice0 data i (i + Z.of_nat cw)) idxs;
  X <-? torch_stack xs;
  ys <-? rmap (fun i => slice0 data (i + 1) (i + 1 + Z.of_nat cw)) idxs;
  y <-? torch_stack ys;
  Ok (X, y).

Definition sample_windows (g : rng) (data : ndarray) (cw bs : nat)
    : result (ndarray * ndarray) :=
  idxs <-? torch_randint g (Z.of_nat (len data) - Z.of_nat cw) bs;
  window_pairs data cw idxs.

(** [self.loading_shapes[split]] of a class that has the attribute. *)
Definition cached_shape (d : dataloader) (sp : string)
    : result (option (list nat)) :=
  match loading_shapes d with
  | None => Raise AttributeError
  | Some tbl =>
      match tbl !! sp with
      | None => Raise KeyError
      | Some o => Ok o
      end
  end.

Definition set_cached_shape (sp : string) (s : list nat) : M unit :=
  d <- get_self;;
  match loading_shapes d with
  | None => raise AttributeError
  | Some tbl =>
      put_self (Dataloader (cls d) (cfg d) (tokenized_data_path d) (masking_pct d)
                  (Some (<[ sp := Some s ]> tbl)) (split d) (data d))
  end.

(** [(len(data) // byte_context_window, byte_context_window)] *)
Definition byte_pooling_shape (n w : nat) : result (list nat) :=
  if (w =? 0)%nat then Raise ZeroDivisionError
  else Ok [(n / w)%nat; w].

(** [(int(len(data) / 2 / context_window), 2, context_window)].  The two
    divisions are floating-point divisions in the source; their truncated
    quotient is [n / (2 * cw)] for every file of fewer than 2^52 tokens. *)
Definition conversational_shape (n cw : nat) : result (list nat) :=
  if (cw =? 0)%nat then Raise ZeroDivisionError
  else Ok [(n / 2 / cw)%nat; 2%nat; cw].

(** The first-use resolution at the head of the [get_batch] methods of
    the two classes with a shape cache. *)
Definition resolve_shape (sp : string) : M (list nat) :=
  d <- get_self;;
  o <- lift (cached_shape d sp);;
  match o with
  | Some s => ret s
  | None =>
      flat <- memmap (bin_file d sp) mode_r None;;
      s <- lift (match cls d with
                 | ConversationalDataloader =>
                     conversational_shape (len flat) (context_window (cfg d))
                 | _ => byte_pooling_shape (len flat) (byte_context_window (cfg d))
                 end);;
      set_cached_shape sp s;;;
      ret s
  end.

(** [BaseDataloader.get_batch], inherited by [StandardDataloader]. *)
Definition get_batch_base (sp : string) (g : rng) : M batch :=
  d <- get_self;;
  data <- memmap (bin_file d sp) mode_r None;;
  Xy <- lift (sample_windows g data (context_window (cfg d)) (batch_size (cfg d)));;
  ret (Batch (fst Xy) (snd Xy) None).

(** [BytePoolingDataloader.get_batch] *)
Definition get_batch_byte_pooling (sp : string) (g : rng) : M batch :=
  s <- resolve_shape sp;;
  d <- get_self;;
  data <- memmap (bin_file d sp) mode_r (Some s);;
  Xy <- lift (sample_windows g data (context_window (cfg d)) (batch_size (cfg d)));;
  ret (Batch (fst Xy) (snd Xy) None).

(** [ConversationalDataloader.get_batch] *)
Definition get_batch_conversational (sp : string) (g : rng) : M batch :=
  s <- resolve_shape sp;;
  d <- get_self;;
  data <- memmap (bin_file d sp) mode_rplus (Some s);;
  ix <- lift (torch_randint g (Z.of_nat (len data)) (batch_size (cfg d)));;
  (* a = data[ix[0]] *)
  _ <- lift (match ix with
             | [] => Raise IndexError
             | i0 :: _ => index0 data i0
             end);;
  rows <- lift (rmap (index0 data) ix);;
  Xy <- lift (torch_stack rows);;
  X <- lift (select1 Xy 0);;
  y <- lift (select1 Xy 1);;
  ret (Batch X y None).

(** [NextTokenMLMDataloader.get_batch(split, masking_pct=0.15)]; the
    keyword argument is [None] when the caller leaves it out. *)
Definition get_batch_mlm (sp : string) (masking_pct_arg : option Q) (g : rng)
    : M batch :=
  let masking_pct := match masking_pct_arg with
                     | Some p => p
                     | None => (3 # 20)%Q
                     end in
  d <- get_self;;
  data <- memmap (bin_file d sp) mode_r None;;
  Xy <- lift (sample_windows g data (context_window (cfg d)) (batch_size (cfg d)));;
  let mask := rand_mask g (shape (fst Xy)) masking_pct in
  ret (Batch (masked_fill0 (fst Xy) mask) (snd Xy) (Some mask)).

(** Method dispatch: [loader.get_batch(split)], as the training loop calls
    it (no [masking_pct] argument). *)
Definition get_batch (sp : string) (g : rng) : M batch :=
  d <- get_self;;
  match cls d with
  | StandardDataloader => get_batch_base sp g
  | BytePoolingDataloader => get_batch_byte_pooling sp g
  | ConversationalDataloader => get_batch_conversational sp g
  | NextTokenMLMDataloader => get_batch_mlm sp None g
  end.

(** [BaseDataloader.get_data] *)
Definition get_data (sp : string) : M ndarray :=
  d <- get_self;;
  flat <- memmap (bin_file d sp) mode_r None;;
  if has_shape_cache (cls d) then
    o <- lift (cached_shape d sp);;
    match o with
    | Some _ => ret flat
    | None =>
        match cls d with
        | BytePoolingDataloader =>
            s <- lift (byte_pooling_shape (len flat) (byte_context_window (cfg d)));;
            set_cached_shape sp s;;;
            memmap (bin_file d sp) mode_r (Some s)
        | ConversationalDataloader =>
            s <- lift (conversational_shape (len flat) (context_window (cfg d)));;
            set_cached_shape sp s;;;
            memmap (bin_file d sp) mode_rplus (Some s)
        | _ => ret flat
        end
    end
  else ret flat.

(** [BaseDataloader.set_split] *)
Definition set_split (sp : string) : M unit :=
  d <- get_self;;
  put_self (Dataloader (cls d) (cfg d) (tokenized_data_path d) (masking_pct d)
              (loading_shapes d) (Some sp) (data d));;;
  a <- get_data sp;;
  d' <- get_self;;
  put_self (Dataloader (cls d') (cfg d') (tokenized_data_path d') (masking_pct d')
              (loading_shapes d') (split d') (Some a)).

(** [self.data] *)
Definition self_data : M ndarray :=
  d <- get_self;;
  match data d with
  | Some a => ret a
  | None => raise AttributeError
  end.

(** [__len__]: the base class subtracts the context window, the
    conversational class does not. *)
Definition __len__ : M Z :=
  d <- get_self;;
  a <- self_data;;
  match cls d with
  | ConversationalDataloader => ret (Z.of_nat (len a))
  | _ => ret (Z.of_nat (len a) - Z.of_nat (context_window (cfg d)))
  end.

(** [BaseDataloader.__getitem__], inherited by the standard and the
    byte-pooling class. *)
Definition getitem_base (idx : Z) : M batch :=
  d <- get_self;;
  a <- self_data;;
  let cw := Z.of_nat (context_window (cfg d)) in
  X <- lift (slice0 a idx (idx + cw));;
  y <- lift (slice0 a (idx + 1) (idx + 1 + cw));;
  ret (Batch X y None).

(** [ConversationalDataloader.__getitem__]: [torch.stack] receives a
    tensor where it takes a list or tuple of tensors, which torch rejects
    with a [TypeError]; the statements after it are never reached. *)
Definition getitem_conversational (idx : Z) : M batch :=
  a <- self_data;;
  _ <- lift (index0 a idx);;
  raise TypeError.

(** [NextTokenMLMDataloader.__getitem__] *)
Definition getitem_mlm (idx : Z) (g : rng) : M batch :=
  d <- get_self;;
  match masking_pct d with
  | None => raise AssertionError
  | Some p =>
      a <- self_data;;
      let cw := Z.of_nat (context_window (cfg d)) in
      X <- lift (slice0 a idx (idx + cw));;
      y <- lift (slice0 a (idx + 1) (idx + 1 + cw));;
      let mask := rand_mask g (shape X) p in
      ret (Batch (masked_fill0 X mask) y (Some mask))
  end.

Definition __getitem__ (idx : Z) (g : rng) : M batch :=
  d <- get_self;;
  match cls d with
  | StandardDataloader | BytePoolingDataloader => getitem_base idx
  | ConversationalDataloader => getitem_conversational idx
  | NextTokenMLMDataloader => getitem_mlm idx g
  end.

(** [check_processed] *)
Definition check_processed : M bool :=
  fun w => (Ok (os_path_exists (fs w) (tokenized_data_path (self w))), w).

(** ** Preprocessing *)

(** A raw record: a text column, or a [conversations] column holding the
    [value] of each turn. *)
Inductive example : Type :=
| TextExample (text : string)
| ConvExample (turns : list string).

(** A row of the tokenized dataset: column [ids], and column [len] when
    [process] produced one. *)
Record tokenized_row : Type := TokRow { ids : ndarray; len_col : option nat }.

(** The collaborators of the writer.  [tokenize_input] is the embedder's
    tokenizer and [load_data] is [trainers.utils.load_data]; either may
    raise.  [io_fault sp k] is the failure, if any, that the environment
    (disk, dataset library) produces while shard [k] of split [sp] is
    being written. *)
Record collaborators : Type := Collaborators {
  tokenize_input : string -> result ndarray;
  load_data : string -> result (list (string * list example));
  io_fault : string -> nat -> option exn
}.

(** [process] of [BaseDataloader.prepare_data] *)
Definition process_text (env : collaborators) (ex : example) : result tokenized_row :=
  match ex with
  | TextExample text =>
      a <-? tokenize_input env text;
      Ok (TokRow a (Some (len a)))
  | ConvExample _ => Raise KeyError
  end.

(** [process] of [ConversationalDataloader.prepare_data] *)
Definition process_conversation (env : collaborators) (ex : example)
    : result tokenized_row :=
  match ex with
  | ConvExample turns =>
      match turns !! 0%nat with
      | None => Raise IndexError
      | Some q =>
          question_ids <-? tokenize_input env q;
          match turns !! 1%nat with
          | None => Raise IndexError
          | Some r =>
              response_ids <-? tokenize_input env r;
              qa_pair <-? np_stack [question_ids; response_ids];
              Ok (TokRow qa_pair None)
          end
      end
  | TextExample _ => Raise KeyError
  end.

(** [split_dataset.map(process, ...)]: every record of every split, in
    order. *)
Definition dataset_map (f : example -> result tokenized_row)
    (ds : list (string * list example)) : result (list (string * list tokenized_row)) :=
  rmap (fun '(sp, rows) => rs <-? rmap f rows; Ok (sp, rs)) ds.

(** [dset.shard(num_shards, index, contiguous=True)] *)
Definition shard {A} (dset : list A) (num_shards index : nat) : list A :=
  let n := length dset in
  let div := (n / num_shards)%nat in
  let md := (n mod num_shards)%nat in
  let start := (div * index + Nat.min index md)%nat in
  let stop := (start + div + (if (index <? md)%nat then 1 else 0))%nat in
  take (stop - start) (drop start dset).

Definition total_batches : nat := 1024.

(** Numpy broadcasting of a buffer of shape [src] to shape [tgt], both of
    the same rank: along each axis the sizes agree or the source has size 1. *)
Fixpoint broadcast_same_rank (src tgt : list nat) (b : list Z) : option (list Z) :=
  match src, tgt with
  | [], [] => Some b
  | s :: src', t :: tgt' =>
      if (s =? t)%nat then
        option_map (@concat Z)
          (mapM (broadcast_same_rank src' tgt') (blocks s (numel src') b))
      else if (s =? 1)%nat then
        option_map (fun r => concat (replicate t r)) (broadcast_same_rank src' tgt' b)
      else None
  | _, _ => None
  end.

Fixpoint strip_ones (k : nat) (src : list nat) : list nat :=
  match k, src with
  | S k', 1%nat :: src' => strip_ones k' src'
  | _, _ => src
  end.

(** Broadcasting for item assignment: surplus leading axes of size 1 of
    the source are dropped, missing leading axes are added. *)
Definition broadcast_to (src tgt : list nat) (b : list Z) : option (list Z) :=
  let src1 := strip_ones (length src - length tgt) src in
  if (length tgt <? length src1)%nat then None
  else broadcast_same_rank (replicate (length tgt - length src1) 1%nat ++ src1) tgt b.

(** [arr[idx : idx + len(arr_batch)] = arr_batch] where [arr] is the
    writable mapping of [filename] with shape [arr_shape]: the assignment
    goes through to the file. *)
Definition assign_rows (filename : path) (arr_shape : list nat) (idx : nat)
    (arr_batch : ndarray) : M unit :=
  match arr_shape with
  | [] => raise IndexError
  | n :: rest =>
      let s := clip_bound n (Z.of_nat idx) in
      let e := clip_bound n (Z.of_nat idx + Z.of_nat (len arr_batch)) in
      match broadcast_to (shape arr_batch) ((e - s)%nat :: rest) (buf arr_batch) with
      | None => raise ValueError
      | Some b =>
          fs_update (fun fs0 =>
            match files fs0 !! filename with
            | None => Raise FileNotFoundError
            | Some c =>
                Ok (FS (dirs fs0)
                      (<[ filename := splice c (2 * (s * numel rest)) (encode_u16 b) ]>
                         (files fs0)))
            end)
      end
  end.

(** The body of the [for batch_idx in range(total_batches)] loop, over the
    remaining indices, with the running offset [idx]. *)
Fixpoint write_shards (env : collaborators) (v : variant) (sp : string)
    (filename : path) (arr_shape : list nat) (dset : list tokenized_row)
    (batch_idxs : list nat) (idx : nat) : M unit :=
  match batch_idxs with
  | [] => ret tt
  | batch_idx :: rest =>
      match io_fault env sp batch_idx with
      | Some e => raise e
      | None =>
          let batch := shard dset total_batches batch_idx in
          arr_batch <- lift (match v with
                             | ConversationalDataloader => np_stack (map ids batch)
                             | _ => np_concatenate (map ids batch)
                             end);;
          assign_rows filename arr_shape idx arr_batch;;;
          write_shards env v sp filename arr_shape dset rest (idx + len arr_batch)
      end
  end.

(** [np.sum(dset["len"])] *)
Definition sum_len (dset : list tokenized_row) : result nat :=
  ls <-? rmap (fun r => match len_col r with
                        | Some l => Ok l
                        | None => Raise KeyError
                        end) dset;
  Ok (foldr Nat.add 0%nat ls).

(** One iteration of [for split, dset in tokenized.items()] in the three
    [_write_tokenized_data] methods; they differ in the shape of the
    mapping and in [np.concatenate] versus [np.stack]. *)
Definition write_split (env : collaborators) (sp : string)
    (dset : list tokenized_row) : M unit :=
  d <- get_self;;
  arr_shape <- lift (match cls d with
                     | ConversationalDataloader =>
                         Ok [length dset; 2%nat; context_window (cfg d)]
                     | BytePoolingDataloader =>
                         arr_len <-? sum_len dset;
                         Ok [arr_len; byte_context_window (cfg d)]
                     | _ =>
                         arr_len <-? sum_len dset;
                         Ok [arr_len]
                     end);;
  let filename := bin_file d sp in
  _ <- memmap filename mode_wplus (Some arr_shape);;
  write_shards env (cls d) sp filename arr_shape dset (seq 0 total_batches) 0.

Fixpoint _write_tokenized_data (env : collaborators)
    (tokenized : list (string * list tokenized_row)) : M unit :=
  match tokenized with
  | [] => ret tt
  | (sp, dset) :: rest =>
      write_split env sp dset;;;
      _write_tokenized_data env rest
  end.

(** [try: body  except RuntimeError as exc: handler] *)
Definition try_except_RuntimeError {A} (body : M A) (handler : M A) : M A :=
  fun w => match body w with
           | (Raise e, w') => if is_RuntimeError e then handler w' else (Raise e, w')
           | r => r
           end.

(** [prepare_data] of [BaseDataloader] and of [ConversationalDataloader];
    the two bodies differ only in [process]. *)
Definition prepare_data (env : collaborators) : M unit :=
  d <- get_self;;
  exists_ <- (fun w => (Ok (os_path_exists (fs w) (tokenized_data_path d)), w));;
  if negb exists_ then
    fs_update (os_makedirs (tokenized_data_path d));;;
    split_dataset <- lift (load_data env (dataset_name (cfg d)));;
    try_except_RuntimeError
      (tokenized <- lift (dataset_map
                            (match cls d with
                             | ConversationalDataloader => process_conversation env
                             | _ => process_text env
                             end) split_dataset);;
       _write_tokenized_data env tokenized)
      (fs_update (os_removedirs (tokenized_data_path d));;;
       raise SystemExit)
  else ret tt.

(** ** Reachable loader states *)

(** The values an unsigned 16-bit element can hold. *)
Definition u16 (v : Z) : Prop := 0 <= v < 65536.

(** The shape that first-use resolution computes for a file of [n]
    elements. *)
Definition resolved_shape (v : variant) (c : config) (n : nat) : result (list nat) :=
  match v with
  | ConversationalDataloader => conversational_shape n (context_window c)
  | _ => byte_pooling_shape n (byte_context_window c)
  end.

(** Every cached shape was resolved from the file as it is on disk. *)
Definition cache_inv (w : world) : Prop :=
  match loading_shapes (self w) with
  | None => has_shape_cache (cls (self w)) = false
  | Some tbl =>
      has_shape_cache (cls (self w)) = true ∧
      ∀ sp s, tbl !! sp = Some (Some s) →
        ∃ c, files (fs w) !! bin_file (self w) sp = Some c ∧
             (length c mod 2 = 0)%nat ∧
             resolved_shape (cls (self w)) (cfg (self w)) (length c / 2) = Ok s
  end.

(** [self.data], when set, holds values read from 16-bit storage. *)
Definition data_inv (w : world) : Prop :=
  ∀ a, data (self w) = Some a → Forall u16 (buf a).

Definition loader_inv (w : world) : Prop := cache_inv w ∧ data_inv w.

(** The calls a training loop or an epoch iterator makes on a loader. *)
Inductive call : Type :=
| Call_get_batch (sp : string) (g : rng)
| Call_set_split (sp : string)
| Call_getitem (idx : Z) (g : rng)
| Call_len.

(** The world after a call, whether it returned or raised. *)
Definition do_call (c : call) (w : world) : world :=
  match c with
  | Call_get_batch sp g => snd (get_batch sp g w)
  | Call_set_split sp => snd (set_split sp w)
  | Call_getitem idx g => snd (__getitem__ idx g w)
  | Call_len => snd (__len__ w)
  end.

Definition run (calls : list call) (w : world) : world :=
  foldl (fun w0 c => do_call c w0) w calls.

(** The shape of [X] and of [y] in a batch. *)
Definition batch_shape (v : variant) (c : config) : list nat :=
  match v with
  | BytePoolingDataloader => [batch_size c; context_window c; byte_context_window c]
  | _ => [batch_size c; context_window c]
  end.

(** Two objects that differ at most in the shape cache. *)
Definition frame_obj (d d' : dataloader) : Prop :=
  cls d' = cls d ∧ cfg d' = cfg d ∧
  tokenized_data_path d' = tokenized_data_path d ∧
  masking_pct d' = masking_pct d ∧ split d' = split d ∧ data d' = data d.

(** A well-formed batch of a loader: the documented shape, 16-bit values. *)
Definition batch_ok (d : dataloader) (b : batch) : Prop :=
  shape (bX b) = batch_shape (cls d) (cfg d) ∧
  shape (bY b) = batch_shape (cls d) (cfg d) ∧
  Forall u16 (buf (bX b)) ∧ Forall u16 (buf (bY b)).

(** ** Auxiliary notions for the writer *)

(** The first record of shard [k] when [n] records are cut into
    [num_shards] contiguous shards. *)
Definition shard_start (n num_shards k : nat) : nat :=
  (n / num_shards * k + Nat.min k (n mod num_shards))%nat.

(** A one-dimensional array holding the token ids [l]. *)
Definition array1 (l : list Z) : ndarray := NdArray [length l] l.

(** The tokenized row that [process] of the base class builds from the
    ids [l] of one record. *)
Definition flat_row (l : list Z) : tokenized_row :=
  TokRow (array1 l) (Some (len (array1 l))).

(** The token ids that the shards [ks] of the records [rows] contribute,
    in write order. *)
Definition tokens_of (rows : list (list Z)) (ks : list nat) : list Z :=
  concat (map (fun k => concat (shard rows total_batches k)) ks).

(** ** Concrete scenarios *)

(** The loader that the constructor returns for a configuration it
    accepts. *)
Definition new_loader (v : variant) (c : config) : dataloader :=
  match __init__ v c with
  | Ok d => d
  | Raise _ => Dataloader v c [] None None None None
  end.

(** A disk that holds the processed directory of loader [d] with one
    split file storing [tokens]. *)
Definition disk_with (d : dataloader) (sp : string) (tokens : list Z) : filesystem :=
  FS (list_to_set (prefixes (tokenized_data_path d)))
     {[ bin_file d sp := encode_u16 tokens ]}.

Definition empty_disk : filesystem := FS ∅ ∅.

(** Context window 2, batch size 2, byte context window 3. *)
Definition demo_cfg : config :=
  Config ["data"%string] "openhermes-2.5" "gpt2" 50257 2 2 3 None.

(** The same with a configured masking fraction of one half. *)
Definition half_mask_cfg : config :=
  Config ["data"%string] "openhermes-2.5" "gpt2" 50257 2 2 3 (Some (Some (1 # 2)%Q)).

(** The same with a vocabulary that does not fit 16 bits. *)
Definition wide_cfg : config :=
  Config ["data"%string] "openhermes-2.5" "gpt2" 100000 2 2 3 None.

Definition demo_tokens : list Z :=
  [97; 98; 97; 98; 99; 100; 101; 102; 103; 104; 105; 106; 107].

Definition demo_world (v : variant) (c : config) (tokens : list Z) : world :=
  World (disk_with (new_loader v c) "train" tokens) (new_loader v c).

(** An entropy source: the integer draws are 3, 10, 17, ...; every uniform
    draw is 0.3. *)
Definition demo_rng : rng := Rng (fun k => Z.of_nat k * 7 + 3) (fun _ => (3 # 10)%Q).

(** An entropy source whose integer draws are all 0. *)
Definition zero_rng : rng := Rng (fun _ => 0) (fun _ => (3 # 10)%Q).

(** A tokenizer that maps every character to its code. *)
Definition ord_tokenizer (s : string) : result ndarray :=
  Ok (array1 (map (fun a => Z.of_nat (Ascii.nat_of_ascii a)) (String.list_ascii_of_string s))).

(** 1024 one-character records in a single split. *)
Definition corpus_1024 : list (string * list example) :=
  [("train"%string, replicate 1024 (TextExample "a"))].

Definition healthy_env : collaborators :=
  Collaborators ord_tokenizer (fun _ => Ok corpus_1024) (fun _ _ => None).

(** A [RuntimeError] while the last shard is written. *)
Definition failing_last_shard : collaborators :=
  Collaborators ord_tokenizer (fun _ => Ok corpus_1024)
    (fun _ k => if (k =? 1023)%nat then Some RuntimeError else None).

(** The disk fails ([OSError]) while the first shard is written. *)
Definition failing_disk : collaborators :=
  Collaborators ord_tokenizer (fun _ => Ok corpus_1024)
    (fun _ k => if (k =? 0)%nat then Some OSError else None).

(** A tokenizer that rejects its input with a [ValueError]. *)
Definition failing_tokenizer : collaborators :=
  Collaborators (fun _ => Raise ValueError) (fun _ => Ok corpus_1024) (fun _ _ => None).

(** [load_data] fails with a [RuntimeError]. *)
Definition failing_load : collaborators :=
  Collaborators ord_tokenizer (fun _ => Raise RuntimeError) (fun _ _ => None).

(** A tokenizer that fails with a [RuntimeError]. *)
Definition crashing_tokenizer : collaborators :=
  Collaborators (fun _ => Raise RuntimeError) (fun _ => Ok corpus_1024) (fun _ _ => None).

(** A tokenizer whose only token id is 70000. *)
Definition wide_env : collaborators :=
  Collaborators (fun _ => Ok (array1 [70000])) (fun _ => Ok corpus_1024) (fun _ _ => None).

(** Two stored conversations of context window 2: ([1;2], [3;4]) and
    ([5;6], [7;8]). *)
Definition conv_tokens : list Z := [1; 2; 3; 4; 5; 6; 7; 8].

(** ** Disk well-formedness *)

(** A well-formed disk: the parent of every entry below the top level is
    a directory. *)
Definition fs_wf (fs0 : filesystem) : Prop :=
  (forall q, q ∈ dirs fs0 -> (1 < length q)%nat -> dirname q ∈ dirs fs0) /\
  (forall q, is_Some (files fs0 !! q) -> (1 < length q)%nat -> dirname q ∈ dirs fs0).

(** The prefixes of [p] of length 1 to [k], as a set of directories. *)
Definition short_prefixes (p : path) (k : nat) : gset path :=
  list_to_set (map (fun j => take j p) (seq 1 k)).

(** ** The evaluation harness (evals/llm_harness.py) *)

Module LLMHarness.

(** [range(start, stop, step)] *)
Definition py_range (start stop step : Z) : result (list Z) :=
  if step =? 0 then Raise ValueError
  else
    let n := if 0 <? step then (stop - start + step - 1) / step
             else (start - stop - step - 1) / (- step) in
    Ok (map (fun k => start + Z.of_nat k * step) (seq 0 (Z.to_nat n))).

(** [l[lo:hi]] for a list, with Python's rules for negative and
    out-of-range bounds. *)
Definition list_slice {A} (l : list A) (lo hi : Z) : list A :=
  let s := clip_bound (length l) lo in
  let e := clip_bound (length l) hi in
  take (e - s) (drop s l).

(** [batch(data, batch_size)]: the chunks that the generator yields when
    it is run to exhaustion, or the exception that ends it. *)
Definition batch {A} (data : list A) (batch_size : Z) : result (list (list A)) :=
  starts <-? py_range 0 (Z.of_nat (length data)) batch_size;
  Ok (map (fun i => list_slice data i (i + batch_size)) starts).

(** The collaborators of [LMEvalWrappedModel]: the tokenizer of the
    embedding model, its padding token, the model shell (the logits it
    returns, one entry of type [L] per row and position), the summed
    cross entropy and [argmax] over the vocabulary axis. *)
Record model_shell (L R : Type) : Type := ModelShell {
  tokenize : string -> result (list Z);
  pad_token : Z;
  logits_of : list (list Z) -> result (list (list L));
  cross_entropy_sum : list L -> list Z -> result R;
  argmax : L -> Z
}.
Arguments tokenize {L R} _ _.
Arguments pad_token {L R} _.
Arguments logits_of {L R} _ _.
Arguments cross_entropy_sum {L R} _ _ _.
Arguments argmax {L R} _ _.

(** [(context_tokens[i] + target_tokens[i])[:-1][-512:]] *)
Definition unpadded_row (context target : list Z) : list Z :=
  let joined := context ++ target in
  let shifted := list_slice joined 0 (-1) in
  list_slice shifted (-512) (Z.of_nat (length shifted)).

(** [max(len(tokens) for tokens in rows)] *)
Definition max_len (rows : list (list Z)) : result nat :=
  match rows with
  | [] => Raise ValueError
  | _ => Ok (foldr Nat.max 0%nat (map length rows))
  end.

(** The token matrix that one chunk of requests sends to the model: the
    unpadded rows and the rows padded to the longest one. *)
Definition input_tokens (pad : Z) (context_tokens target_tokens : list (list Z))
    : result (list (list Z) * list (list Z)) :=
  unpadded <-? rmap (fun i => match context_tokens !! i, target_tokens !! i with
                              | Some c, Some t => Ok (unpadded_row c t)
                              | _, _ => Raise IndexError
                              end) (seq 0 (length context_tokens));
  m <-? max_len unpadded;
  Ok (unpadded, map (fun tokens => tokens ++ replicate (m - length tokens) pad) unpadded).

(** The body of [for i, _ in enumerate(batch_requests)]. *)
Definition score_row {L R} (ms : model_shell L R) (logits : list (list L))
    (unpadded target_tokens : list (list Z)) (i : nat) : result (R * bool) :=
  match logits !! i, unpadded !! i, target_tokens !! i with
  | Some logits_i, Some row, Some target =>
      let logits_i := list_slice logits_i 0 (Z.of_nat (length row)) in
      let n := Z.of_nat (length logits_i) in
      let k := Z.of_nat (length target) in
      ll <-? cross_entropy_sum ms (list_slice logits_i (- k) n) target;
      let greedy_prediction := map (argmax ms) (list_slice logits_i 0 (- k)) in
      Ok (ll, bool_decide (greedy_prediction = target))
  | _, _, _ => Raise IndexError
  end.

(** One iteration of [for batch_requests in batch(requests, 32)]. *)
Definition score_chunk {L R} (ms : model_shell L R)
    (batch_requests : list (string * string)) : result (list (R * bool)) :=
  context_tokens <-? rmap (fun rq => tokenize ms (fst rq)) batch_requests;
  target_tokens <-? rmap (fun rq => tokenize ms (snd rq)) batch_requests;
  rows <-? input_tokens (pad_token ms) context_tokens target_tokens;
  logits <-? logits_of ms (snd rows);
  rmap (score_row ms logits (fst rows) target_tokens) (seq 0 (length batch_requests)).

(** [LMEvalWrappedModel.loglikelihood] *)
Definition loglikelihood {L R} (ms : model_shell L R)
    (requests : list (string * string)) : result (list (R * bool)) :=
  chunks <-? batch requests 32;
  per_chunk <-? rmap (score_chunk ms) chunks;
  Ok (concat per_chunk).

(** What links a request to its entry in the results: both strings were
    tokenized, and the greedy flag can only be set when the doubled target
    fits the logits that are left after the padding was removed. *)
Definition linked {L R} (ms : model_shell L R) (rq : string * string)
    (res : R * bool) : Prop :=
  exists ct tt,
    tokenize ms (fst rq) = Ok ct /\ tokenize ms (snd rq) = Ok tt /\
    (snd res = true ->
     tt = [] \/ (2 * length tt <= Nat.min 512 (length ct + length tt - 1))%nat).

End LLMHarness.

(** ** The byte-level decoder head (models/experimental/byte_level/model_heads.py) *)

Module ByteLevel.

(** A contiguous tensor over an element type [T]: shape and row-major data. *)
Record tensor (T : Type) : Type := Tensor { tshape : list nat; tdata : list T }.
Arguments Tensor {T} _ _.
Arguments tshape {T} _.
Arguments tdata {T} _.

(** [x.size(i)] *)
Definition size {T} (x : tensor T) (i : nat) : result nat :=
  match tshape x !! i with
  | Some n => Ok n
  | None => Raise IndexError
  end.

(** [x.view(s)] for a shape [s] *)
Definition view {T} (x : tensor T) (s : list nat) : result (tensor T) :=
  if (numel (tshape x) =? numel s)%nat then Ok (Tensor s (tdata x))
  else Raise RuntimeError.

(** Cut a buffer into [n] consecutive rows of [w] elements. *)
Fixpoint rows {T} (n w : nat) (l : list T) : list (list T) :=
  match n with
  | O => []
  | S n' => take w l :: rows n' w (drop w l)
  end.

(** [torch.nn.Linear(in_features, out_features, bias=False)] applied to
    [x]: the map [weight] acts on every row along the last axis, whose
    size must be [in_features]. *)
Definition linear {T} (in_features out_features : nat) (weight : list T -> list T)
    (x : tensor T) : result (tensor T) :=
  match reverse (tshape x) with
  | [] => Raise RuntimeError
  | last_dim :: front =>
      if (last_dim =? in_features)%nat then
        Ok (Tensor (reverse front ++ [out_features])
              (concat (map weight (rows (numel front) in_features (tdata x)))))
      else Raise RuntimeError
  end.

(** The parameters of [ByteLevelDecoder]; the four transformer blocks are
    arbitrary modules. *)
Record decoder (T : Type) : Type := Decoder {
  hidden_dim : nat;                                 (* model_cfg["hidden_dim"] *)
  byte_vocab_size : nat;                            (* model_cfg["vocab_size"] *)
  projection : list T -> list T;
  transformer : list (tensor T -> result (tensor T));
  lm_head : list T -> list T
}.
Arguments hidden_dim {T} _.
Arguments byte_vocab_size {T} _.
Arguments projection {T} _ _.
Arguments transformer {T} _.
Arguments lm_head {T} _ _.

Definition embedding_dim : nat := 128.
Definition byte_context_window : nat := 16.

(** [for block in self.transformer: x = block(x)] *)
Fixpoint apply_blocks {T} (blocks : list (tensor T -> result (tensor T)))
    (x : tensor T) : result (tensor T) :=
  match blocks with
  | [] => Ok x
  | block :: rest => x' <-? block x; apply_blocks rest x'
  end.

(** [ByteLevelDecoder.forward] *)
Definition forward {T} (dec : decoder T) (x : tensor T) : result (tensor T) :=
  x <-? linear (hidden_dim dec) (byte_context_window * embedding_dim) (projection dec) x;
  s0 <-? size x 0;
  s1 <-? size x 1;
  x <-? view x [s0; s1; byte_context_window; embedding_dim];
  B <-? size x 0;
  S <-? size x 1;
  x <-? view x [(B * S)%nat; byte_context_window; embedding_dim];
  x <-? apply_blocks (transformer dec) x;
  x <-? linear embedding_dim (byte_vocab_size dec) (lm_head dec) x;
  view x [B; S; byte_context_window; byte_vocab_size dec].

(** One component of a basic index: an integer, or the full slice [:]. *)
Inductive index : Set := Idx (i : Z) | All.

(** The shape of [x[ix]]; every failure of basic indexing (too many
    indices, an integer out of range) is an [IndexError]. *)
Fixpoint getitem_shape (ix : list index) (s : list nat) : result (list nat) :=
  match ix, s with
  | [], _ => Ok s
  | _ :: _, [] => Raise IndexError
  | Idx i :: ix', n :: s' =>
      let j := if i <? 0 then i + Z.of_nat n else i in
      if (0 <=? j) && (j <? Z.of_nat n) then getitem_shape ix' s'
      else Raise IndexError
  | All :: ix', n :: s' =>
      s'' <-? getitem_shape ix' s';
      Ok (n :: s'')
  end.

Fixpoint getitem_data {T} (ix : list index) (s : list nat) (d : list T) : list T :=
  match ix, s with
  | Idx i :: ix', n :: s' =>
      let j := if i <? 0 then i + Z.of_nat n else i in
      getitem_data ix' s' (take (numel s') (drop (Z.to_nat j * numel s') d))
  | All :: ix', n :: s' =>
      concat (map (getitem_data ix' s') (rows n (numel s') d))
  | _, _ => d
  end.

(** [x[ix]] *)
Definition getitem {T} (ix : list index) (x : tensor T) : result (tensor T) :=
  s <-? getitem_shape ix (tshape x);
  Ok (Tensor s (getitem_data ix (tshape x) (tdata x))).

(** [ByteLevelDecoder.inference]: [self.forward(x)[0][:, -1, :, :]] *)
Definition inference {T} (dec : decoder T) (x : tensor T) : result (tensor T) :=
  y <-? forward dec x;
  y0 <-? getitem [Idx 0] y;
  getitem [All; Idx (-1); All; All] y0.

End ByteLevel.

(** * Properties *)

(** ** 16-bit storage *)

Lemma list_pair_ind {A} (P : list A -> Prop) :
  P [] -> (forall a, P [a]) ->
  (forall a b l, P l -> P (a :: b :: l)) ->
  forall l, P l.
Proof.
  intros H0 H1 H2 l.
  assert (H : P l /\ forall a, P (a :: l)); [|tauto].
  induction l as [|x l [IH1 IH2]]; split; auto.
Qed.

Lemma Z_of_byte_range b : 0 <= Z_of_byte b < 256.
Proof.
  unfold Z_of_byte. pose proof (Byte.to_N_bounded b). lia.
Qed.

Lemma Z_of_byte_of_Z z : Z_of_byte (byte_of_Z z) = z mod 256.
Proof.
  unfold Z_of_byte, byte_of_Z.
  assert (Hr : 0 <= z mod 256 < 256) by (apply Z.mod_pos_bound; lia).
  destruct (Byte.of_N (Z.to_N (z mod 256))) as [b|] eqn:E.
  - apply Byte.to_of_N in E. rewrite E. lia.
  - apply Byte.of_N_None_iff in E. lia.
Qed.

Lemma decode_u16_range bs : Forall u16 (decode_u16 bs).
Proof.
  induction bs as [| a | lo hi l IH] using list_pair_ind; simpl; auto.
  constructor; [|exact IH].
  pose proof (Z_of_byte_range lo). pose proof (Z_of_byte_range hi).
  unfold u16. lia.
Qed.

Lemma decode_u16_length bs : length (decode_u16 bs) = (length bs / 2)%nat.
Proof.
  induction bs as [| a | lo hi l IH] using list_pair_ind; [done..|].
  cbn [decode_u16 length]. rewrite IH.
  replace (S (S (length l))) with (1 * 2 + length l)%nat by lia.
  rewrite Nat.div_add_l by lia. reflexivity.
Qed.

Lemma decode_u16_take k bs :
  decode_u16 (take (2 * k) bs) = take k (decode_u16 bs).
Proof.
  revert k. induction bs as [| a | lo hi l IH] using list_pair_ind; intros k.
  - destruct k; done.
  - destruct k as [|k]; [done|].
    replace (2 * S k)%nat with (S (S (2 * k))) by lia. done.
  - destruct k as [|k]; [done|].
    replace (2 * S k)%nat with (S (S (2 * k))) by lia.
    cbn [firstn decode_u16]. by rewrite IH.
Qed.

Lemma decode_u16_app_even a b :
  (length a mod 2 = 0)%nat ->
  decode_u16 (a ++ b) = decode_u16 a ++ decode_u16 b.
Proof.
  induction a as [| x | lo hi l IH] using list_pair_ind; intros H.
  - done.
  - discriminate.
  - cbn [app decode_u16]. rewrite IH; [done|].
    cbn [length] in H.
    replace (S (S (length l))) with (length l + 1 * 2)%nat in H by lia.
    by rewrite Nat.Div0.mod_add in H.
Qed.

Lemma encode_u16_length vs : length (encode_u16 vs) = (2 * length vs)%nat.
Proof. induction vs as [|v vs IH]; simpl; lia. Qed.

Lemma encode_u16_app a b : encode_u16 (a ++ b) = encode_u16 a ++ encode_u16 b.
Proof. unfold encode_u16. by rewrite flat_map_app. Qed.

Lemma decode_encode_u16 vs :
  decode_u16 (encode_u16 vs) = map (fun v => v mod 65536) vs.
Proof.
  induction vs as [|v vs IH]; [done|].
  simpl. rewrite IH. f_equal.
  rewrite !Z_of_byte_of_Z.
  assert (Hr : 0 <= v mod 65536 < 65536) by (apply Z.mod_pos_bound; lia).
  set (u := v mod 65536) in *.
  rewrite (Z.mod_small (u / 256)).
  - pose proof (Z.div_mod u 256). lia.
  - split; [apply Z.div_pos; lia | apply Z.div_lt_upper_bound; lia].
Qed.

Lemma decode_replicate_zero n :
  decode_u16 (replicate (2 * n) x00) = replicate n 0.
Proof.
  induction n as [|n IH]; [done|].
  replace (2 * S n)%nat with (S (S (2 * n))) by lia.
  cbn [replicate decode_u16]. rewrite IH. reflexivity.
Qed.


(** ** Results and list comprehensions *)

Lemma rmap_total {A B} (f : A -> result B) (g : A -> B) xs :
  Forall (fun x => f x = Ok (g x)) xs -> rmap f xs = Ok (map g xs).
Proof.
  induction 1 as [|x xs Hx _ IH]; [done|].
  cbn [rmap map]. rewrite Hx. cbn [rbind]. rewrite IH. done.
Qed.

Lemma rmap_Ok_Forall2 {A B} (f : A -> result B) xs ys :
  rmap f xs = Ok ys -> Forall2 (fun x y => f x = Ok y) xs ys.
Proof.
  revert ys. induction xs as [|x xs IH]; intros ys H; cbn [rmap] in H.
  - inversion H. constructor.
  - destruct (f x) as [y|e] eqn:Hf; cbn [rbind] in H; [|discriminate].
    destruct (rmap f xs) as [ys'|e] eqn:Hr; cbn [rbind] in H; [|discriminate].
    inversion H; subst. constructor; auto.
Qed.

(** ** Arrays *)

Lemma clip_bound_in_range n i :
  0 <= i <= Z.of_nat n -> clip_bound n i = Z.to_nat i.
Proof.
  intros H. unfold clip_bound.
  destruct (i <? 0) eqn:E; [apply Z.ltb_lt in E; lia|].
  f_equal. lia.
Qed.

Lemma slice0_in_range n rest b lo (cw : nat) :
  0 <= lo -> lo + Z.of_nat cw <= Z.of_nat n ->
  slice0 (NdArray (n :: rest) b) lo (lo + Z.of_nat cw)
  = Ok (NdArray (cw :: rest)
          (take (cw * numel rest) (drop (Z.to_nat lo * numel rest) b))).
Proof.
  intros H0 H1. unfold slice0. cbn [shape buf].
  rewrite !clip_bound_in_range by lia.
  replace (Z.to_nat (lo + Z.of_nat cw) - Z.to_nat lo)%nat with cw by lia.
  reflexivity.
Qed.

Lemma stack_with_uniform e (ts : list ndarray) s :
  ts <> [] -> Forall (fun t => shape t = s) ts ->
  stack_with e ts = Ok (NdArray (length ts :: s) (concat (map buf ts))).
Proof.
  intros Hne Hall. destruct ts as [|t rest]; [done|].
  unfold stack_with. inversion Hall as [|? ? Ht Hrest]; subst.
  replace (forallb (fun u => shape_eqb (shape u) (shape t)) rest) with true; [done|].
  symmetry. apply forallb_forall. intros u Hu.
  rewrite Forall_forall in Hrest. unfold shape_eqb.
  apply bool_decide_eq_true. apply Hrest. by apply list_elem_of_In.
Qed.

Lemma stack_with_Ok e ts a :
  stack_with e ts = Ok a ->
  ts <> [] /\ a = NdArray (length ts :: shape (default a (head ts))) (concat (map buf ts))
  /\ Forall (fun t => shape t = shape (default a (head ts))) ts.
Proof.
  destruct ts as [|t rest]; [discriminate|]. unfold stack_with.
  destruct (forallb _ rest) eqn:E; [|discriminate].
  intros H. inversion H; subst. clear H. split; [done|]. split; [done|].
  cbn [head default]. constructor; [done|].
  apply Forall_forall. intros u Hu.
  rewrite forallb_forall in E. apply list_elem_of_In in Hu.
  specialize (E u Hu). unfold shape_eqb in E. by apply bool_decide_eq_true in E.
Qed.

Lemma torch_randint_Ok g high n idxs :
  torch_randint g high n = Ok idxs ->
  0 < high /\ length idxs = n /\ Forall (fun i => 0 <= i < high) idxs.
Proof.
  unfold torch_randint. destruct (high <=? 0) eqn:E; [discriminate|].
  apply Z.leb_gt in E. intros H. inversion H; subst. clear H.
  split; [done|]. split; [by rewrite length_map, length_seq|].
  apply Forall_forall. intros i Hi. apply list_elem_of_In, in_map_iff in Hi.
  destruct Hi as (k & <- & _). apply Z.mod_pos_bound. lia.
Qed.

Lemma lookup_concat_uniform {A} (ls : list (list A)) w r k :
  Forall (fun l => length l = w) ls -> (k < w)%nat ->
  concat ls !! (r * w + k)%nat = ls !! r ≫= (fun l => l !! k).
Proof.
  intros Hall Hk. revert r. induction Hall as [|l ls Hl _ IH]; intros r.
  - done.
  - destruct r as [|r]; cbn [concat].
    + cbn. rewrite lookup_app_l by lia. done.
    + replace (S r * w + k)%nat with (length l + (r * w + k))%nat by lia.
      rewrite lookup_app_r by lia.
      replace (length l + (r * w + k) - length l)%nat with (r * w + k)%nat by lia.
      apply IH.
Qed.


(** ** Mappings *)

Lemma take_even_all {A} (c : list A) :
  (length c mod 2 = 0)%nat -> take (2 * (length c / 2)) c = c.
Proof.
  intros H. apply take_ge.
  pose proof (Nat.div_mod_eq (length c) 2). lia.
Qed.

(** A read-only open never changes the file system. *)
Lemma np_memmap_r_frame p shp fs0 r fs' :
  np_memmap p mode_r shp fs0 = (r, fs') -> fs' = fs0.
Proof.
  unfold np_memmap. cbn [writable andb].
  destruct (files fs0 !! p) as [c|]; [|destruct shp; by inversion 1].
  destruct shp as [s|].
  - repeat case_match; by inversion 1.
  - repeat case_match; by inversion 1.
Qed.

(** A flat probe-open that succeeds returns the whole decoded file. *)
Lemma np_memmap_r_flat p fs0 a fs' :
  np_memmap p mode_r None fs0 = (Ok a, fs') ->
  exists c, files fs0 !! p = Some c /\ (length c mod 2 = 0)%nat /\ c <> [] /\
            a = NdArray [(length c / 2)%nat] (decode_u16 c).
Proof.
  unfold np_memmap. cbn [writable andb].
  destruct (files fs0 !! p) as [c|]; [|by inversion 1].
  destruct (length c mod 2 =? 0)%nat eqn:E; [|by inversion 1].
  apply Nat.eqb_eq in E.
  cbn [numel foldr]. rewrite Nat.mul_1_r.
  destruct (length c =? 0)%nat eqn:E0; [by inversion 1|].
  destruct (length c <? _)%nat; [by inversion 1|].
  intros [= <- <-]. exists c. pose proof (take_even_all c E) as Ht.
  split_and!; [done | done | by intros -> |].
  apply (f_equal2 NdArray); [reflexivity | apply (f_equal decode_u16); exact Ht].
Qed.

(** An open with a shape that fits the file: nothing is written, also in
    mode ["r+"], and the array is the leading part of the decoded file. *)
Lemma np_memmap_shape_fits p m s fs0 c r fs' :
  m <> mode_wplus ->
  files fs0 !! p = Some c -> (2 * numel s <= length c)%nat ->
  np_memmap p m (Some s) fs0 = (r, fs') ->
  fs' = fs0 /\
  forall a, r = Ok a -> a = NdArray s (take (numel s) (decode_u16 c)).
Proof.
  intros Hm Hc Hfit. unfold np_memmap. rewrite Hc.
  assert (Hlt : (length c <? 2 * numel s)%nat = false) by (apply Nat.ltb_ge; lia).
  destruct m; [| |done]; cbn [writable andb]; rewrite ?Hlt, decode_u16_take;
    (destruct (length c =? 0)%nat; [intros [= <- <-]; by split|]);
    intros [= <- <-]; (split; [done|]); by intros a [= <-].
Qed.

(** ** The monad *)

Lemma bind_Ok {A B} (m : M A) (k : A -> M B) w b w' :
  bind m k w = (Ok b, w') ->
  exists a w1, m w = (Ok a, w1) /\ k a w1 = (Ok b, w').
Proof.
  unfold bind. destruct (m w) as [[a|e] w1]; [eauto|discriminate].
Qed.

Lemma bind_any {A B} (m : M A) (k : A -> M B) w r w' :
  bind m k w = (r, w') ->
  (exists a w1, m w = (Ok a, w1) /\ k a w1 = (r, w')) \/
  (exists e, m w = (Raise e, w') /\ r = Raise e).
Proof.
  unfold bind. destruct (m w) as [[a|e] w1]; [eauto|].
  inversion 1; subst. eauto.
Qed.

Lemma lift_inv {A} (r0 : result A) w r w' :
  lift r0 w = (r, w') -> r = r0 /\ w' = w.
Proof. by inversion 1. Qed.

Lemma memmap_inv p m shp w r w' :
  memmap p m shp w = (r, w') ->
  exists fs', np_memmap p m shp (fs w) = (r, fs') /\ w' = World fs' (self w).
Proof.
  unfold memmap. destruct (np_memmap p m shp (fs w)) as [r0 fs'].
  inversion 1; subst. eauto.
Qed.

Lemma world_eta w : World (fs w) (self w) = w.
Proof. by destruct w. Qed.

(** ** Contiguous windows *)

Lemma window_pairs_in_range n rest b cw idxs :
  idxs <> [] ->
  Forall (fun i => 0 <= i < Z.of_nat n - Z.of_nat cw) idxs ->
  window_pairs (NdArray (n :: rest) b) cw idxs
  = Ok (NdArray (length idxs :: cw :: rest)
          (concat (map (fun i => take (cw * numel rest)
                                   (drop (Z.to_nat i * numel rest) b)) idxs)),
        NdArray (length idxs :: cw :: rest)
          (concat (map (fun i => take (cw * numel rest)
                                   (drop (Z.to_nat (i + 1) * numel rest) b)) idxs))).
Proof.
  intros Hne Hr. unfold window_pairs.
  rewrite (rmap_total _ (fun i => NdArray (cw :: rest)
             (take (cw * numel rest) (drop (Z.to_nat i * numel rest) b)))).
  2:{ eapply Forall_impl; [exact Hr|]. intros i Hi. cbn beta in *.
      apply slice0_in_range; lia. }
  cbn [rbind]. unfold torch_stack.
  rewrite (stack_with_uniform _ _ (cw :: rest)).
  2:{ by destruct idxs. }
  2:{ apply Forall_forall. intros t Ht.
      apply list_elem_of_In, in_map_iff in Ht. by destruct Ht as (i & <- & _). }
  cbn [rbind].
  rewrite (rmap_total _ (fun i => NdArray (cw :: rest)
             (take (cw * numel rest) (drop (Z.to_nat (i + 1) * numel rest) b)))).
  2:{ eapply Forall_impl; [exact Hr|]. intros i Hi. cbn beta in *.
      apply slice0_in_range; lia. }
  cbn [rbind].
  rewrite (stack_with_uniform _ _ (cw :: rest)).
  2:{ by destruct idxs. }
  2:{ apply Forall_forall. intros t Ht.
      apply list_elem_of_In, in_map_iff in Ht. by destruct Ht as (i & <- & _). }
  cbn [rbind]. rewrite !length_map, !map_map. reflexivity.
Qed.

(** [torch.stack] of an empty comprehension fails: a batch size of zero
    never yields a batch. *)
Lemma window_pairs_empty data cw : window_pairs data cw [] = Raise RuntimeError.
Proof. reflexivity. Qed.

(** What [sample_windows] returns when it returns. *)
Lemma sample_windows_Ok g n rest b cw bs X y :
  sample_windows g (NdArray (n :: rest) b) cw bs = Ok (X, y) ->
  exists idxs,
    torch_randint g (Z.of_nat n - Z.of_nat cw) bs = Ok idxs /\
    idxs <> [] /\ length idxs = bs /\
    Forall (fun i => 0 <= i < Z.of_nat n - Z.of_nat cw) idxs /\
    X = NdArray (bs :: cw :: rest)
          (concat (map (fun i => take (cw * numel rest)
                                   (drop (Z.to_nat i * numel rest) b)) idxs)) /\
    y = NdArray (bs :: cw :: rest)
          (concat (map (fun i => take (cw * numel rest)
                                   (drop (Z.to_nat (i + 1) * numel rest) b)) idxs)).
Proof.
  unfold sample_windows. cbn [len shape hd].
  destruct (torch_randint g _ bs) as [idxs|e] eqn:E; [|discriminate].
  cbn [rbind]. intros H.
  destruct (torch_randint_Ok _ _ _ _ E) as (Hhigh & Hlen & Hr).
  destruct idxs as [|i0 idxs'] eqn:Ei; [by rewrite window_pairs_empty in H|].
  rewrite <- Ei in *.
  assert (Hne : idxs <> []) by (rewrite Ei; done).
  rewrite window_pairs_in_range in H by done.
  inversion H; subst X y. exists idxs. rewrite Hlen. repeat split; done.
Qed.


(** The windows a contiguous sampler cuts out of a flat token sequence. *)
Lemma get_batch_base_Ok sp g w b w' :
  get_batch_base sp g w = (Ok b, w') ->
  w' = w /\
  exists c idxs,
    files (fs w) !! bin_file (self w) sp = Some c /\
    (length c mod 2 = 0)%nat /\
    torch_randint g (Z.of_nat (length (decode_u16 c))
                     - Z.of_nat (context_window (cfg (self w))))
      (batch_size (cfg (self w))) = Ok idxs /\
    idxs <> [] /\
    Forall (fun i => 0 <= i < Z.of_nat (length (decode_u16 c))
                             - Z.of_nat (context_window (cfg (self w)))) idxs /\
    b = Batch
          (NdArray [batch_size (cfg (self w)); context_window (cfg (self w))]
             (concat (map (fun i => take (context_window (cfg (self w)))
                                      (drop (Z.to_nat i) (decode_u16 c))) idxs)))
          (NdArray [batch_size (cfg (self w)); context_window (cfg (self w))]
             (concat (map (fun i => take (context_window (cfg (self w)))
                                      (drop (Z.to_nat (i + 1)) (decode_u16 c))) idxs)))
          None.
Proof.
  unfold get_batch_base. intros H.
  apply bind_Ok in H as (d & w1 & Hd & H). injection Hd as <- <-.
  apply bind_Ok in H as (a & w2 & Hm & H).
  apply memmap_inv in Hm as (fs' & Hm & ->).
  pose proof (np_memmap_r_frame _ _ _ _ _ Hm) as ->.
  apply np_memmap_r_flat in Hm as (c & Hc & Heven & Hne & ->).
  rewrite world_eta in H.
  apply bind_Ok in H as ([X y] & w3 & Hs & H).
  apply lift_inv in Hs as [Hs ->]. symmetry in Hs.
  injection H as <- <-. split; [done|].
  apply sample_windows_Ok in Hs as (idxs & Hri & Hn0 & Hlen & Hr & -> & ->).
  rewrite <- decode_u16_length in *.
  exists c, idxs. split_and!; try done.
  cbn [fst snd numel foldr].
  f_equal; f_equal; f_equal; apply map_ext; intros i; by rewrite !Nat.mul_1_r.
Qed.

(** ** Round-trip shifting (contiguous windows) *)

Lemma window_row_lookup (flat : list Z) (cw : nat) (f : Z -> nat) idxs r i k :
  idxs !! r = Some i ->
  Forall (fun j => (f j + cw <= length flat)%nat) idxs ->
  (k < cw)%nat ->
  concat (map (fun j => take cw (drop (f j) flat)) idxs) !! (r * cw + k)%nat
  = flat !! (f i + k)%nat.
Proof.
  intros Hi Hall Hk.
  rewrite (lookup_concat_uniform _ cw) by
    (try done; apply Forall_forall; intros l Hl;
     apply list_elem_of_In, in_map_iff in Hl as (j & <- & Hj);
     apply list_elem_of_In in Hj; rewrite Forall_forall in Hall;
     specialize (Hall j Hj); rewrite length_take, length_drop; lia).
  rewrite list_lookup_fmap, Hi. cbn.
  rewrite lookup_take_lt by done. by rewrite lookup_drop.
Qed.

(** Claim C2.  Contiguous-window sampling: whenever [get_batch] of the base
    class returns, every drawn offset [i] lies in
    [0, total_length - context_window); row [r] of [X] is the window of the
    flat file that starts at [i]; [y[r][k] = X[r][k+1]] for every
    [k < context_window - 1]; and [y[r][context_window - 1]] is the token
    of the file that follows the window, which exists. *)
Theorem contiguous_window_shift sp g w b w' :
  get_batch_base sp g w = (Ok b, w') ->
  let cw := context_window (cfg (self w)) in
  exists c idxs,
    files (fs w) !! bin_file (self w) sp = Some c /\
    torch_randint g (Z.of_nat (length (decode_u16 c)) - Z.of_nat cw)
      (batch_size (cfg (self w))) = Ok idxs /\
    forall (r : nat) (i : Z), idxs !! r = Some i ->
      0 <= i < Z.of_nat (length (decode_u16 c)) - Z.of_nat cw /\
      (forall k, (k < cw)%nat ->
         buf (bX b) !! (r * cw + k)%nat = decode_u16 c !! (Z.to_nat i + k)%nat /\
         is_Some (buf (bX b) !! (r * cw + k)%nat)) /\
      (forall k, (k + 1 < cw)%nat ->
         buf (bY b) !! (r * cw + k)%nat = buf (bX b) !! (r * cw + (k + 1))%nat) /\
      (forall k, (k + 1 = cw)%nat ->
         buf (bY b) !! (r * cw + k)%nat = decode_u16 c !! (Z.to_nat i + cw)%nat /\
         is_Some (buf (bY b) !! (r * cw + k)%nat)).
Proof.
  intros H cw. apply get_batch_base_Ok in H as (-> & c & idxs & Hc & _ & Hri & _ & Hr & ->).
  fold cw in Hri, Hr |- *. exists c, idxs. split_and!; [done..|].
  intros r i Hi. cbn [bX bY buf].
  assert (Hin : 0 <= i < Z.of_nat (length (decode_u16 c)) - Z.of_nat cw).
  { rewrite Forall_forall in Hr. apply Hr. by eapply list_elem_of_lookup_2. }
  assert (HX : Forall (fun j => (Z.to_nat j + cw <= length (decode_u16 c))%nat) idxs)
    by (eapply Forall_impl; [exact Hr|]; cbn beta; lia).
  assert (HY : Forall (fun j => (Z.to_nat (j + 1) + cw <= length (decode_u16 c))%nat) idxs)
    by (eapply Forall_impl; [exact Hr|]; cbn beta; lia).
  split_and!; [lia | lia | | |].
  - intros k Hk.
    rewrite (window_row_lookup _ cw Z.to_nat idxs r i k) by done.
    split; [done|]. apply lookup_lt_is_Some_2. lia.
  - intros k Hk.
    rewrite (window_row_lookup _ cw (fun j => Z.to_nat (j + 1)) idxs r i k) by (done || lia).
    rewrite (window_row_lookup _ cw Z.to_nat idxs r i (k + 1)) by (done || lia).
    f_equal. lia.
  - intros k Hk.
    rewrite (window_row_lookup _ cw (fun j => Z.to_nat (j + 1)) idxs r i k) by (done || lia).
    replace (Z.to_nat (i + 1) + k)%nat with (Z.to_nat i + cw)%nat by lia.
    split; [done|]. apply lookup_lt_is_Some_2. lia.
Qed.


(** ** Array operations only move values around *)

Section Values.
Context (P : Z -> Prop).

Lemma slice0_values a lo hi a' :
  Forall P (buf a) -> slice0 a lo hi = Ok a' -> Forall P (buf a').
Proof.
  unfold slice0. destruct (shape a); [discriminate|].
  intros H [= <-]. cbn [buf]. by apply Forall_take, Forall_drop.
Qed.

Lemma index0_values a i a' :
  Forall P (buf a) -> index0 a i = Ok a' -> Forall P (buf a').
Proof.
  unfold index0. destruct (shape a); [discriminate|].
  case_match; [|discriminate].
  intros HP [= <-]. cbn [buf]. by apply Forall_take, Forall_drop.
Qed.

Lemma blocks_values n w l : Forall P l -> Forall (Forall P) (blocks n w l).
Proof.
  revert l. induction n as [|n IH]; intros l H; cbn [blocks]; constructor.
  - by apply Forall_take.
  - by apply IH, Forall_drop.
Qed.

Lemma select1_values a j a' :
  Forall P (buf a) -> select1 a j = Ok a' -> Forall P (buf a').
Proof.
  unfold select1. destruct (shape a) as [|b [|m rest]]; try discriminate.
  case_match; [|discriminate].
  intros HP [= <-]. cbn [buf]. apply Forall_concat, Forall_fmap.
  eapply Forall_impl; [apply blocks_values, HP|].
  intros blk Hb. cbn. by apply Forall_take, Forall_drop.
Qed.

Lemma stack_with_values e ts a :
  Forall (fun t => Forall P (buf t)) ts -> stack_with e ts = Ok a ->
  Forall P (buf a).
Proof.
  intros H Hs. apply stack_with_Ok in Hs as (_ & -> & _). cbn [buf].
  by apply Forall_concat, Forall_fmap.
Qed.

Lemma rmap_values {A} (f : A -> result ndarray) xs ts :
  (forall x t, f x = Ok t -> Forall P (buf t)) ->
  rmap f xs = Ok ts -> Forall (fun t => Forall P (buf t)) ts.
Proof.
  intros Hf Hr. apply rmap_Ok_Forall2 in Hr.
  induction Hr; constructor; eauto.
Qed.

Lemma masked_fill0_values X mask :
  P 0 -> Forall P (buf X) -> Forall P (buf (masked_fill0 X mask)).
Proof.
  intros H0 H. cbn [masked_fill0 buf].
  revert mask. induction H as [|v l Hv _ IH]; intros [|m mask]; cbn; try constructor.
  - by destruct m.
  - apply IH.
Qed.

Lemma window_pairs_values data cw idxs X y :
  Forall P (buf data) -> window_pairs data cw idxs = Ok (X, y) ->
  Forall P (buf X) /\ Forall P (buf y).
Proof.
  intros H. unfold window_pairs.
  destruct (rmap _ idxs) as [xs|] eqn:Exs; cbn [rbind]; [|done].
  destruct (torch_stack xs) as [X0|] eqn:EX; cbn [rbind]; [|done].
  destruct (rmap (fun i => slice0 data (i + 1) _) idxs) as [ys|] eqn:Eys;
    cbn [rbind]; [|done].
  destruct (torch_stack ys) as [y0|] eqn:Ey; cbn [rbind]; [|done].
  intros [= <- <-]. split.
  - eapply stack_with_values; [|exact EX].
    eapply rmap_values; [|exact Exs]. intros i t. by apply slice0_values.
  - eapply stack_with_values; [|exact Ey].
    eapply rmap_values; [|exact Eys]. intros i t. by apply slice0_values.
Qed.

Lemma sample_windows_values g data cw bs X y :
  Forall P (buf data) -> sample_windows g data cw bs = Ok (X, y) ->
  Forall P (buf X) /\ Forall P (buf y).
Proof.
  intros H. unfold sample_windows.
  destruct (torch_randint _ _ _); cbn [rbind]; [|done].
  by apply window_pairs_values.
Qed.
End Values.

(** ** Shapes *)

Lemma index0_shape n rest b i a :
  index0 (NdArray (n :: rest) b) i = Ok a -> shape a = rest.
Proof.
  unfold index0. cbn [shape]. case_match; [|discriminate]. by intros [= <-].
Qed.

Lemma select1_shape b0 m rest b j a :
  select1 (NdArray (b0 :: m :: rest) b) j = Ok a -> shape a = b0 :: rest.
Proof.
  unfold select1. cbn [shape]. case_match; [|discriminate]. by intros [= <-].
Qed.

Lemma rmap_length {A B} (f : A -> result B) xs ys :
  rmap f xs = Ok ys -> length ys = length xs.
Proof. intros H. apply rmap_Ok_Forall2 in H. symmetry. by eapply Forall2_length. Qed.

(** A mapping opened with an explicit shape in a reading mode. *)
Lemma np_memmap_shape_Ok p m s fs0 a fs' :
  m <> mode_wplus -> np_memmap p m (Some s) fs0 = (Ok a, fs') ->
  shape a = s /\ Forall u16 (buf a).
Proof.
  intros Hm. unfold np_memmap.
  destruct m; [| |done];
    (destruct (files fs0 !! p) as [c|]; [|discriminate]);
    repeat case_match; intros [= <- <-] || discriminate;
    (split; [done | apply decode_u16_range]).
Qed.


(** ** The shape cache *)

Lemma frame_obj_refl d : frame_obj d d.
Proof. by repeat split. Qed.

Lemma frame_obj_trans d1 d2 d3 : frame_obj d1 d2 -> frame_obj d2 d3 -> frame_obj d1 d3.
Proof. unfold frame_obj. intros (?&?&?&?&?&?) (?&?&?&?&?&?). split_and!; congruence. Qed.

Lemma frame_obj_bin_file d d' sp : frame_obj d d' -> bin_file d' sp = bin_file d sp.
Proof. intros (_ & _ & Hp & _). unfold bin_file. by rewrite Hp. Qed.

Lemma bind_get_self {A} (k : dataloader -> M A) w :
  bind get_self k w = k (self w) w.
Proof. reflexivity. Qed.

Lemma bind_lift_Ok {A B} (a : A) (k : A -> M B) w : bind (lift (Ok a)) k w = k a w.
Proof. reflexivity. Qed.

Lemma bind_lift_Raise {A B} e (k : A -> M B) w :
  bind (lift (Raise e)) k w = (Raise e, w).
Proof. reflexivity. Qed.

(** Resolution either finds the cached shape or computes it from the
    length of the file; it never writes to the disk, and it keeps the
    cache consistent with the disk. *)
Lemma resolve_shape_spec sp w r w' :
  cache_inv w -> resolve_shape sp w = (r, w') ->
  fs w' = fs w /\ frame_obj (self w) (self w') /\ cache_inv w' /\
  forall s, r = Ok s ->
    exists c, files (fs w) !! bin_file (self w) sp = Some c /\
              (length c mod 2 = 0)%nat /\
              resolved_shape (cls (self w)) (cfg (self w)) (length c / 2) = Ok s.
Proof.
  intros Hinv. unfold resolve_shape. intros H.
  rewrite bind_get_self in H.
  assert (Hstay : fs w = fs w /\ frame_obj (self w) (self w) /\ cache_inv w /\
            forall s, @Raise (list nat) KeyError = Ok s ->
              exists c, files (fs w) !! bin_file (self w) sp = Some c /\
                        (length c mod 2 = 0)%nat /\
                        resolved_shape (cls (self w)) (cfg (self w)) (length c / 2) = Ok s).
  { split_and!; [done | apply frame_obj_refl | done | done]. }
  destruct Hstay as (Hs1 & Hs2 & Hs3 & _).
  unfold cache_inv in Hinv. unfold cached_shape in H.
  destruct (loading_shapes (self w)) as [tbl|] eqn:Etbl.
  2:{ injection H as <- <-. by split_and!. }
  destruct Hinv as [Hcls Htbl].
  destruct (tbl !! sp) as [[s|]|] eqn:Esp.
  - injection H as <- <-. split_and!; [done..|].
    intros s' [= <-]. by apply Htbl.
  - rewrite bind_lift_Ok in H.
    apply bind_any in H as [(flat & w2 & Hm & H) | (e & Hm & ->)];
      apply memmap_inv in Hm as (fs' & Hm & ->);
      pose proof (np_memmap_r_frame _ _ _ _ _ Hm) as ->.
    2:{ rewrite world_eta. by split_and!. }
    apply np_memmap_r_flat in Hm as (c & Hc & Heven & Hne & ->).
    rewrite world_eta in H. cbn [len shape hd] in H.
    fold (resolved_shape (cls (self w)) (cfg (self w)) (length c / 2)) in H.
    destruct (resolved_shape (cls (self w)) (cfg (self w)) (length c / 2))
      as [s|e] eqn:Es.
    2:{ rewrite bind_lift_Raise in H. injection H as <- <-. by split_and!. }
    rewrite bind_lift_Ok in H.
    unfold set_cached_shape, bind, get_self, put_self, ret in H.
    rewrite Etbl in H. injection H as <- <-. cbn [fs self].
    split_and!; [done | by repeat split | |].
    + unfold cache_inv. cbn [self fs loading_shapes cls cfg]. split; [done|].
      intros sp' s' Hl. unfold bin_file. cbn [tokenized_data_path].
      destruct (decide (sp = sp')) as [<-|Hne'].
      * rewrite lookup_insert_eq in Hl. injection Hl as <-. eauto.
      * rewrite lookup_insert_ne in Hl by done. by apply Htbl.
    + intros s' [= <-]. eauto.
  - injection H as <- <-. by split_and!.
Qed.


Lemma stack_with_Ok_shape e ts s a :
  Forall (fun t => shape t = s) ts -> stack_with e ts = Ok a ->
  ts <> [] /\ a = NdArray (length ts :: s) (concat (map buf ts)).
Proof.
  intros Hall H. destruct ts as [|t rest] eqn:E; [discriminate|]. rewrite <- E in *.
  assert (Hne : ts <> []) by (by rewrite E).
  rewrite (stack_with_uniform e ts s Hne Hall) in H. by injection H as <-.
Qed.

(** ** The four samplers *)

Lemma u16_0 : u16 0.
Proof. unfold u16. lia. Qed.

Lemma get_batch_base_spec sp g w r w' :
  cls (self w) = StandardDataloader ->
  get_batch_base sp g w = (r, w') ->
  w' = w /\ forall b, r = Ok b -> batch_ok (self w) b.
Proof.
  intros Hcls. unfold get_batch_base. rewrite bind_get_self. intros H.
  apply bind_any in H as [(a & w2 & Hm & H) | (e & Hm & ->)];
    apply memmap_inv in Hm as (fs' & Hm & ->);
    pose proof (np_memmap_r_frame _ _ _ _ _ Hm) as ->; rewrite world_eta in *.
  2:{ by split. }
  apply np_memmap_r_flat in Hm as (c & Hc & Heven & Hne & ->).
  destruct (sample_windows g _ _ _) as [[X y]|e] eqn:Es.
  2:{ rewrite bind_lift_Raise in H. injection H as <- <-. by split. }
  rewrite bind_lift_Ok in H. injection H as <- <-. split; [done|].
  intros b [= <-]. unfold batch_ok. rewrite Hcls. cbn [bX bY fst snd batch_shape].
  pose proof (sample_windows_values u16 g (NdArray _ (decode_u16 c)) _ _ _ _
                (decode_u16_range c) Es) as [HX HY].
  apply sample_windows_Ok in Es as (idxs & _ & _ & _ & _ & -> & ->).
  by split_and!.
Qed.

Lemma rand_mask_length g size p : length (rand_mask g size p) = numel size.
Proof. unfold rand_mask. by rewrite length_map, length_seq. Qed.

Lemma get_batch_mlm_spec sp p g w r w' :
  cls (self w) = NextTokenMLMDataloader ->
  get_batch_mlm sp p g w = (r, w') ->
  w' = w /\ forall b, r = Ok b -> batch_ok (self w) b.
Proof.
  intros Hcls. unfold get_batch_mlm. rewrite bind_get_self. intros H.
  apply bind_any in H as [(a & w2 & Hm & H) | (e & Hm & ->)];
    apply memmap_inv in Hm as (fs' & Hm & ->);
    pose proof (np_memmap_r_frame _ _ _ _ _ Hm) as ->; rewrite world_eta in *.
  2:{ by split. }
  apply np_memmap_r_flat in Hm as (c & Hc & Heven & Hne & ->).
  destruct (sample_windows g _ _ _) as [[X y]|e] eqn:Es.
  2:{ rewrite bind_lift_Raise in H. injection H as <- <-. by split. }
  rewrite bind_lift_Ok in H. injection H as <- <-. split; [done|].
  intros b [= <-]. unfold batch_ok. rewrite Hcls. cbn [bX bY fst snd batch_shape].
  pose proof (sample_windows_values u16 g (NdArray _ (decode_u16 c)) _ _ _ _
                (decode_u16_range c) Es) as [HX HY].
  apply sample_windows_Ok in Es as (idxs & _ & _ & _ & _ & -> & ->).
  split_and!; [done | done | | done].
  apply masked_fill0_values; [apply u16_0 | done].
Qed.

Lemma get_batch_byte_pooling_spec sp g w r w' :
  cls (self w) = BytePoolingDataloader -> cache_inv w ->
  get_batch_byte_pooling sp g w = (r, w') ->
  fs w' = fs w /\ frame_obj (self w) (self w') /\ cache_inv w' /\
  forall b, r = Ok b -> batch_ok (self w) b.
Proof.
  intros Hcls Hinv. unfold get_batch_byte_pooling. intros H.
  apply bind_any in H as [(s & w1 & Hres & H) | (e & Hres & ->)];
    apply (resolve_shape_spec _ _ _ _ Hinv) in Hres as (Hfs & Hfr & Hinv1 & Hs).
  2:{ by split_and!. }
  destruct (Hs s eq_refl) as (c & Hc & Heven & Hshape). clear Hs.
  rewrite Hcls in Hshape. cbn [resolved_shape] in Hshape.
  unfold byte_pooling_shape in Hshape.
  destruct (byte_context_window (cfg (self w)) =? 0)%nat; [discriminate|].
  injection Hshape as <-.
  rewrite bind_get_self in H.
  apply bind_any in H as [(a & w2 & Hm & H) | (e & Hm & ->)];
    apply memmap_inv in Hm as (fs' & Hm & ->);
    pose proof (np_memmap_r_frame _ _ _ _ _ Hm) as ->; rewrite world_eta in *.
  2:{ by split_and!. }
  apply np_memmap_shape_Ok in Hm as [Hsa Hva]; [|done].
  destruct a as [sa ba]. cbn [shape buf] in Hsa, Hva. subst sa.
  destruct (sample_windows g _ _ _) as [[X y]|e] eqn:Es.
  2:{ rewrite bind_lift_Raise in H. injection H as <- <-. by split_and!. }
  rewrite bind_lift_Ok in H. injection H as <- <-. split_and!; [done..|].
  intros b [= <-]. unfold batch_ok. rewrite Hcls. cbn [bX bY fst snd batch_shape].
  pose proof (sample_windows_values u16 g (NdArray _ ba) _ _ _ _ Hva Es) as [HX HY].
  apply sample_windows_Ok in Es as (idxs & _ & _ & _ & _ & -> & ->).
  destruct Hfr as (_ & Hcfg & _). rewrite Hcfg in *.
  by split_and!.
Qed.

Lemma conversational_fits n cw :
  (2 * numel [(n / 2 / cw)%nat; 2%nat; cw] <= 2 * n)%nat.
Proof.
  cbn [numel foldr]. rewrite Nat.mul_1_r.
  destruct (decide (cw = 0%nat)) as [->|Hcw]; [lia|].
  pose proof (Nat.Div0.mul_div_le (n / 2) cw).
  pose proof (Nat.Div0.mul_div_le n 2).
  nia.
Qed.

Lemma get_batch_conversational_spec sp g w r w' :
  cls (self w) = ConversationalDataloader -> cache_inv w ->
  get_batch_conversational sp g w = (r, w') ->
  fs w' = fs w /\ frame_obj (self w) (self w') /\ cache_inv w' /\
  forall b, r = Ok b -> batch_ok (self w) b.
Proof.
  intros Hcls Hinv. unfold get_batch_conversational. intros H.
  apply bind_any in H as [(s & w1 & Hres & H) | (e & Hres & ->)];
    apply (resolve_shape_spec _ _ _ _ Hinv) in Hres as (Hfs & Hfr & Hinv1 & Hs).
  2:{ by split_and!. }
  destruct (Hs s eq_refl) as (c & Hc & Heven & Hshape). clear Hs.
  rewrite Hcls in Hshape. cbn [resolved_shape] in Hshape.
  unfold conversational_shape in Hshape.
  destruct (context_window (cfg (self w)) =? 0)%nat; [discriminate|].
  injection Hshape as <-.
  rewrite bind_get_self in H.
  assert (Hfit : (2 * numel [(length c / 2 / 2 / context_window (cfg (self w)))%nat; 2%nat;
                             context_window (cfg (self w))] <= length c)%nat).
  { pose proof (conversational_fits (length c / 2) (context_window (cfg (self w)))).
    pose proof (Nat.Div0.mul_div_le (length c) 2). lia. }
  rewrite <- Hfs, <- (frame_obj_bin_file _ _ sp Hfr) in Hc.
  apply bind_any in H as [(a & w2 & Hm & H) | (e & Hm & ->)];
    apply memmap_inv in Hm as (fs' & Hm & ->);
    pose proof (np_memmap_shape_fits _ mode_rplus _ _ _ _ _ ltac:(done) Hc Hfit Hm) as [-> Ha];
    rewrite world_eta in *.
  2:{ by split_and!. }
  specialize (Ha a eq_refl).
  assert (Hva : Forall u16 (buf a))
    by (rewrite Ha; cbn [buf]; apply Forall_take, decode_u16_range).
  set (cw := context_window (cfg (self w))) in *.
  set (tk := take _ (decode_u16 c)) in *. clearbody tk.
  assert (Hstep : forall (r0 : result batch),
            (r0, w1) = (r, w') ->
            (forall b, r0 = Ok b -> batch_ok (self w) b) ->
            fs w' = fs w /\ frame_obj (self w) (self w') /\ cache_inv w' /\
            forall b, r = Ok b -> batch_ok (self w) b).
  { intros r0 [= <- <-] Hb. by split_and!. }
  destruct (torch_randint g _ _) as [ix|e] eqn:Eix.
  2:{ rewrite bind_lift_Raise in H. eapply Hstep; [exact H|done]. }
  rewrite bind_lift_Ok in H.
  apply torch_randint_Ok in Eix as (_ & Hlen & _).
  match type of H with bind (lift ?x) _ _ = _ => destruct x as [a0|e] end.
  2:{ rewrite bind_lift_Raise in H. eapply Hstep; [exact H|done]. }
  rewrite bind_lift_Ok in H.
  destruct (rmap (index0 a) ix) as [rows|e] eqn:Erows.
  2:{ rewrite bind_lift_Raise in H. eapply Hstep; [exact H|done]. }
  rewrite bind_lift_Ok in H.
  destruct (torch_stack rows) as [Xy|e] eqn:EXy.
  2:{ rewrite bind_lift_Raise in H. eapply Hstep; [exact H|done]. }
  rewrite bind_lift_Ok in H.
  destruct (select1 Xy 0) as [X|e] eqn:EX.
  2:{ rewrite bind_lift_Raise in H. eapply Hstep; [exact H|done]. }
  rewrite bind_lift_Ok in H.
  destruct (select1 Xy 1) as [y|e] eqn:EY.
  2:{ rewrite bind_lift_Raise in H. eapply Hstep; [exact H|done]. }
  rewrite bind_lift_Ok in H.
  eapply Hstep; [exact H|]. intros b [= <-].
  assert (Hrows_v : Forall (fun t => Forall u16 (buf t)) rows).
  { eapply rmap_values; [|exact Erows]. intros i t. by apply index0_values. }
  assert (Hrows_s : Forall (fun t => shape t = [2%nat; cw]) rows).
  { apply rmap_Ok_Forall2 in Erows. clear -Erows Ha.
    induction Erows as [|i t ix rows Hi _ IH]; constructor; [|done].
    rewrite Ha in Hi. by apply index0_shape in Hi. }
  pose proof (stack_with_values u16 _ _ _ Hrows_v EXy) as HXy_v.
  apply (stack_with_Ok_shape _ _ _ _ Hrows_s) in EXy as [_ ->].
  apply rmap_length in Erows.
  unfold batch_ok. rewrite Hcls. cbn [bX bY batch_shape].
  split_and!.
  - apply select1_shape in EX. rewrite EX, Erows, Hlen. by destruct Hfr as (_ & -> & _).
  - apply select1_shape in EY. rewrite EY, Erows, Hlen. by destruct Hfr as (_ & -> & _).
  - by eapply select1_values.
  - by eapply select1_values.
Qed.


Lemma get_batch_spec sp g w r w' :
  cache_inv w -> get_batch sp g w = (r, w') ->
  fs w' = fs w /\ frame_obj (self w) (self w') /\ cache_inv w' /\
  forall b, r = Ok b -> batch_ok (self w) b.
Proof.
  intros Hinv. unfold get_batch. rewrite bind_get_self.
  destruct (cls (self w)) eqn:Hcls; intros H.
  - apply get_batch_base_spec in H as [-> Hb]; [|done].
    split_and!; [done | apply frame_obj_refl | done | done].
  - by eapply get_batch_byte_pooling_spec.
  - by eapply get_batch_conversational_spec.
  - apply get_batch_mlm_spec in H as [-> Hb]; [|done].
    split_and!; [done | apply frame_obj_refl | done | done].
Qed.

(** ** Layout resolution in [get_data] *)

Lemma cache_inv_frame w w' :
  fs w' = fs w -> cls (self w') = cls (self w) -> cfg (self w') = cfg (self w) ->
  tokenized_data_path (self w') = tokenized_data_path (self w) ->
  loading_shapes (self w') = loading_shapes (self w) ->
  cache_inv w -> cache_inv w'.
Proof.
  unfold cache_inv, bin_file. intros -> -> -> -> ->. done.
Qed.

Lemma byte_pooling_fits n w : (2 * numel [(n / w)%nat; w] <= 2 * n)%nat.
Proof.
  cbn [numel foldr]. rewrite Nat.mul_1_r.
  pose proof (Nat.Div0.mul_div_le n w). nia.
Qed.

Lemma Ok_inj {A} (a b : A) : Ok a = Ok b -> a = b.
Proof. congruence. Qed.

Lemma resolved_shape_fits v c (bytes : list byte) s :
  resolved_shape v c (length bytes / 2) = Ok s ->
  (2 * numel s <= length bytes)%nat.
Proof.
  pose proof (Nat.Div0.mul_div_le (length bytes) 2) as H2.
  unfold resolved_shape, conversational_shape, byte_pooling_shape.
  pose proof (byte_pooling_fits (length bytes / 2) (byte_context_window c)).
  pose proof (conversational_fits (length bytes / 2) (context_window c)).
  destruct v; (case_match; [done|]); intros Heq%Ok_inj; subst s; lia.
Qed.

Lemma get_data_spec sp w r w' :
  cache_inv w -> get_data sp w = (r, w') ->
  fs w' = fs w /\ frame_obj (self w) (self w') /\ cache_inv w' /\
  forall a, r = Ok a -> Forall u16 (buf a).
Proof.
  intros Hinv. unfold get_data. rewrite bind_get_self. intros H.
  assert (Hstay : forall r0 : result ndarray, (r0, w) = (r, w') ->
            (forall a, r0 = Ok a -> Forall u16 (buf a)) ->
            fs w' = fs w /\ frame_obj (self w) (self w') /\ cache_inv w' /\
            forall a, r = Ok a -> Forall u16 (buf a)).
  { intros r0 [= <- <-] Ha. split_and!; [done | apply frame_obj_refl | done | done]. }
  apply bind_any in H as [(flat & w2 & Hm & H) | (e & Hm & ->)];
    apply memmap_inv in Hm as (fs' & Hm & ->);
    pose proof (np_memmap_r_frame _ _ _ _ _ Hm) as ->; rewrite world_eta in *.
  2:{ eapply Hstay; done. }
  apply np_memmap_r_flat in Hm as (c & Hc & Heven & Hne & ->).
  assert (Hflat : forall a, Ok (NdArray [(length c / 2)%nat] (decode_u16 c)) = Ok a ->
                    Forall u16 (buf a)).
  { intros a [= <-]. apply decode_u16_range. }
  destruct (has_shape_cache (cls (self w))) eqn:Hhas; [|by eapply Hstay].
  destruct (cached_shape (self w) sp) as [[s|]|e] eqn:Ecs.
  - rewrite bind_lift_Ok in H. by eapply Hstay.
  - rewrite bind_lift_Ok in H. cbn [len shape hd] in H.
    unfold cached_shape in Ecs.
    destruct (loading_shapes (self w)) as [tbl|] eqn:Etbl; [|discriminate].
    assert (Hset : forall s, set_cached_shape sp s w
              = (Ok tt, World (fs w)
                   (Dataloader (cls (self w)) (cfg (self w))
                      (tokenized_data_path (self w)) (masking_pct (self w))
                      (Some (<[ sp := Some s ]> tbl)) (split (self w)) (data (self w))))).
    { intros s. unfold set_cached_shape. rewrite bind_get_self, Etbl. reflexivity. }
    assert (Hopen : forall m s,
              m <> mode_wplus ->
              resolved_shape (cls (self w)) (cfg (self w)) (length c / 2) = Ok s ->
              (set_cached_shape sp s;;; memmap (bin_file (self w) sp) m (Some s)) w = (r, w') ->
              fs w' = fs w /\ frame_obj (self w) (self w') /\ cache_inv w' /\
              forall a, r = Ok a -> Forall u16 (buf a)).
    { intros m s Hm Hs Hrun. unfold bind in Hrun. rewrite Hset in Hrun.
      apply memmap_inv in Hrun as (fs' & Hrun & ->). cbn [fs self] in *.
      pose proof (resolved_shape_fits _ _ _ _ Hs) as Hfit.
      pose proof (np_memmap_shape_fits _ _ _ _ _ _ _ Hm Hc Hfit Hrun) as [-> Ha].
      split_and!; [done | by repeat split | |].
      - unfold cache_inv in Hinv |- *. rewrite Etbl in Hinv. destruct Hinv as [_ Htbl].
        cbn [self fs loading_shapes cls cfg]. split; [done|].
        intros sp' s' Hl. unfold bin_file. cbn [tokenized_data_path].
        destruct (decide (sp = sp')) as [<-|Hne'].
        + rewrite lookup_insert_eq in Hl. injection Hl as <-. eauto.
        + rewrite lookup_insert_ne in Hl by done. by apply Htbl.
      - intros a ->. rewrite (Ha _ eq_refl). cbn [buf].
        apply Forall_take, decode_u16_range. }
    destruct (cls (self w)) eqn:Hcls; try discriminate.
    + destruct (byte_pooling_shape _ _) as [s|e] eqn:Es.
      2:{ rewrite bind_lift_Raise in H. by eapply Hstay. }
      rewrite bind_lift_Ok in H. by eapply (Hopen mode_r s).
    + destruct (conversational_shape _ _) as [s|e] eqn:Es.
      2:{ rewrite bind_lift_Raise in H. by eapply Hstay. }
      rewrite bind_lift_Ok in H. by eapply (Hopen mode_rplus s).
  - rewrite bind_lift_Raise in H. by eapply Hstay.
Qed.

Lemma set_split_spec sp w r w' :
  loader_inv w -> set_split sp w = (r, w') ->
  fs w' = fs w /\ loader_inv w' /\
  cls (self w') = cls (self w) /\ cfg (self w') = cfg (self w) /\
  tokenized_data_path (self w') = tokenized_data_path (self w) /\
  masking_pct (self w') = masking_pct (self w).
Proof.
  intros [Hc Hd]. unfold set_split. rewrite bind_get_self.
  unfold bind at 1, put_self. cbn [fs self].
  set (w1 := World (fs w) _).
  assert (Hc1 : cache_inv w1) by (by eapply (cache_inv_frame w)).
  intros H.
  apply bind_any in H as [(a & w2 & Hg & H) | (e & Hg & ->)];
    apply (get_data_spec _ _ _ _ Hc1) in Hg as (Hfs & Hfr & Hc2 & Ha).
  - rewrite bind_get_self in H. injection H as <- <-. cbn [fs self cls cfg tokenized_data_path masking_pct].
    destruct Hfr as (? & ? & ? & ? & ? & ?).
    split_and!; try done.
    split.
    + by eapply (cache_inv_frame w2).
    + intros a' [= <-]. by apply Ha.
  - destruct Hfr as (? & ? & ? & ? & ? & Hdata).
    split_and!; try done. split; [done|].
    unfold data_inv. rewrite Hdata. exact Hd.
Qed.

(** ** Index access *)

Lemma self_data_inv w r w' :
  self_data w = (r, w') -> w' = w /\ (forall a, r = Ok a -> data (self w) = Some a).
Proof.
  unfold self_data. rewrite bind_get_self.
  destruct (data (self w)); intros [= <- <-]; split; congruence.
Qed.

Lemma __getitem___spec idx g w r w' :
  data_inv w -> __getitem__ idx g w = (r, w') ->
  w' = w /\ forall b, r = Ok b -> Forall u16 (buf (bX b)) /\ Forall u16 (buf (bY b)).
Proof.
  intros Hd. unfold __getitem__, getitem_base, getitem_conversational, getitem_mlm.
  rewrite bind_get_self.
  assert (Hbase : forall (k : ndarray -> ndarray -> batch),
    (forall X y, Forall u16 (buf X) -> Forall u16 (buf y) ->
                 Forall u16 (buf (bX (k X y))) /\ Forall u16 (buf (bY (k X y)))) ->
    (a <- self_data;;
     X <- lift (slice0 a idx (idx + Z.of_nat (context_window (cfg (self w)))));;
     y <- lift (slice0 a (idx + 1) (idx + 1 + Z.of_nat (context_window (cfg (self w)))));;
     ret (k X y)) w = (r, w') ->
    w' = w /\ forall b, r = Ok b -> Forall u16 (buf (bX b)) /\ Forall u16 (buf (bY b))).
  { intros k Hk H.
    apply bind_any in H as [(a & w2 & Hs & H) | (e & Hs & ->)];
      apply self_data_inv in Hs as [-> Ha]; [|by split].
    specialize (Hd a (Ha a eq_refl)).
    destruct (slice0 a idx _) as [X|e] eqn:EX.
    2:{ rewrite bind_lift_Raise in H. injection H as <- <-. by split. }
    rewrite bind_lift_Ok in H.
    destruct (slice0 a (idx + 1) _) as [y|e] eqn:EY.
    2:{ rewrite bind_lift_Raise in H. injection H as <- <-. by split. }
    rewrite bind_lift_Ok in H. injection H as <- <-. split; [done|].
    intros b [= <-]. apply Hk; by eapply slice0_values. }
  destruct (cls (self w)).
  - rewrite bind_get_self. apply Hbase. by intros.
  - rewrite bind_get_self. apply Hbase. by intros.
  - intros H.
    apply bind_any in H as [(a & w2 & Hs & H) | (e & Hs & ->)];
      apply self_data_inv in Hs as [-> Ha]; [|by split].
    destruct (index0 a idx).
    + rewrite bind_lift_Ok in H. injection H as <- <-. by split.
    + rewrite bind_lift_Raise in H. injection H as <- <-. by split.
  - rewrite bind_get_self. destruct (masking_pct (self w)) as [p|].
    + intros H.
      apply bind_any in H as [(a & w2 & Hs & H) | (e & Hs & ->)];
        apply self_data_inv in Hs as [-> Ha]; [|by split].
      specialize (Hd a (Ha a eq_refl)).
      destruct (slice0 a idx _) as [X|e] eqn:EX.
      2:{ rewrite bind_lift_Raise in H. injection H as <- <-. by split. }
      rewrite bind_lift_Ok in H.
      destruct (slice0 a (idx + 1) _) as [y|e] eqn:EY.
      2:{ rewrite bind_lift_Raise in H. injection H as <- <-. by split. }
      rewrite bind_lift_Ok in H. injection H as <- <-. split; [done|].
      intros b [= <-]. cbn [bX bY]. split.
      * apply masked_fill0_values; [apply u16_0|]. by eapply slice0_values.
      * by eapply slice0_values.
    + intros [= <- <-]. by split.
Qed.

Lemma __len___frame w r w' : __len__ w = (r, w') -> w' = w.
Proof.
  unfold __len__. rewrite bind_get_self. intros H.
  apply bind_any in H as [(a & w2 & Hs & H) | (e & Hs & ->)];
    apply self_data_inv in Hs as [-> Ha]; [|done].
  destruct (cls (self w)); by injection H as <- <-.
Qed.

(** ** Invariants along a run *)

Lemma __init___inv v c d fs0 :
  __init__ v c = Ok d ->
  loader_inv (World fs0 d) /\ cls d = v /\ cfg d = c.
Proof.
  unfold __init__, loader_inv, cache_inv, data_inv.
  destruct v; cbn [has_shape_cache]; try case_bool_decide; intros [= <-];
    cbn [self fs loading_shapes cls cfg data]; split_and!; try done.
  all: intros sp s Hl; exfalso;
    destruct (decide (sp = "train"%string)) as [->|?];
    [ by rewrite lookup_insert_eq in Hl
    | rewrite lookup_insert_ne in Hl by done;
      destruct (decide (sp = "val"%string)) as [->|?];
      [ by rewrite lookup_insert_eq in Hl
      | by rewrite lookup_insert_ne, lookup_empty in Hl ] ].
Qed.

Lemma do_call_inv c w :
  loader_inv w ->
  fs (do_call c w) = fs w /\ loader_inv (do_call c w) /\
  cls (self (do_call c w)) = cls (self w) /\ cfg (self (do_call c w)) = cfg (self w).
Proof.
  intros [Hc Hd]. destruct c as [sp g | sp | idx g |]; cbn [do_call].
  - destruct (get_batch sp g w) as [r w'] eqn:E. cbn [snd].
    apply (get_batch_spec _ _ _ _ _ Hc) in E as (Hfs & Hfr & Hc' & _).
    destruct Hfr as (? & ? & ? & ? & ? & Hdata).
    split_and!; try done. split; [done|]. unfold data_inv. by rewrite Hdata.
  - destruct (set_split sp w) as [r w'] eqn:E. cbn [snd].
    apply set_split_spec in E as (? & ? & ? & ? & _); [done | by split].
  - destruct (__getitem__ idx g w) as [r w'] eqn:E. cbn [snd].
    apply (__getitem___spec _ _ _ _ _ Hd) in E as [-> _]. by split_and!.
  - destruct (__len__ w) as [r w'] eqn:E. cbn [snd].
    apply __len___frame in E as ->. by split_and!.
Qed.

Lemma run_inv calls w :
  loader_inv w ->
  fs (run calls w) = fs w /\ loader_inv (run calls w) /\
  cls (self (run calls w)) = cls (self w) /\ cfg (self (run calls w)) = cfg (self w).
Proof.
  revert w. induction calls as [|c calls IH]; intros w Hinv; [done|].
  cbn [run foldl].
  destruct (do_call_inv c w Hinv) as (Hfs & Hinv' & Hcls & Hcfg).
  destruct (IH _ Hinv') as (? & ? & ? & ?).
  split_and!; [| done | |]; etrans; eauto.
Qed.


(** ** Contiguous shards *)

Section Shards.
Local Open Scope nat_scope.
Context {A : Type}.
Implicit Types l : list A.

(** Consecutive segments of a list, cut at the points [f 0 <= f 1 <= ...],
    join up to the segment from [f 0] to [f n]. *)
Lemma segments_concat l (f : nat -> nat) n :
  (forall k, (k < n)%nat -> (f k <= f (S k))%nat) ->
  concat (map (fun k => take (f (S k) - f k) (drop (f k) l)) (seq 0 n))
  = take (f n - f 0) (drop (f 0) l).
Proof.
  induction n as [|n IH]; intros Hmono.
  - by rewrite Nat.sub_diag.
  - rewrite seq_S, map_app, concat_app, IH by (intros; apply Hmono; lia).
    cbn [map concat Nat.add]. rewrite app_nil_r.
    assert (H0n : (f 0 <= f n)%nat).
    { clear IH. induction n as [|n IHn]; [done|].
      etrans; [apply IHn; intros; apply Hmono; lia|]. apply Hmono. lia. }
    pose proof (Hmono n ltac:(lia)).
    replace (drop (f n) l) with (drop (f n - f 0) (drop (f 0) l))
      by (rewrite drop_drop; f_equal; lia).
    rewrite take_take_drop. f_equal. lia.
Qed.

Lemma shard_segment l num_shards k :
  shard l num_shards k
  = take (shard_start (length l) num_shards (S k) - shard_start (length l) num_shards k)
      (drop (shard_start (length l) num_shards k) l).
Proof.
  unfold shard, shard_start. cbn zeta. f_equal.
  rewrite Nat.mul_succ_r.
  destruct (k <? length l mod num_shards)%nat eqn:E;
    [apply Nat.ltb_lt in E | apply Nat.ltb_ge in E]; lia.
Qed.

Lemma shard_start_mono n num_shards k :
  (shard_start n num_shards k <= shard_start n num_shards (S k))%nat.
Proof. unfold shard_start. rewrite Nat.mul_succ_r. lia. Qed.

Lemma shard_start_last n num_shards :
  (0 < num_shards)%nat -> shard_start n num_shards num_shards = n.
Proof.
  intros H. unfold shard_start.
  pose proof (Nat.mod_upper_bound n num_shards ltac:(lia)).
  pose proof (Nat.div_mod_eq n num_shards). nia.
Qed.

(** The shards partition the dataset, in order. *)
Lemma shard_partition l num_shards :
  (0 < num_shards)%nat ->
  concat (map (shard l num_shards) (seq 0 num_shards)) = l.
Proof.
  intros H.
  rewrite (map_ext _ (fun k => take (shard_start (length l) num_shards (S k)
                                     - shard_start (length l) num_shards k)
                                 (drop (shard_start (length l) num_shards k) l)))
    by (intros; apply shard_segment).
  rewrite (segments_concat l (shard_start (length l) num_shards))
    by (intros; apply shard_start_mono).
  rewrite shard_start_last by done.
  unfold shard_start. rewrite Nat.mul_0_r. cbn [Nat.min Nat.add].
  rewrite Nat.sub_0_r, drop_0. by apply take_ge.
Qed.

(** With at least as many records as shards, no shard is empty. *)
Lemma shard_nonempty l num_shards k :
  (0 < num_shards)%nat -> (num_shards <= length l)%nat -> (k < num_shards)%nat ->
  shard l num_shards k <> [].
Proof.
  intros H0 Hn Hk Hnil. apply (f_equal length) in Hnil.
  rewrite shard_segment, length_take, length_drop in Hnil. cbn [length] in Hnil.
  pose proof (shard_start_last (length l) num_shards H0) as Hlast.
  assert (Hdiv : (1 <= length l / num_shards)%nat)
    by (apply Nat.div_le_lower_bound; lia).
  assert (Hle : (shard_start (length l) num_shards (S k) <= length l)%nat).
  { unfold shard_start in Hlast |- *.
    pose proof (Nat.mod_upper_bound (length l) num_shards ltac:(lia)).
    assert ((length l / num_shards * S k <= length l / num_shards * num_shards)%nat)
      by (apply Nat.mul_le_mono_l; lia).
    lia. }
  assert (Hlt : (shard_start (length l) num_shards k
                 < shard_start (length l) num_shards (S k))%nat).
  { unfold shard_start. rewrite Nat.mul_succ_r. lia. }
  lia.
Qed.
End Shards.

(** ** Splicing *)

Section Splice.
Local Open Scope nat_scope.

Lemma splice_length {A} (l new : list A) off :
(off + length new <= length l)%nat -> length (splice l off new) = length l.
Proof.
intros H. unfold splice. rewrite !length_app, length_take, length_drop. lia.
Qed.

Lemma splice_splice {A} (l a b : list A) off :
(off + length a + length b <= length l)%nat ->
splice (splice l off a) (off + length a) b = splice l off (a ++ b).
Proof.
intros H. unfold splice.
assert (Hx : length (take off l) = off) by (rewrite length_take; lia).
set (X := take off l) in *. set (R := drop (off + length a) l).
assert (Ht : take (off + length a) (X ++ a ++ R) = X ++ a).
{ rewrite app_assoc. apply take_app_length'. rewrite length_app. lia. }
assert (Hd : drop (off + length a + length b) (X ++ a ++ R)
             = drop (off + length (a ++ b)) l).
{ rewrite app_assoc.
  rewrite drop_app_ge by (rewrite length_app; lia).
  rewrite length_app, Hx. subst R. rewrite drop_drop, length_app.
  f_equal. lia. }
rewrite Ht, Hd. by rewrite <- !app_assoc.
Qed.

Lemma splice_all {A} (l new : list A) :
length new = length l -> splice l 0 new = new.
Proof.
intros H. unfold splice. rewrite take_0. cbn [app Nat.add].
rewrite H, drop_all. by rewrite app_nil_r.
Qed.

Lemma splice_nil {A} (l : list A) off : (off <= length l)%nat -> splice l off [] = l.
Proof.
intros H. unfold splice. cbn [app length]. rewrite Nat.add_0_r. apply take_drop.
Qed.

End Splice.


(** ** The flat writer *)

Section FlatWriter.
Local Open Scope nat_scope.

Lemma foldr_len_array1 (k : list (list Z)) :
  foldr (fun u acc => len u + acc) 0 (map array1 k) = length (concat k).
Proof.
  induction k as [|x k IH]; [done|].
  cbn [map foldr concat]. by rewrite length_app, <- IH.
Qed.

Lemma concat_buf_array1 (k : list (list Z)) : concat (map buf (map array1 k)) = concat k.
Proof. induction k as [|x k IH]; [done|]. cbn [map concat]. by rewrite IH. Qed.

Lemma np_concatenate_flat (ls : list (list Z)) :
  ls <> [] -> np_concatenate (map array1 ls) = Ok (array1 (concat ls)).
Proof.
  destruct ls as [|l ls]; [done|]. intros _. unfold np_concatenate.
  cbn [map shape array1].
  replace (forallb _ (map array1 ls)) with true.
  2:{ symmetry. apply forallb_forall. intros u Hu.
      apply in_map_iff in Hu as (l' & <- & _). reflexivity. }
  change (array1 l :: map array1 ls) with (map array1 (l :: ls)).
  change (buf (array1 l) :: map buf (map array1 ls))
    with (map buf (map array1 (l :: ls))).
  by rewrite foldr_len_array1, concat_buf_array1.
Qed.

Lemma mapM_Some_id {B} (l : list B) : mapM (fun x => Some x) l = Some l.
Proof. apply mapM_Some_2. induction l; constructor; auto. Qed.

Lemma concat_blocks_1 n (l : list Z) : n <= length l -> concat (blocks n 1 l) = take n l.
Proof.
  revert l. induction n as [|n IH]; intros l H; [done|].
  destruct l as [|x l]; [cbn in H; lia|].
  cbn [blocks concat]. rewrite IH by (rewrite length_drop; cbn [length] in *; lia).
  done.
Qed.

Lemma broadcast_to_same_1d (b : list Z) : broadcast_to [length b] [length b] b = Some b.
Proof.
  unfold broadcast_to. cbn [length Nat.sub strip_ones Nat.ltb Nat.leb replicate app].
  cbn [broadcast_same_rank]. rewrite Nat.eqb_refl. cbn [numel foldr].
  rewrite mapM_Some_id. cbn [option_map]. rewrite concat_blocks_1 by done.
  by rewrite take_ge.
Qed.

Lemma clip_bound_nat n i : i <= n -> clip_bound n (Z.of_nat i) = i.
Proof. intros H. rewrite clip_bound_in_range by lia. lia. Qed.

Lemma assign_rows_flat fn (N idx : nat) (b : list Z) c w :
  files (fs w) !! fn = Some c -> idx + length b <= N ->
  assign_rows fn [N] idx (array1 b) w
  = (Ok tt, World (FS (dirs (fs w))
                     (<[ fn := splice c (2 * idx) (encode_u16 b) ]> (files (fs w))))
              (self w)).
Proof.
  intros Hc Hle. unfold assign_rows. cbn [len array1 shape hd buf].
  rewrite <- Nat2Z.inj_add. rewrite !clip_bound_nat by lia.
  replace (idx + length b - idx) with (length b) by lia.
  rewrite broadcast_to_same_1d. unfold fs_update. rewrite Hc.
  cbn [numel foldr]. by rewrite Nat.mul_1_r.
Qed.

Context (env : collaborators) (v : variant) (sp : string) (fn : path).
Hypothesis Hv : v <> ConversationalDataloader.
Hypothesis Hfault : forall k, io_fault env sp k = None.

Lemma write_shards_flat (N : nat) (rows : list (list Z)) ks idx c w :
  files (fs w) !! fn = Some c -> length c = 2 * N ->
  Forall (fun k => shard rows total_batches k <> []) ks ->
  idx + length (tokens_of rows ks) <= N ->
  write_shards env v sp fn [N] (map flat_row rows) ks idx w
  = (Ok tt, World (FS (dirs (fs w))
                     (<[ fn := splice c (2 * idx) (encode_u16 (tokens_of rows ks)) ]>
                        (files (fs w))))
              (self w)).
Proof.
  revert idx c w. induction ks as [|k ks IH]; intros idx c w Hc Hlen Hne Hle.
  - cbn [write_shards tokens_of map concat encode_u16 flat_map].
    rewrite splice_nil by lia. rewrite insert_id by done.
    unfold ret. by destruct w as [[] ?].
  - cbn [write_shards]. rewrite Hfault.
    inversion Hne as [|? ? Hk Hks]; subst.
    assert (Hsh : shard (map flat_row rows) total_batches k
                  = map flat_row (shard rows total_batches k)).
    { unfold shard. by rewrite length_map, skipn_map, firstn_map. }
    rewrite Hsh, map_map.
    assert (Hcat : (match v with
                    | ConversationalDataloader =>
                        np_stack (map (fun x => ids (flat_row x)) (shard rows total_batches k))
                    | _ => np_concatenate
                             (map (fun x => ids (flat_row x)) (shard rows total_batches k))
                    end) = Ok (array1 (concat (shard rows total_batches k)))).
    { change (fun x => ids (flat_row x)) with array1.
      destruct v; try done; by apply np_concatenate_flat. }
    rewrite Hcat, bind_lift_Ok.
    unfold tokens_of in Hle |- *. cbn [map concat] in Hle |- *.
    rewrite length_app in Hle.
    unfold bind at 1. rewrite (assign_rows_flat _ _ _ _ c) by (done || lia).
    cbn [len array1 shape hd].
    rewrite (IH _ (splice c (2 * idx) (encode_u16 (concat (shard rows total_batches k))))).
    + cbn [fs self dirs files]. rewrite insert_insert_eq.
      do 4 f_equal.
      replace (2 * (idx + length (concat (shard rows total_batches k))))
        with (2 * idx + length (encode_u16 (concat (shard rows total_batches k))))
        by (rewrite encode_u16_length; lia).
      unfold tokens_of.
      rewrite splice_splice by (rewrite !encode_u16_length; lia).
      by rewrite encode_u16_app.
    + cbn [fs files]. by rewrite lookup_insert_eq.
    + rewrite splice_length by (rewrite encode_u16_length; lia). done.
    + done.
    + fold (tokens_of rows ks) in Hle |- *. lia.
Qed.
End FlatWriter.


Lemma dirname_bin_file d sp : dirname (bin_file d sp) = tokenized_data_path d.
Proof.
  unfold dirname, bin_file. rewrite length_app. cbn [length].
  replace (length (tokenized_data_path d) + 1 - 1)%nat
    with (length (tokenized_data_path d)) by lia.
  apply take_app_length.
Qed.

Lemma sum_len_flat rows : sum_len (map flat_row rows) = Ok (length (concat rows)).
Proof.
  unfold sum_len.
  rewrite (rmap_total _ (fun r => length (buf (ids r)))).
  2:{ apply Forall_forall. intros r Hr.
      apply list_elem_of_In, in_map_iff in Hr as (l & <- & _). reflexivity. }
  cbn [rbind]. f_equal. rewrite map_map. cbn [flat_row ids array1 buf].
  induction rows as [|l rows IH]; [done|].
  cbn [map foldr concat]. by rewrite length_app, IH.
Qed.

Lemma tokens_of_all rows : tokens_of rows (seq 0 total_batches) = concat rows.
Proof.
  unfold tokens_of.
  transitivity (concat (concat (map (shard rows total_batches) (seq 0 total_batches)))).
  - generalize (seq 0 total_batches). intros ks.
    induction ks as [|k ks IH]; [done|].
    cbn [map concat]. by rewrite concat_app, IH.
  - rewrite shard_partition by (unfold total_batches; lia). done.
Qed.

(** Creating the mapping of a fresh flat file of [N > 0] elements. *)
Lemma np_memmap_create fn N fs0 :
  dirname fn ∈ dirs fs0 -> fn ∉ dirs fs0 -> (0 < N)%nat ->
  np_memmap fn mode_wplus (Some [N]) fs0
  = (Ok (NdArray [N] (replicate N 0)),
     FS (dirs fs0) (<[ fn := replicate (2 * N) x00 ]> (files fs0))).
Proof.
  intros Hd Hf HN. unfold np_memmap.
  rewrite (bool_decide_eq_true_2 _ Hd), (bool_decide_eq_false_2 _ Hf).
  cbn [andb negb writable length numel foldr dirs files]. rewrite Nat.mul_1_r.
  replace (0 <? 2 * N)%nat with true by (symmetry; apply Nat.ltb_lt; lia).
  cbn [app]. rewrite Nat.sub_0_r, length_replicate.
  replace (2 * N =? 0)%nat with false by (symmetry; apply Nat.eqb_neq; lia).
  rewrite Nat.ltb_irrefl, insert_insert_eq.
  rewrite take_ge by (rewrite length_replicate; lia).
  by rewrite decode_replicate_zero.
Qed.

(** Claim C5 (as amended).  The flat writer performs no range check on
    token ids, neither at configuration time nor during the write: with at
    least [total_batches] records, at least one token and no I/O failure,
    the write succeeds whatever the ids are, and the element stored for a
    token id [t] is [t mod 2^16].  Ids in [0, 2^16) are therefore stored
    unchanged and larger ids are reduced silently; keeping the vocabulary
    within 16 bits is left to the caller. *)
Theorem writer_keeps_low_16_bits env sp (rows : list (list Z)) w :
  cls (self w) = StandardDataloader \/ cls (self w) = NextTokenMLMDataloader ->
  tokenized_data_path (self w) ∈ dirs (fs w) ->
  bin_file (self w) sp ∉ dirs (fs w) ->
  (forall k, io_fault env sp k = None) ->
  (total_batches <= length rows)%nat ->
  concat rows <> [] ->
  exists w',
    _write_tokenized_data env [(sp, map flat_row rows)] w = (Ok tt, w') /\
    self w' = self w /\ dirs (fs w') = dirs (fs w) /\
    (forall q, q <> bin_file (self w) sp -> files (fs w') !! q = files (fs w) !! q) /\
    exists c, files (fs w') !! bin_file (self w) sp = Some c /\
              decode_u16 c = map (fun t => t mod 65536) (concat rows).
Proof.
  intros Hcls Hdir Hfile Hfault Hmany Hne.
  set (fn := bin_file (self w) sp). set (N := length (concat rows)).
  assert (HN : (0 < N)%nat) by (subst N; destruct (concat rows); [done | cbn; lia]).
  assert (Hv : cls (self w) <> ConversationalDataloader)
    by (destruct Hcls as [-> | ->]; done).
  exists (World (FS (dirs (fs w)) (<[ fn := encode_u16 (concat rows) ]> (files (fs w))))
            (self w)).
  split_and!; [| done | done | |].
  - cbn [_write_tokenized_data]. unfold write_split.
    unfold bind at 1. rewrite bind_get_self.
    assert (Hshape : (match cls (self w) with
                      | ConversationalDataloader =>
                          Ok [length (map flat_row rows); 2%nat; context_window (cfg (self w))]
                      | BytePoolingDataloader =>
                          rbind (sum_len (map flat_row rows))
                            (fun arr_len => Ok [arr_len; byte_context_window (cfg (self w))])
                      | _ => rbind (sum_len (map flat_row rows)) (fun arr_len => Ok [arr_len])
                      end) = Ok [N]).
    { rewrite sum_len_flat. by destruct Hcls as [-> | ->]. }
    rewrite Hshape, bind_lift_Ok. fold fn.
    unfold bind at 1, memmap.
    rewrite np_memmap_create by (subst fn; rewrite ?dirname_bin_file; done).
    rewrite (write_shards_flat env _ sp fn Hv Hfault N rows _ 0 (replicate (2 * N) x00)).
    + cbn [fs self dirs files ret]. rewrite insert_insert_eq, tokens_of_all.
      rewrite splice_all by (rewrite encode_u16_length, length_replicate; done).
      reflexivity.
    + cbn [fs files]. by rewrite lookup_insert_eq.
    + by rewrite length_replicate.
    + apply Forall_forall. intros k Hk. apply list_elem_of_In, in_seq in Hk.
      apply shard_nonempty; unfold total_batches in *; lia.
    + rewrite tokens_of_all. subst N. lia.
  - intros q Hq. cbn [fs files]. by rewrite lookup_insert_ne.
  - exists (encode_u16 (concat rows)). cbn [fs files].
    rewrite lookup_insert_eq. split; [done|]. apply decode_encode_u16.
Qed.


(** ** First-use layout resolution *)

Lemma np_memmap_r_flat_Ok p fs0 c :
  files fs0 !! p = Some c -> (length c mod 2 = 0)%nat -> c <> [] ->
  np_memmap p mode_r None fs0
  = (Ok (NdArray [(length c / 2)%nat] (decode_u16 c)), fs0).
Proof.
  intros Hc Heven Hne.
  destruct (np_memmap p mode_r None fs0) as [r fs'] eqn:E.
  pose proof (np_memmap_r_frame _ _ _ _ _ E) as ->.
  destruct r as [a|e].
  - apply np_memmap_r_flat in E as (c' & Hc' & _ & _ & ->). congruence.
  - exfalso. revert E. unfold np_memmap. rewrite Hc. cbn [writable andb].
    rewrite (proj2 (Nat.eqb_eq _ _) Heven). cbn [numel foldr]. rewrite Nat.mul_1_r.
    assert (length c <> 0%nat) by (destruct c; [done | cbn; lia]).
    pose proof (Nat.Div0.mul_div_le (length c) 2).
    replace (length c =? 0)%nat with false by (symmetry; apply Nat.eqb_neq; lia).
    replace (length c <? 2 * (length c / 2))%nat with false
      by (symmetry; apply Nat.ltb_ge; lia).
    discriminate.
Qed.

Lemma np_memmap_shape_fits_Ok p m s fs0 c :
  m <> mode_wplus -> files fs0 !! p = Some c -> c <> [] ->
  (2 * numel s <= length c)%nat ->
  np_memmap p m (Some s) fs0
  = (Ok (NdArray s (take (numel s) (decode_u16 c))), fs0).
Proof.
  intros Hm Hc Hne Hfit.
  destruct (np_memmap p m (Some s) fs0) as [r fs'] eqn:E.
  destruct (np_memmap_shape_fits _ _ _ _ _ _ _ Hm Hc Hfit E) as [-> Ha].
  destruct r as [a|e]; [by rewrite (Ha a eq_refl)|].
  exfalso. revert E. unfold np_memmap. rewrite Hc.
  assert (length c <> 0%nat) by (destruct c; [done | cbn; lia]).
  assert (Hlt : (length c <? 2 * numel s)%nat = false) by (apply Nat.ltb_ge; lia).
  assert (H0 : (length c =? 0)%nat = false) by (apply Nat.eqb_neq; lia).
  destruct m; cbn [writable andb]; rewrite ?Hlt, ?H0, ?Hlt; done.
Qed.

(** Claim C3 (as amended).  On first resolution of a split under the
    row-grouped or the paired-turn variant, no divisibility check takes
    place: for a non-empty file of [n] 16-bit elements and a non-zero
    width, resolution succeeds with [row_count = floor (n / row_width)]
    (respectively [pair_count = floor (n / 2 / context_window)]), caches
    that shape, leaves the file untouched and maps the first
    [prod shape <= n] elements; what is left over is ignored. *)
Theorem first_resolution_floors sp w c :
  has_shape_cache (cls (self w)) = true ->
  cached_shape (self w) sp = Ok None ->
  files (fs w) !! bin_file (self w) sp = Some c ->
  (length c mod 2 = 0)%nat -> c <> [] ->
  let n := (length c / 2)%nat in
  let s := match cls (self w) with
           | ConversationalDataloader =>
               [(n / 2 / context_window (cfg (self w)))%nat; 2%nat;
                context_window (cfg (self w))]
           | _ => [(n / byte_context_window (cfg (self w)))%nat;
                   byte_context_window (cfg (self w))]
           end in
  match cls (self w) with
  | ConversationalDataloader => context_window (cfg (self w))
  | _ => byte_context_window (cfg (self w))
  end <> 0%nat ->
  exists w',
    get_data sp w = (Ok (NdArray s (take (numel s) (decode_u16 c))), w') /\
    resolve_shape sp w = (Ok s, w') /\
    fs w' = fs w /\
    cached_shape (self w') sp = Ok (Some s) /\
    (numel s <= n)%nat.
Proof.
  intros Hhas Hcache Hc Heven Hne n s Hwidth.
  unfold cached_shape in Hcache.
  destruct (loading_shapes (self w)) as [tbl|] eqn:Etbl; [|discriminate].
  destruct (tbl !! sp) as [[?|]|] eqn:Esp; try discriminate. clear Hcache.
  assert (Hs : resolved_shape (cls (self w)) (cfg (self w)) n = Ok s).
  { unfold resolved_shape, byte_pooling_shape, conversational_shape. subst s.
    destruct (cls (self w)); try discriminate;
      by rewrite (proj2 (Nat.eqb_neq _ _) Hwidth). }
  pose proof (resolved_shape_fits _ _ _ _ Hs) as Hfit.
  exists (World (fs w)
            (Dataloader (cls (self w)) (cfg (self w)) (tokenized_data_path (self w))
               (masking_pct (self w)) (Some (<[ sp := Some s ]> tbl))
               (split (self w)) (data (self w)))).
  assert (Hset : set_cached_shape sp s w
            = (Ok tt, World (fs w)
                 (Dataloader (cls (self w)) (cfg (self w))
                    (tokenized_data_path (self w)) (masking_pct (self w))
                    (Some (<[ sp := Some s ]> tbl)) (split (self w)) (data (self w))))).
  { unfold set_cached_shape. rewrite bind_get_self, Etbl. reflexivity. }
  assert (Hprobe : memmap (bin_file (self w) sp) mode_r None w
                   = (Ok (NdArray [n] (decode_u16 c)), w)).
  { unfold memmap. rewrite (np_memmap_r_flat_Ok _ _ c) by done. by rewrite world_eta. }
  split_and!.
  - unfold get_data. rewrite bind_get_self. unfold bind at 1. rewrite Hprobe, Hhas.
    unfold cached_shape. rewrite Etbl, Esp, bind_lift_Ok. cbn [len shape hd].
    unfold resolved_shape in Hs.
    destruct (cls (self w)); try discriminate; rewrite Hs, bind_lift_Ok;
      unfold bind at 1; rewrite Hset; unfold memmap; cbn [fs self];
      rewrite (np_memmap_shape_fits_Ok _ _ _ _ c) by done; reflexivity.
  - unfold resolve_shape. rewrite bind_get_self.
    unfold cached_shape. rewrite Etbl, Esp, bind_lift_Ok.
    unfold bind at 1. rewrite Hprobe. cbn [len shape hd].
    fold (resolved_shape (cls (self w)) (cfg (self w)) n).
    rewrite Hs, bind_lift_Ok. unfold bind at 1. by rewrite Hset.
  - done.
  - unfold cached_shape. cbn [self loading_shapes]. by rewrite lookup_insert_eq.
  - subst n. apply Nat.div_le_lower_bound; lia.
Qed.

Lemma first_resolution_floors_witness :
  exists w',
    get_data "train" (demo_world BytePoolingDataloader demo_cfg demo_tokens)
    = (Ok (NdArray [4%nat; 3%nat] (take 12 demo_tokens)), w').
Proof.
  destruct (first_resolution_floors "train"
              (demo_world BytePoolingDataloader demo_cfg demo_tokens)
              (encode_u16 demo_tokens)) as (w' & Hg & _);
    [reflexivity | reflexivity | reflexivity | reflexivity | discriminate
    | vm_compute; discriminate |].
  exists w'. exact Hg.
Defined.

(** A file of 13 elements is resolved to 4 rows of 3 (and to 3 pairs of
    2 + 2) without any error: the element count is silently rounded down. *)
Lemma resolution_truncates_silently :
  fst (get_data "train" (demo_world BytePoolingDataloader demo_cfg demo_tokens))
  = Ok (NdArray [4%nat; 3%nat] [97; 98; 97; 98; 99; 100; 101; 102; 103; 104; 105; 106])
  /\ (length demo_tokens mod 3 = 1)%nat
  /\ fst (get_data "train" (demo_world ConversationalDataloader demo_cfg demo_tokens))
     = Ok (NdArray [3%nat; 2%nat; 2%nat]
             [97; 98; 97; 98; 99; 100; 101; 102; 103; 104; 105; 106])
  /\ (length demo_tokens mod (2 * 2) = 1)%nat.
Proof. split_and!; vm_compute; reflexivity. Qed.



Lemma contiguous_window_shift_witness :
  let w := demo_world StandardDataloader demo_cfg demo_tokens in
  exists c idxs,
    files (fs w) !! bin_file (self w) "train" = Some c /\
    torch_randint demo_rng (Z.of_nat (length (decode_u16 c)) - 2) 2 = Ok idxs /\
    forall (r : nat) (i : Z), idxs !! r = Some i ->
      [99; 100; 106; 107] !! (r * 2 + 1)%nat = decode_u16 c !! (Z.to_nat i + 2)%nat.
Proof.
  intros w.
  destruct (contiguous_window_shift "train" demo_rng w
              (Batch (NdArray [2%nat; 2%nat] [98; 99; 105; 106])
                 (NdArray [2%nat; 2%nat] [99; 100; 106; 107]) None) w)
    as (c & idxs & Hc & Hidx & Hall); [vm_compute; reflexivity|].
  exists c, idxs. split; [exact Hc|]. split; [exact Hidx|].
  intros r i Hi. destruct (Hall r i Hi) as (_ & _ & _ & Hlast).
  exact (proj1 (Hlast 1%nat eq_refl)).
Defined.

(** ** Frame and shape properties of sampling *)

(** Claim C9.  No call on a loader, and in particular no [get_batch] call
    of any variant, changes the file system: after any sequence of
    [get_batch], [set_split], [__getitem__] and [__len__] calls, returning or
    raising, on a freshly constructed loader the disk is what it was. *)
Theorem sampling_never_mutates_file v c d fs0 calls :
  __init__ v c = Ok d ->
  fs (run calls (World fs0 d)) = fs0.
Proof.
  intros Hinit.
  destruct (__init___inv v c d fs0 Hinit) as (Hinv & _ & _).
  by destruct (run_inv calls _ Hinv) as (-> & _).
Qed.

Lemma sampling_never_mutates_file_witness :
  fs (run [Call_get_batch "train" demo_rng; Call_set_split "train";
           Call_getitem 0 demo_rng; Call_get_batch "train" zero_rng]
        (demo_world ConversationalDataloader demo_cfg demo_tokens))
  = disk_with (new_loader ConversationalDataloader demo_cfg) "train" demo_tokens.
Proof.
  apply (sampling_never_mutates_file ConversationalDataloader demo_cfg). reflexivity.
Defined.

(** Claim C4 (as amended).  In every batch that [get_batch] returns, [X]
    and [y] have the same shape and their leading dimension is the
    configured batch size.  For the standard, the conversational and the
    masked variant the shape is [(batch_size, context_window)]; for the
    byte-pooling variant it is
    [(batch_size, context_window, byte_context_window)], so there the
    context window is the middle dimension and the trailing one is the
    byte context window. *)
Theorem batch_shape_invariant v c d fs0 calls sp g b w' :
  __init__ v c = Ok d ->
  get_batch sp g (run calls (World fs0 d)) = (Ok b, w') ->
  shape (bX b) = batch_shape v c /\ shape (bY b) = batch_shape v c /\
  hd_error (shape (bX b)) = Some (batch_size c) /\
  batch_shape v c = match v with
                    | BytePoolingDataloader =>
                        [batch_size c; context_window c; byte_context_window c]
                    | _ => [batch_size c; context_window c]
                    end.
Proof.
  intros Hinit H.
  destruct (__init___inv v c d fs0 Hinit) as (Hinv & Hv & Hc).
  destruct (run_inv calls _ Hinv) as (_ & [Hcache _] & Hcls & Hcfg).
  cbn [self] in Hcls, Hcfg.
  apply (get_batch_spec _ _ _ _ _ Hcache) in H as (_ & _ & _ & Hb).
  destruct (Hb b eq_refl) as (HX & HY & _).
  rewrite Hcls, Hcfg, Hv, Hc in HX, HY.
  split_and!; [done | done | | done].
  rewrite HX. by destruct v.
Qed.

Lemma batch_shape_invariant_witness :
  let b := Batch (NdArray [2%nat; 2%nat; 3%nat]
                    [98; 99; 100; 101; 102; 103; 97; 98; 97; 98; 99; 100])
                 (NdArray [2%nat; 2%nat; 3%nat]
                    [101; 102; 103; 104; 105; 106; 98; 99; 100; 101; 102; 103])
                 None in
  fst (get_batch "train" demo_rng (demo_world BytePoolingDataloader demo_cfg demo_tokens))
  = Ok b /\
  shape (bX b) = batch_shape BytePoolingDataloader demo_cfg /\
  shape (bY b) = batch_shape BytePoolingDataloader demo_cfg.
Proof.
  intros b. split; [vm_compute; reflexivity|].
  destruct (batch_shape_invariant BytePoolingDataloader demo_cfg
              (new_loader BytePoolingDataloader demo_cfg)
              (disk_with (new_loader BytePoolingDataloader demo_cfg) "train" demo_tokens)
              [] "train" demo_rng b
              (snd (get_batch "train" demo_rng
                      (demo_world BytePoolingDataloader demo_cfg demo_tokens))))
    as (HX & HY & _); [reflexivity | vm_compute; reflexivity |].
  split; [exact HX | exact HY].
Defined.

(** The byte-pooling sampler returns three-dimensional tensors whose
    trailing dimension is the byte context window (3), not the context
    window (2). *)
Lemma byte_pooling_trailing_dimension :
  exists b,
    fst (get_batch "train" demo_rng
           (demo_world BytePoolingDataloader demo_cfg demo_tokens)) = Ok b /\
    shape (bX b) = [2%nat; 2%nat; 3%nat] /\
    shape (bY b) = [2%nat; 2%nat; 3%nat] /\
    last (shape (bX b)) <> Some (context_window demo_cfg).
Proof.
  eexists. split; [vm_compute; reflexivity|]. by split_and!.
Qed.

(** Claim C10.  Every value in the tensors [X] and [y] that [get_batch] or
    [__getitem__] of any variant returns is an integer in [0, 2^16): the
    values are read from unsigned 16-bit storage, and the masked variant
    overwrites with 0. *)
Theorem returned_tokens_fit_16_bits v c d fs0 calls b w' :
  __init__ v c = Ok d ->
  (exists sp g, get_batch sp g (run calls (World fs0 d)) = (Ok b, w')) \/
  (exists idx g, __getitem__ idx g (run calls (World fs0 d)) = (Ok b, w')) ->
  Forall u16 (buf (bX b)) /\ Forall u16 (buf (bY b)).
Proof.
  intros Hinit H.
  destruct (__init___inv v c d fs0 Hinit) as (Hinv & _ & _).
  destruct (run_inv calls _ Hinv) as (_ & [Hcache Hdata] & _).
  destruct H as [(sp & g & H) | (idx & g & H)].
  - apply (get_batch_spec _ _ _ _ _ Hcache) in H as (_ & _ & _ & Hb).
    by destruct (Hb b eq_refl) as (_ & _ & HX & HY).
  - apply (__getitem___spec _ _ _ _ _ Hdata) in H as [_ Hb]. by apply Hb.
Qed.

Lemma returned_tokens_fit_16_bits_witness :
  Forall u16 [0; 0] /\ Forall u16 [99; 100].
Proof.
  apply (returned_tokens_fit_16_bits NextTokenMLMDataloader half_mask_cfg
           (new_loader NextTokenMLMDataloader half_mask_cfg)
           (disk_with (new_loader NextTokenMLMDataloader half_mask_cfg) "train" demo_tokens)
           [Call_set_split "train"]
           (Batch (NdArray [2%nat] [0; 0]) (NdArray [2%nat] [99; 100])
              (Some [true; true]))
           (run [Call_set_split "train"]
              (demo_world NextTokenMLMDataloader half_mask_cfg demo_tokens))).
  - reflexivity.
  - right. exists 3, demo_rng. vm_compute. reflexivity.
Defined.

(** ** Preprocessing: the writer only touches files *)

Lemma np_memmap_dirs p m shp fs0 r fs' :
  np_memmap p m shp fs0 = (r, fs') -> dirs fs' = dirs fs0.
Proof.
  unfold np_memmap. intros H.
  repeat (case_match; simplify_eq; cbn [dirs] in *; try done).
Qed.

Lemma memmap_dirs p m shp w r w' :
  memmap p m shp w = (r, w') -> dirs (fs w') = dirs (fs w) /\ self w' = self w.
Proof.
  intros H. apply memmap_inv in H as (fs' & H & ->).
  apply np_memmap_dirs in H. by split.
Qed.

Lemma assign_rows_dirs fn arr_shape idx arr_batch w r w' :
  assign_rows fn arr_shape idx arr_batch w = (r, w') ->
  dirs (fs w') = dirs (fs w) /\ self w' = self w.
Proof.
  unfold assign_rows, fs_update, raise. intros H.
  repeat (case_match; simplify_eq; cbn [dirs fs self] in *; try done).
Qed.

Lemma write_shards_dirs env v sp fn arr_shape dset ks idx w r w' :
  write_shards env v sp fn arr_shape dset ks idx w = (r, w') ->
  dirs (fs w') = dirs (fs w) /\ self w' = self w.
Proof.
  revert idx w. induction ks as [|k ks IH]; intros idx w H; cbn [write_shards] in H.
  - by injection H as <- <-.
  - destruct (io_fault env sp k); [by injection H as <- <-|].
    apply bind_any in H as [(arr_batch & w1 & Hl & H) | (e & Hl & ->)];
      apply lift_inv in Hl as [_ ->]; [|done].
    apply bind_any in H as [(u & w2 & Ha & H) | (e & Ha & ->)];
      apply assign_rows_dirs in Ha as [Hd Hs]; [|done].
    apply IH in H as [Hd' Hs']. split; congruence.
Qed.

Lemma write_split_dirs env sp dset w r w' :
  write_split env sp dset w = (r, w') ->
  dirs (fs w') = dirs (fs w) /\ self w' = self w.
Proof.
  unfold write_split. rewrite bind_get_self. intros H.
  apply bind_any in H as [(arr_shape & w1 & Hl & H) | (e & Hl & ->)];
    apply lift_inv in Hl as [_ ->]; [|done].
  apply bind_any in H as [(a & w2 & Hm & H) | (e & Hm & ->)];
    apply memmap_dirs in Hm as [Hd Hs]; [|done].
  apply write_shards_dirs in H as [Hd' Hs']. split; congruence.
Qed.

Lemma _write_tokenized_data_dirs env tokenized w r w' :
  _write_tokenized_data env tokenized w = (r, w') ->
  dirs (fs w') = dirs (fs w) /\ self w' = self w.
Proof.
  revert w. induction tokenized as [|[sp dset] rest IH]; intros w H;
    cbn [_write_tokenized_data] in H.
  - by injection H as <- <-.
  - apply bind_any in H as [(u & w1 & Hw & H) | (e & Hw & ->)];
      apply write_split_dirs in Hw as [Hd Hs]; [|done].
    apply IH in H as [Hd' Hs']. split; congruence.
Qed.

Lemma prefixes_last (p : path) : p <> [] -> p ∈ prefixes p.
Proof.
  intros Hne. unfold prefixes. apply list_elem_of_In, in_map_iff.
  exists (length p). split; [apply take_ge; lia|].
  apply in_seq. destruct p; [done | cbn; lia].
Qed.

(** A run of [prepare_data] that returns leaves the destination directory
    on disk. *)
Lemma prepare_data_Ok_exists env w w' :
  prepare_data env w = (Ok tt, w') ->
  os_path_exists (fs w') (tokenized_data_path (self w')) = true.
Proof.
  unfold prepare_data. rewrite bind_get_self. unfold bind at 1.
  destruct (os_path_exists (fs w) (tokenized_data_path (self w))) eqn:Hex; cbn [negb].
  { by intros [= <-]. }
  intros H.
  apply bind_Ok in H as (u & w1 & Hmk & H).
  unfold fs_update, os_makedirs in Hmk. rewrite Hex in Hmk.
  case_bool_decide as Hnil; [discriminate|].
  destruct (existsb _ _); [discriminate|]. injection Hmk as _ <-.
  apply bind_Ok in H as (ds & w2 & Hl & H). apply lift_inv in Hl as [_ ->].
  unfold try_except_RuntimeError in H.
  match type of H with
  | match ?body ?w0 with _ => _ end = _ => destruct (body w0) as [[u'|e] w3] eqn:Hbody
  end.
  - injection H as _ <-.
    apply bind_Ok in Hbody as (tk & w4 & Hl & Hbody). apply lift_inv in Hl as [_ ->].
    apply _write_tokenized_data_dirs in Hbody as [Hd Hs]. cbn [fs self dirs] in Hd, Hs.
    unfold os_path_exists. rewrite Hs, Hd.
    rewrite bool_decide_eq_true_2; [done|].
    apply elem_of_union_r, elem_of_list_to_set, prefixes_last. done.
  - destruct (is_RuntimeError e); [|discriminate].
    unfold bind, fs_update, raise in H. by repeat case_match.
Qed.

(** Idempotent preprocessing: after a run that returned, a second run,
    with whatever collaborators, is skipped and changes nothing on disk. *)
Corollary second_run_is_skipped env env' w w' :
  prepare_data env w = (Ok tt, w') -> prepare_data env' w' = (Ok tt, w').
Proof.
  intros H. apply prepare_data_Ok_exists in H.
  unfold prepare_data. rewrite bind_get_self. unfold bind. by rewrite H.
Qed.

(** Claim C8.  When the destination directory exists, [prepare_data]
    returns at once: nothing is loaded, tokenized or written, whatever the
    collaborators would do, and the disk (so every existing token file)
    and the loader are exactly as before. *)
Theorem prepare_data_skips_existing env w :
  os_path_exists (fs w) (tokenized_data_path (self w)) = true ->
  prepare_data env w = (Ok tt, w).
Proof.
  intros H. unfold prepare_data. rewrite bind_get_self.
  unfold bind. rewrite H. reflexivity.
Qed.

Lemma prepare_data_skips_existing_witness :
  prepare_data failing_tokenizer (demo_world StandardDataloader demo_cfg demo_tokens)
  = (Ok tt, demo_world StandardDataloader demo_cfg demo_tokens).
Proof.
  apply prepare_data_skips_existing. reflexivity.
Defined.


(** ** Masking *)

Lemma masked_fill0_lookup X mask k :
  (k < length (buf X))%nat -> length mask = length (buf X) ->
  (mask !! k = Some true -> buf (masked_fill0 X mask) !! k = Some 0) /\
  (mask !! k = Some false -> buf (masked_fill0 X mask) !! k = buf X !! k).
Proof.
  intros Hk Hlen. cbn [masked_fill0 buf]. rewrite lookup_zip_with.
  destruct (lookup_lt_is_Some_2 (buf X) k Hk) as [v Hv]. rewrite Hv.
  split; intros ->; reflexivity.
Qed.

(** What the masked sampler does with the fraction [p] it works with:
    [(X, y)] are contiguous windows, the mask marks exactly the positions
    whose uniform draw is below [p], the marked positions of the returned
    [X] hold 0, the others are untouched, and the result is
    [(X, (y, mask))]. *)
Lemma get_batch_mlm_masks sp p_arg g w b w' :
  get_batch_mlm sp p_arg g w = (Ok b, w') ->
  let p := match p_arg with Some q => q | None => (3 # 20)%Q end in
  exists X0 y0 c,
    files (fs w) !! bin_file (self w) sp = Some c /\
    sample_windows g (NdArray [(length c / 2)%nat] (decode_u16 c))
      (context_window (cfg (self w))) (batch_size (cfg (self w))) = Ok (X0, y0) /\
    b = Batch (masked_fill0 X0 (rand_mask g (shape X0) p)) y0
          (Some (rand_mask g (shape X0) p)) /\
    (forall k, (k < numel (shape X0))%nat ->
       rand_mask g (shape X0) p !! k = Some (Qltb (rand_src g k) p)) /\
    (forall k, (k < length (buf X0))%nat -> length (buf X0) = numel (shape X0) ->
       (rand_mask g (shape X0) p !! k = Some true -> buf (bX b) !! k = Some 0) /\
       (rand_mask g (shape X0) p !! k = Some false -> buf (bX b) !! k = buf X0 !! k)).
Proof.
  unfold get_batch_mlm. rewrite bind_get_self. intros H. cbv zeta.
  apply bind_Ok in H as (a & w2 & Hm & H).
  apply memmap_inv in Hm as (fs' & Hm & ->).
  pose proof (np_memmap_r_frame _ _ _ _ _ Hm) as ->. rewrite world_eta in H.
  apply np_memmap_r_flat in Hm as (c & Hc & _ & _ & ->).
  destruct (sample_windows g _ _ _) as [[X0 y0]|e] eqn:Es.
  2:{ rewrite bind_lift_Raise in H. discriminate. }
  rewrite bind_lift_Ok in H. injection H as <- <-.
  exists X0, y0, c. cbn [fst snd]. split_and!; [done..| |].
  - intros k Hk. unfold rand_mask.
    rewrite list_lookup_fmap, lookup_seq_lt by done. reflexivity.
  - intros k Hk Hlen. cbn [bX].
    apply masked_fill0_lookup; [done|]. by rewrite rand_mask_length.
Qed.


(** Claim C6 (violated by the code).  [NextTokenMLMDataloader.get_batch]
    does not mask with the configured fraction: it compares the uniform
    draws with its own keyword argument, whose default is 0.15, and never
    reads [self.masking_pct].  With a configured fraction of 0.5 and draws
    of 0.3, [get_batch] masks nothing, while [__getitem__] of the same
    loader, which does read [self.masking_pct], masks every position. *)
Theorem get_batch_ignores_configured_fraction :
  let w := demo_world NextTokenMLMDataloader half_mask_cfg demo_tokens in
  masking_pct (self w) = Some (1 # 2)%Q /\
  Qltb (3 # 10) (1 # 2) = true /\
  fst (get_batch "train" demo_rng w)
  = Ok (Batch (NdArray [2%nat; 2%nat] [98; 99; 105; 106])
          (NdArray [2%nat; 2%nat] [99; 100; 106; 107])
          (Some [false; false; false; false])) /\
  fst (__getitem__ 3 demo_rng (snd (set_split "train" w)))
  = Ok (Batch (NdArray [2%nat] [0; 0]) (NdArray [2%nat] [99; 100])
          (Some [true; true])).
Proof. cbv zeta. split_and!; vm_compute; reflexivity. Qed.

(** ** Index access against batch access *)

(** The index accessor of the conversational class never returns. *)
Lemma getitem_conversational_never_returns idx g w :
  cls (self w) = ConversationalDataloader ->
  is_Ok (fst (__getitem__ idx g w)) = false.
Proof.
  intros Hcls. unfold __getitem__. rewrite bind_get_self, Hcls.
  unfold getitem_conversational, bind.
  destruct (self_data w) as [[a|e] w1]; [|done].
  by destruct (index0 a idx).
Qed.

(** For the standard class the two access modes agree: after
    [set_split], index [idx] yields the window of the flat file that starts
    at [idx] and the window one position later, which is the row that
    [get_batch] builds for a drawn offset [idx] (see [get_batch_base_Ok]). *)
Lemma getitem_standard_window sp idx g w0 w c :
  cls (self w0) = StandardDataloader ->
  files (fs w0) !! bin_file (self w0) sp = Some c ->
  set_split sp w0 = (Ok tt, w) ->
  0 <= idx < Z.of_nat (length (decode_u16 c)) - Z.of_nat (context_window (cfg (self w0))) ->
  __getitem__ idx g w
  = (Ok (Batch
           (NdArray [context_window (cfg (self w0))]
              (take (context_window (cfg (self w0))) (drop (Z.to_nat idx) (decode_u16 c))))
           (NdArray [context_window (cfg (self w0))]
              (take (context_window (cfg (self w0)))
                 (drop (Z.to_nat (idx + 1)) (decode_u16 c))))
           None), w).
Proof.
  intros Hcls Hc Hset Hidx.
  unfold set_split in Hset. rewrite bind_get_self in Hset.
  unfold bind at 1, put_self in Hset. cbn [fs self] in Hset.
  apply bind_Ok in Hset as (a & w2 & Hg & Hset).
  unfold get_data in Hg. rewrite bind_get_self in Hg. cbn [self cls] in Hg.
  apply bind_Ok in Hg as (flat & w3 & Hm & Hg).
  apply memmap_inv in Hm as (fs' & Hm & ->). cbn [fs self] in *.
  pose proof (np_memmap_r_frame _ _ _ _ _ Hm) as ->.
  unfold bin_file in Hm, Hc. cbn [tokenized_data_path] in Hm.
  apply np_memmap_r_flat in Hm as (c' & Hc' & Heven & _ & ->).
  assert (c' = c) as -> by congruence.
  rewrite Hcls in Hg. cbn [has_shape_cache] in Hg. injection Hg as <- <-.
  rewrite bind_get_self in Hset. injection Hset as <-.
  unfold __getitem__. rewrite bind_get_self. cbn [self cls].
  change ((Nat.divmod (length c) 1 0 1).1) with (length c / 2)%nat.
  unfold getitem_base. rewrite bind_get_self.
  unfold bind at 1, self_data. rewrite bind_get_self. cbn [self data cfg ret].
  rewrite decode_u16_length in Hidx.
  rewrite !slice0_in_range by lia.
  rewrite !bind_lift_Ok. cbn [numel foldr ret]. by rewrite !Nat.mul_1_r.
Qed.

(** Claim C7 (violated by the code).  For the conversational variant the
    index accessor does not return the pair of the batch path: it passes a
    tensor to [torch.stack], which takes a sequence of tensors, and raises
    [TypeError], while [get_batch] on drawn index 0 returns the stored
    prompt and response. *)
Theorem conversational_index_access_fails :
  let w0 := demo_world ConversationalDataloader demo_cfg conv_tokens in
  let w := snd (set_split "train" w0) in
  fst (set_split "train" w0) = Ok tt /\
  fst (__len__ w) = Ok 2 /\
  fst (get_batch "train" zero_rng w)
  = Ok (Batch (NdArray [2%nat; 2%nat] [1; 2; 1; 2])
          (NdArray [2%nat; 2%nat] [3; 4; 3; 4]) None) /\
  fst (__getitem__ 0 zero_rng w) = Raise TypeError /\
  fst (__getitem__ 1 zero_rng w) = Raise TypeError.
Proof. cbv zeta. split_and!; vm_compute; reflexivity. Qed.

(** A second divergence, for the byte-pooling class: once [get_batch] has
    cached the shape of a split, [get_data] hands [set_split] the flat
    mapping, so index access cuts windows of single tokens where the batch
    path cuts windows of rows. *)
Example byte_pooling_index_access_after_batch :
  let w0 := demo_world BytePoolingDataloader demo_cfg demo_tokens in
  let w := snd (set_split "train" (snd (get_batch "train" zero_rng w0))) in
  fst (get_batch "train" zero_rng w)
  = Ok (Batch (NdArray [2%nat; 2%nat; 3%nat]
                 [97; 98; 97; 98; 99; 100; 97; 98; 97; 98; 99; 100])
          (NdArray [2%nat; 2%nat; 3%nat]
             [98; 99; 100; 101; 102; 103; 98; 99; 100; 101; 102; 103]) None) /\
  fst (__getitem__ 0 zero_rng w)
  = Ok (Batch (NdArray [2%nat] [97; 98]) (NdArray [2%nat] [98; 97]) None).
Proof. cbv zeta. split; vm_compute; reflexivity. Qed.


Lemma writer_keeps_low_16_bits_witness :
  let w := World (FS (list_to_set (prefixes ["data"; "openhermes-2.5"; "gpt2-100000"]%string)) ∅)
             (new_loader StandardDataloader wide_cfg) in
  exists w',
    _write_tokenized_data wide_env [("train"%string, map flat_row (replicate 1024 [70000]))] w
    = (Ok tt, w') /\
    exists c, files (fs w') !! bin_file (self w) "train" = Some c /\
              decode_u16 c = map (fun t => t mod 65536) (concat (replicate 1024 [70000])).
Proof.
  intros w.
  destruct (writer_keeps_low_16_bits wide_env "train" (replicate 1024 [70000]) w)
    as (w' & Hrun & _ & _ & _ & Hfile).
  - left. reflexivity.
  - vm_compute. reflexivity.
  - vm_compute. discriminate.
  - intros k. reflexivity.
  - rewrite length_replicate. unfold total_batches. lia.
  - discriminate.
  - exists w'. split; [exact Hrun | exact Hfile].
Defined.

(** A vocabulary of 100000 entries is accepted by the constructor, and a
    record whose token id is 70000 is written without any error: the file
    then holds 70000 - 65536 = 4464. *)
Lemma oversized_token_is_wrapped :
  let d := new_loader StandardDataloader wide_cfg in
  let run := prepare_data wide_env (World empty_disk d) in
  is_Ok (__init__ StandardDataloader wide_cfg) = true /\
  fst run = Ok tt /\
  option_map decode_u16 (files (fs (snd run)) !! bin_file d "train")
  = Some (replicate 1024 4464).
Proof. cbv zeta. repeat apply conj; vm_compute; reflexivity. Qed.

(** Claim C1 (violated by the code).  A failed run can leave the
    destination directory behind.  (1) A [RuntimeError] raised while the
    last shard is written reaches the handler, but [os.removedirs] cannot
    remove a directory that holds the partly written [train.bin]: the
    handler itself fails with [OSError] and directory and partial file
    stay.  (2) A failing disk ([OSError]) and (3) a tokenizer exception
    other than [RuntimeError] are not caught at all.  (4) An exception of
    [load_data] is raised outside the [try] block.  In each case the next
    run finds the directory and skips preprocessing. *)
Theorem failed_run_leaves_directory :
  let d := new_loader StandardDataloader demo_cfg in
  let w0 := World empty_disk d in
  let after env := snd (prepare_data env w0) in
  let stored w := option_map decode_u16 (files (fs w) !! bin_file d "train") in
  (fst (prepare_data failing_last_shard w0) = Raise OSError /\
   os_path_exists (fs (after failing_last_shard)) (tokenized_data_path d) = true /\
   stored (after failing_last_shard) = Some (replicate 1023 97 ++ [0]) /\
   fst (check_processed (after failing_last_shard)) = Ok true /\
   fst (prepare_data healthy_env (after failing_last_shard)) = Ok tt /\
   stored (snd (prepare_data healthy_env (after failing_last_shard)))
   = Some (replicate 1023 97 ++ [0])) /\
  (fst (prepare_data failing_disk w0) = Raise OSError /\
   os_path_exists (fs (after failing_disk)) (tokenized_data_path d) = true /\
   stored (after failing_disk) = Some (replicate 1024 0) /\
   fst (prepare_data healthy_env (after failing_disk)) = Ok tt /\
   stored (snd (prepare_data healthy_env (after failing_disk)))
   = Some (replicate 1024 0)) /\
  (fst (prepare_data failing_tokenizer w0) = Raise ValueError /\
   os_path_exists (fs (after failing_tokenizer)) (tokenized_data_path d) = true /\
   fst (prepare_data healthy_env (after failing_tokenizer)) = Ok tt /\
   stored (snd (prepare_data healthy_env (after failing_tokenizer))) = None) /\
  (fst (prepare_data failing_load w0) = Raise RuntimeError /\
   os_path_exists (fs (after failing_load)) (tokenized_data_path d) = true /\
   fst (prepare_data healthy_env (after failing_load)) = Ok tt /\
   stored (snd (prepare_data healthy_env (after failing_load))) = None).
Proof.
  cbv zeta. repeat apply conj; vm_compute; reflexivity.
Qed.

(** What the handler does achieve: a [RuntimeError] raised by the
    tokenizer, before any file exists, removes the fresh directory (and
    its empty parents) and ends the run with [SystemExit]. *)
Example tokenizer_RuntimeError_cleans_up :
  prepare_data crashing_tokenizer
    (World empty_disk (new_loader StandardDataloader demo_cfg))
  = (Raise SystemExit, World empty_disk (new_loader StandardDataloader demo_cfg)).
Proof. vm_compute. reflexivity. Qed.

(** A healthy run on 1024 records writes the whole split. *)
Example healthy_run_writes_split :
  let d := new_loader StandardDataloader demo_cfg in
  let run := prepare_data healthy_env (World empty_disk d) in
  fst run = Ok tt /\
  option_map decode_u16 (files (fs (snd run)) !! bin_file d "train")
  = Some (replicate 1024 97).
Proof. cbv zeta. split; vm_compute; reflexivity. Qed.


(** * Further properties *)


(** ** Index access at the end of the data *)

Lemma clip_bound_nonneg n i : 0 <= i -> clip_bound n i = Nat.min (Z.to_nat i) n.
Proof.
  intros H. unfold clip_bound.
  destruct (i <? 0) eqn:E; [apply Z.ltb_lt in E; lia|]. lia.
Qed.




Lemma np_memmap_missing p m shp fs0 :
  m <> mode_wplus -> files fs0 !! p = None ->
  np_memmap p m shp fs0 = (Raise FileNotFoundError, fs0).
Proof.
  intros Hm Hp. unfold np_memmap. rewrite Hp. by destruct m, shp.
Qed.

(** Property X3.  [get_batch] of every class on a split whose file is
    missing (and, for the classes with a shape cache, not yet resolved)
    raises [FileNotFoundError] and leaves the disk and the loader as they
    were. *)
Theorem get_batch_missing_file sp g w :
  files (fs w) !! bin_file (self w) sp = None ->
  (has_shape_cache (cls (self w)) = true -> cached_shape (self w) sp = Ok None) ->
  get_batch sp g w = (Raise FileNotFoundError, w).
Proof.
  intros Hf Hc.
  assert (Hprobe : forall m shp, m <> mode_wplus ->
            memmap (bin_file (self w) sp) m shp w = (Raise FileNotFoundError, w)).
  { intros m shp Hm. unfold memmap. rewrite np_memmap_missing by done.
    by rewrite world_eta. }
  assert (Hres : has_shape_cache (cls (self w)) = true ->
            resolve_shape sp w = (Raise FileNotFoundError, w)).
  { intros Hh. unfold resolve_shape. rewrite bind_get_self, (Hc Hh), bind_lift_Ok.
    unfold bind at 1. by rewrite Hprobe. }
  unfold get_batch. rewrite bind_get_self.
  destruct (cls (self w)) eqn:Ecls; cbn [has_shape_cache] in Hres.
  - unfold get_batch_base. rewrite bind_get_self. unfold bind at 1. by rewrite Hprobe.
  - unfold get_batch_byte_pooling, bind at 1. by rewrite Hres.
  - unfold get_batch_conversational, bind at 1. by rewrite Hres.
  - unfold get_batch_mlm. rewrite bind_get_self. unfold bind at 1. by rewrite Hprobe.
Qed.

Lemma get_batch_missing_file_witness :
  get_batch "val" demo_rng (demo_world ConversationalDataloader demo_cfg demo_tokens)
  = (Raise FileNotFoundError, demo_world ConversationalDataloader demo_cfg demo_tokens).
Proof.
  apply get_batch_missing_file; [reflexivity | intros _; reflexivity].
Defined.

(** ** First and later calls of [get_data] *)

Lemma get_data_resolves sp w c :
  has_shape_cache (cls (self w)) = true ->
  cached_shape (self w) sp = Ok None ->
  files (fs w) !! bin_file (self w) sp = Some c ->
  (length c mod 2 = 0)%nat -> c <> [] ->
  match cls (self w) with
  | ConversationalDataloader => context_window (cfg (self w))
  | _ => byte_context_window (cfg (self w))
  end <> 0%nat ->
  let s := match cls (self w) with
           | ConversationalDataloader =>
               [(length c / 2 / 2 / context_window (cfg (self w)))%nat; 2%nat;
                context_window (cfg (self w))]
           | _ => [(length c / 2 / byte_context_window (cfg (self w)))%nat;
                   byte_context_window (cfg (self w))]
           end in
  exists tbl,
    loading_shapes (self w) = Some tbl /\
    get_data sp w
    = (Ok (NdArray s (take (numel s) (decode_u16 c))),
       World (fs w)
         (Dataloader (cls (self w)) (cfg (self w)) (tokenized_data_path (self w))
            (masking_pct (self w)) (Some (<[ sp := Some s ]> tbl))
            (split (self w)) (data (self w)))).
Proof.
  intros Hhas Hcache Hc Heven Hne Hwidth s.
  set (n := (length c / 2)%nat) in *.
  unfold cached_shape in Hcache.
  destruct (loading_shapes (self w)) as [tbl|] eqn:Etbl; [|discriminate].
  destruct (tbl !! sp) as [[?|]|] eqn:Esp; try discriminate. clear Hcache.
  assert (Hs : resolved_shape (cls (self w)) (cfg (self w)) n = Ok s).
  { unfold resolved_shape, byte_pooling_shape, conversational_shape. subst s.
    destruct (cls (self w)); try discriminate;
      by rewrite (proj2 (Nat.eqb_neq _ _) Hwidth). }
  pose proof (resolved_shape_fits _ _ _ _ Hs) as Hfit.
  set (w1 := World (fs w)
            (Dataloader (cls (self w)) (cfg (self w)) (tokenized_data_path (self w))
               (masking_pct (self w)) (Some (<[ sp := Some s ]> tbl))
               (split (self w)) (data (self w)))).
  assert (Hset : set_cached_shape sp s w = (Ok tt, w1)).
  { unfold set_cached_shape. rewrite bind_get_self, Etbl. reflexivity. }
  assert (Hprobe : memmap (bin_file (self w) sp) mode_r None w
                   = (Ok (NdArray [n] (decode_u16 c)), w)).
  { unfold memmap. rewrite (np_memmap_r_flat_Ok _ _ c) by done. by rewrite world_eta. }
  exists tbl. split; [done|].
  unfold get_data. rewrite bind_get_self. unfold bind at 1. rewrite Hprobe, Hhas.
  unfold cached_shape. rewrite Etbl, Esp, bind_lift_Ok. cbn [len shape hd].
  unfold resolved_shape in Hs.
  destruct (cls (self w)); try discriminate; rewrite Hs, bind_lift_Ok;
    unfold bind at 1; rewrite Hset; unfold memmap; cbn [fs self];
    rewrite (np_memmap_shape_fits_Ok _ _ _ _ c) by done; reflexivity.
Qed.

(** Property X4.  [get_data] of a class with a shape cache returns the
    shaped mapping only on the call that resolves the shape of the split:
    the next call for the same split returns the flat, one-dimensional
    mapping of the whole file. *)
Theorem get_data_flat_once_cached sp w c :
  has_shape_cache (cls (self w)) = true ->
  cached_shape (self w) sp = Ok None ->
  files (fs w) !! bin_file (self w) sp = Some c ->
  (length c mod 2 = 0)%nat -> c <> [] ->
  match cls (self w) with
  | ConversationalDataloader => context_window (cfg (self w))
  | _ => byte_context_window (cfg (self w))
  end <> 0%nat ->
  exists a1 w1 a2,
    get_data sp w = (Ok a1, w1) /\
    get_data sp w1 = (Ok a2, w1) /\
    fs w1 = fs w /\
    shape a1 = match cls (self w) with
               | ConversationalDataloader =>
                   [(length c / 2 / 2 / context_window (cfg (self w)))%nat; 2%nat;
                    context_window (cfg (self w))]
               | _ => [(length c / 2 / byte_context_window (cfg (self w)))%nat;
                       byte_context_window (cfg (self w))]
               end /\
    a2 = NdArray [(length c / 2)%nat] (decode_u16 c).
Proof.
  intros Hhas Hcache Hc Heven Hne Hwidth.
  destruct (get_data_resolves sp w c Hhas Hcache Hc Heven Hne Hwidth) as (tbl & Htbl & Hg).
  cbv zeta in Hg. eexists _, _, _. split; [exact Hg|].
  split_and!; [| done | done | reflexivity].
  unfold get_data. rewrite bind_get_self. unfold bind at 1, memmap.
  cbn [fs self cls]. unfold bin_file. cbn [tokenized_data_path].
  fold (bin_file (self w) sp).
  rewrite (np_memmap_r_flat_Ok _ _ c) by done. cbn [fs self].
  rewrite Hhas. unfold cached_shape. cbn [loading_shapes].
  rewrite lookup_insert_eq, bind_lift_Ok. reflexivity.
Qed.

Lemma get_data_flat_once_cached_witness :
  exists a1 w1 a2,
    get_data "train" (demo_world BytePoolingDataloader demo_cfg demo_tokens) = (Ok a1, w1) /\
    get_data "train" w1 = (Ok a2, w1) /\
    shape a1 = [4%nat; 3%nat] /\ shape a2 = [13%nat].
Proof.
  destruct (get_data_flat_once_cached "train"
              (demo_world BytePoolingDataloader demo_cfg demo_tokens)
              (encode_u16 demo_tokens))
    as (a1 & w1 & a2 & H1 & H2 & _ & H3 & H4);
    [reflexivity | reflexivity | reflexivity | reflexivity | discriminate
    | vm_compute; discriminate |].
  exists a1, w1, a2. split; [exact H1|]. split; [exact H2|].
  split; [exact H3|]. rewrite H4. reflexivity.
Defined.

(** ** The length of a split *)

(** Property X5.  [set_split] on a freshly constructed loader succeeds
    for an existing, non-empty split file and leaves the disk alone; after
    it [__len__] is the number of tokens minus the context window for the
    standard and the masked class, the number of rows minus the context
    window for the byte-pooling class, and the number of stored pairs for
    the conversational class. *)
Theorem len_after_set_split v c d fs0 sp bytes :
  __init__ v c = Ok d ->
  sp = "train"%string \/ sp = "val"%string ->
  files fs0 !! bin_file d sp = Some bytes ->
  (length bytes mod 2 = 0)%nat -> bytes <> [] ->
  (v = BytePoolingDataloader -> byte_context_window c <> 0%nat) ->
  (v = ConversationalDataloader -> context_window c <> 0%nat) ->
  let n := (length bytes / 2)%nat in
  exists w,
    set_split sp (World fs0 d) = (Ok tt, w) /\ fs w = fs0 /\
    split (self w) = Some sp /\
    __len__ w
    = (Ok match v with
          | ConversationalDataloader => Z.of_nat (n / 2 / context_window c)
          | BytePoolingDataloader =>
              Z.of_nat (n / byte_context_window c) - Z.of_nat (context_window c)
          | _ => Z.of_nat n - Z.of_nat (context_window c)
          end, w).
Proof.
  intros Hinit Hsp Hc Heven Hne Hbcw Hcw n.
  destruct (__init___inv v c d fs0 Hinit) as (_ & Hv & Hcfg).
  set (d1 := Dataloader (cls d) (cfg d) (tokenized_data_path d) (masking_pct d)
               (loading_shapes d) (Some sp) (data d)).
  assert (Hbin : bin_file d1 sp = bin_file d sp) by reflexivity.
  assert (Hstart : set_split sp (World fs0 d)
            = bind (get_data sp)
                (fun a => bind get_self (fun d' =>
                   put_self (Dataloader (cls d') (cfg d') (tokenized_data_path d')
                               (masking_pct d') (loading_shapes d') (split d') (Some a))))
                (World fs0 d1)) by reflexivity.
  assert (Hlen : forall a w0,
            data (self w0) = Some a -> cls (self w0) = v -> cfg (self w0) = c ->
            __len__ w0 = (Ok match v with
                             | ConversationalDataloader => Z.of_nat (len a)
                             | _ => Z.of_nat (len a) - Z.of_nat (context_window c)
                             end, w0)).
  { intros a w0 Ha Hcl Hcf. unfold __len__. rewrite bind_get_self.
    unfold bind, self_data. rewrite bind_get_self, Ha. cbn [ret]. rewrite Hcl, Hcf.
    by destruct v. }
  destruct (has_shape_cache v) eqn:Hhas.
  - assert (Hcache : cached_shape d1 sp = Ok None).
    { revert Hinit. unfold __init__. rewrite Hhas.
      destruct v; try discriminate; try case_bool_decide; intros [= <-];
        unfold cached_shape; cbn [loading_shapes];
        destruct Hsp as [-> | ->]; reflexivity. }
    destruct (get_data_resolves sp (World fs0 d1) bytes) as (tbl & Htbl & Hg).
    + cbn [self cls d1]. by rewrite Hv.
    + done.
    + done.
    + done.
    + done.
    + cbn [self cls cfg d1]. rewrite Hv, Hcfg.
      destruct v; try discriminate; [by apply Hbcw | by apply Hcw].
    + cbv zeta in Hg. cbn [self fs cls cfg d1 tokenized_data_path masking_pct split data] in Hg.
      eexists. rewrite Hstart. unfold bind at 1. rewrite Hg.
      rewrite bind_get_self. cbn [self fs put_self cls cfg tokenized_data_path masking_pct
                                   loading_shapes split].
      split_and!; [reflexivity | reflexivity | reflexivity |].
      erewrite Hlen; [| cbn [self data]; reflexivity | exact Hv | exact Hcfg].
      cbn [len shape hd]. rewrite Hv, Hcfg. fold n.
      destruct v; try discriminate; reflexivity.
  - assert (Hg : get_data sp (World fs0 d1)
                 = (Ok (NdArray [n] (decode_u16 bytes)), World fs0 d1)).
    { unfold get_data. rewrite bind_get_self. unfold bind at 1, memmap.
      cbn [fs self]. rewrite Hbin, (np_memmap_r_flat_Ok _ _ bytes) by done.
      cbn [self cls d1]. rewrite Hv, Hhas. reflexivity. }
    eexists. rewrite Hstart. unfold bind at 1. rewrite Hg.
    rewrite bind_get_self. cbn [self fs put_self d1 cls cfg tokenized_data_path masking_pct
                                 loading_shapes split].
    split_and!; [reflexivity | reflexivity | reflexivity |].
    erewrite Hlen; [| cbn [self data]; reflexivity | exact Hv | exact Hcfg].
    cbn [len shape hd]. destruct v; try discriminate; reflexivity.
Qed.

Lemma len_after_set_split_witness :
  exists w,
    set_split "train" (demo_world ConversationalDataloader demo_cfg demo_tokens) = (Ok tt, w) /\
    __len__ w = (Ok 3, w).
Proof.
  destruct (len_after_set_split ConversationalDataloader demo_cfg
              (new_loader ConversationalDataloader demo_cfg)
              (disk_with (new_loader ConversationalDataloader demo_cfg) "train" demo_tokens)
              "train" (encode_u16 demo_tokens))
    as (w & H1 & _ & _ & H2);
    [reflexivity | by left | reflexivity | reflexivity | discriminate
    | discriminate | vm_compute; discriminate |].
  exists w. split; [exact H1 | exact H2].
Defined.

(** The calls of a run leave the class, the configuration and the
    processed-data path of the loader as the constructor set them. *)
Lemma do_call_path c w :
  loader_inv w ->
  tokenized_data_path (self (do_call c w)) = tokenized_data_path (self w).
Proof.
  intros [Hc Hd]. destruct c as [sp g | sp | idx g |]; cbn [do_call].
  - destruct (get_batch sp g w) as [r w'] eqn:E. cbn [snd].
    apply (get_batch_spec _ _ _ _ _ Hc) in E as (_ & Hfr & _). by destruct Hfr as (_ & _ & ? & _).
  - destruct (set_split sp w) as [r w'] eqn:E. cbn [snd].
    apply set_split_spec in E as (_ & _ & _ & _ & ? & _); [done | by split].
  - destruct (__getitem__ idx g w) as [r w'] eqn:E. cbn [snd].
    by apply (__getitem___spec _ _ _ _ _ Hd) in E as [-> _].
  - destruct (__len__ w) as [r w'] eqn:E. cbn [snd].
    by apply __len___frame in E as ->.
Qed.

Lemma run_path calls w :
  loader_inv w ->
  tokenized_data_path (self (run calls w)) = tokenized_data_path (self w).
Proof.
  revert w. induction calls as [|c calls IH]; intros w Hinv; [done|].
  cbn [run foldl]. destruct (do_call_inv c w Hinv) as (_ & Hinv' & _).
  etrans; [apply (IH _ Hinv')|]. by apply do_call_path.
Qed.

(** What a run preserves, in one statement. *)
Lemma run_reachable v c d fs0 calls :
  __init__ v c = Ok d ->
  let w := run calls (World fs0 d) in
  fs w = fs0 /\ cache_inv w /\ cls (self w) = v /\ cfg (self w) = c /\
  forall sp, bin_file (self w) sp = bin_file d sp.
Proof.
  intros Hinit w.
  destruct (__init___inv v c d fs0 Hinit) as (Hinv & Hv & Hc).
  destruct (run_inv calls _ Hinv) as (Hfs & [Hcache _] & Hcls & Hcfg).
  pose proof (run_path calls _ Hinv) as Hp. subst w. cbn [self fs] in *.
  split_and!; [done | done | congruence | congruence |].
  intros sp. unfold bin_file. by rewrite Hp.
Qed.

(** ** Row windows of the byte-pooling sampler *)

(** Property X6.  Row windows of [BytePoolingDataloader.get_batch]: every
    drawn offset [i] lies in [0, rows - context_window); entry [r] of [X]
    holds the rows [i .. i + cw) of the file seen as a matrix with
    [byte_context_window] columns, and entry [r] of [y] holds the rows
    [i + 1 .. i + 1 + cw), all of which exist. *)
Theorem byte_pooling_rows_shift c0 d fs0 calls sp g b w' :
  __init__ BytePoolingDataloader c0 = Ok d ->
  get_batch sp g (run calls (World fs0 d)) = (Ok b, w') ->
  let cw := context_window c0 in
  let bcw := byte_context_window c0 in
  exists c idxs,
    files fs0 !! bin_file d sp = Some c /\
    let rows := (length c / 2 / bcw)%nat in
    torch_randint g (Z.of_nat rows - Z.of_nat cw) (batch_size c0) = Ok idxs /\
    forall (r : nat) (i : Z), idxs !! r = Some i ->
      0 <= i < Z.of_nat rows - Z.of_nat cw /\
      forall j, (j < cw * bcw)%nat ->
        buf (bX b) !! (r * (cw * bcw) + j)%nat
          = decode_u16 c !! (Z.to_nat i * bcw + j)%nat /\
        buf (bY b) !! (r * (cw * bcw) + j)%nat
          = decode_u16 c !! ((Z.to_nat i + 1) * bcw + j)%nat /\
        is_Some (buf (bY b) !! (r * (cw * bcw) + j)%nat).
Proof.
  intros Hinit H cw bcw.
  destruct (run_reachable _ _ _ fs0 calls Hinit) as (Hfs & Hinv & Hcls & Hcfg & Hbin).
  set (w := run calls (World fs0 d)) in *.
  unfold get_batch in H. rewrite bind_get_self, Hcls in H.
  unfold get_batch_byte_pooling in H.
  apply bind_Ok in H as (s & w1 & Hres & H).
  apply (resolve_shape_spec _ _ _ _ Hinv) in Hres as (Hfs1 & Hfr & Hinv1 & Hs).
  destruct (Hs s eq_refl) as (c & Hc & Heven & Hshape). clear Hs.
  rewrite Hcls, Hcfg in Hshape. cbn [resolved_shape] in Hshape.
  unfold byte_pooling_shape in Hshape. fold bcw in Hshape.
  destruct (bcw =? 0)%nat eqn:Ebcw; [discriminate|]. apply Nat.eqb_neq in Ebcw.
  injection Hshape as <-.
  rewrite bind_get_self in H.
  assert (Hfit : (2 * numel [(length c / 2 / bcw)%nat; bcw] <= length c)%nat).
  { pose proof (byte_pooling_fits (length c / 2) bcw).
    pose proof (Nat.Div0.mul_div_le (length c) 2). lia. }
  assert (Hc1 : files (fs w1) !! bin_file (self w1) sp = Some c).
  { by rewrite Hfs1, (frame_obj_bin_file _ _ sp Hfr). }
  apply bind_Ok in H as (a & w2 & Hm & H).
  apply memmap_inv in Hm as (fs' & Hm & ->).
  destruct (np_memmap_shape_fits _ mode_r _ _ _ _ _ ltac:(done) Hc1 Hfit Hm) as [-> Ha].
  rewrite world_eta in H. specialize (Ha a eq_refl). subst a.
  destruct Hfr as (_ & Hcfg1 & _). rewrite Hcfg1, Hcfg in H. fold cw in H.
  apply bind_Ok in H as ([X y] & w3 & Hsw & H).
  apply lift_inv in Hsw as [Hsw ->]. symmetry in Hsw.
  injection H as <- <-. cbn [bX bY fst snd].
  apply sample_windows_Ok in Hsw as (idxs & Hri & Hn0 & Hlen & Hr & -> & ->).
  exists c, idxs. rewrite <- Hbin, <- Hfs. split; [done|]. cbv zeta.
  split; [done|]. intros r i Hi.
  rewrite Forall_forall in Hr. pose proof (Hr i (list_elem_of_lookup_2 _ _ _ Hi)) as Hir.
  split; [done|]. intros j Hj. cbn [buf numel foldr]. rewrite !Nat.mul_1_r.
  set (rows := (length c / 2 / bcw)%nat) in *.
  set (flat := take (rows * bcw) (decode_u16 c)).
  assert (Hflat : length flat = (rows * bcw)%nat).
  { subst flat. rewrite length_take, decode_u16_length.
    cbn [numel foldr] in Hfit. rewrite Nat.mul_1_r in Hfit. fold rows in Hfit.
    assert (rows * bcw <= length c / 2)%nat by (apply Nat.div_le_lower_bound; lia).
    lia. }
  assert (Hall : forall f : Z -> nat,
            (forall i0, 0 <= i0 < Z.of_nat rows - Z.of_nat cw ->
                        (f i0 + cw * bcw <= rows * bcw)%nat) ->
            Forall (fun j0 => (f j0 + cw * bcw <= length flat)%nat) idxs).
  { intros f Hf. apply Forall_forall. intros i0 Hi0. rewrite Hflat. apply Hf, Hr, Hi0. }
  rewrite (window_row_lookup flat (cw * bcw) (fun i0 => (Z.to_nat i0 * bcw)%nat) idxs r i j Hi)
    by (try done; apply Hall; intros; nia).
  rewrite (window_row_lookup flat (cw * bcw) (fun i0 => (Z.to_nat (i0 + 1) * bcw)%nat) idxs r i j Hi)
    by (try done; apply Hall; intros; nia).
  replace (Z.to_nat (i + 1)) with (Z.to_nat i + 1)%nat by lia.
  assert (Hni : (Z.to_nat i + 1 + cw <= rows)%nat) by lia.
  assert (Hin : ((Z.to_nat i + 1) * bcw + j < rows * bcw)%nat).
  { apply Nat.lt_le_trans with ((Z.to_nat i + 1 + cw) * bcw)%nat; [lia|].
    by apply Nat.mul_le_mono_r. }
  subst flat. rewrite !lookup_take_lt by lia.
  split_and!; [done | done |].
  apply lookup_lt_is_Some_2. rewrite <- Hflat, length_take in Hin. lia.
Qed.

Lemma byte_pooling_rows_shift_witness :
  exists c idxs,
    files (disk_with (new_loader BytePoolingDataloader demo_cfg) "train" demo_tokens)
      !! bin_file (new_loader BytePoolingDataloader demo_cfg) "train" = Some c /\
    torch_randint demo_rng (Z.of_nat (length c / 2 / 3) - 2) 2 = Ok idxs /\
    forall (r : nat) (i : Z), idxs !! r = Some i ->
      [101; 102; 103; 104; 105; 106; 98; 99; 100; 101; 102; 103] !! (r * 6)%nat
      = decode_u16 c !! ((Z.to_nat i + 1) * 3)%nat.
Proof.
  destruct (byte_pooling_rows_shift demo_cfg (new_loader BytePoolingDataloader demo_cfg)
              (disk_with (new_loader BytePoolingDataloader demo_cfg) "train" demo_tokens)
              [] "train" demo_rng
              (Batch (NdArray [2%nat; 2%nat; 3%nat]
                        [98; 99; 100; 101; 102; 103; 97; 98; 97; 98; 99; 100])
                     (NdArray [2%nat; 2%nat; 3%nat]
                        [101; 102; 103; 104; 105; 106; 98; 99; 100; 101; 102; 103])
                     None)
              (snd (get_batch "train" demo_rng
                      (demo_world BytePoolingDataloader demo_cfg demo_tokens))))
    as (c & idxs & Hc & Hr & Hall); [reflexivity | vm_compute; reflexivity |].
  exists c, idxs. split; [exact Hc|]. split; [exact Hr|].
  intros r i Hi. destruct (Hall r i Hi) as (_ & Hj).
  destruct (Hj 0%nat ltac:(vm_compute; lia)) as (_ & Hy & _).
  rewrite !Nat.add_0_r in Hy. exact Hy.
Defined.

(** ** Stored pairs of the conversational sampler *)

Lemma blocks_concat (ls : list (list Z)) w :
  Forall (fun l => length l = w) ls -> blocks (length ls) w (concat ls) = ls.
Proof.
  induction 1 as [|l ls Hl _ IH]; [done|].
  cbn [length blocks concat].
  rewrite take_app_length', drop_app_length' by done. by rewrite IH.
Qed.

Lemma index0_in_range n rest b i :
  0 <= i < Z.of_nat n ->
  index0 (NdArray (n :: rest) b) i
  = Ok (NdArray rest (take (numel rest) (drop (Z.to_nat i * numel rest) b))).
Proof.
  intros Hi. unfold index0. cbn [shape buf].
  destruct (i <? 0) eqn:E; [apply Z.ltb_lt in E; lia|].
  replace ((0 <=? i) && (i <? Z.of_nat n)) with true; [done|].
  symmetry. apply andb_true_iff. split; [apply Z.leb_le | apply Z.ltb_lt]; lia.
Qed.

(** Property X7.  [ConversationalDataloader.get_batch]: every drawn index
    [i] is the index of a stored pair; row [r] of [X] is the first half
    (the question) and row [r] of [y] the second half (the response) of
    the [2 * context_window] tokens of pair [i]. *)
Theorem conversational_batch_pairs c0 d fs0 calls sp g b w' :
  __init__ ConversationalDataloader c0 = Ok d ->
  get_batch sp g (run calls (World fs0 d)) = (Ok b, w') ->
  let cw := context_window c0 in
  exists c ix,
    files fs0 !! bin_file d sp = Some c /\
    let pairs := (length c / 2 / 2 / cw)%nat in
    torch_randint g (Z.of_nat pairs) (batch_size c0) = Ok ix /\
    forall (r : nat) (i : Z), ix !! r = Some i ->
      0 <= i < Z.of_nat pairs /\
      forall k, (k < cw)%nat ->
        buf (bX b) !! (r * cw + k)%nat
          = decode_u16 c !! (Z.to_nat i * (2 * cw) + k)%nat /\
        buf (bY b) !! (r * cw + k)%nat
          = decode_u16 c !! (Z.to_nat i * (2 * cw) + cw + k)%nat /\
        is_Some (buf (bY b) !! (r * cw + k)%nat).
Proof.
  intros Hinit H cw.
  destruct (run_reachable _ _ _ fs0 calls Hinit) as (Hfs & Hinv & Hcls & Hcfg & Hbin).
  set (w := run calls (World fs0 d)) in *.
  unfold get_batch in H. rewrite bind_get_self, Hcls in H.
  unfold get_batch_conversational in H.
  apply bind_Ok in H as (s & w1 & Hres & H).
  apply (resolve_shape_spec _ _ _ _ Hinv) in Hres as (Hfs1 & Hfr & Hinv1 & Hs).
  destruct (Hs s eq_refl) as (c & Hc & Heven & Hshape). clear Hs.
  rewrite Hcls, Hcfg in Hshape. cbn [resolved_shape] in Hshape.
  unfold conversational_shape in Hshape. fold cw in Hshape.
  destruct (cw =? 0)%nat eqn:Ecw; [discriminate|]. apply Nat.eqb_neq in Ecw.
  injection Hshape as <-.
  rewrite bind_get_self in H.
  set (pairs := (length c / 2 / 2 / cw)%nat) in *.
  assert (Hfit : (2 * numel [pairs; 2%nat; cw] <= length c)%nat).
  { pose proof (conversational_fits (length c / 2) cw).
    pose proof (Nat.Div0.mul_div_le (length c) 2). subst pairs. lia. }
  assert (Hc1 : files (fs w1) !! bin_file (self w1) sp = Some c).
  { by rewrite Hfs1, (frame_obj_bin_file _ _ sp Hfr). }
  apply bind_Ok in H as (a & w2 & Hm & H).
  apply memmap_inv in Hm as (fs' & Hm & ->).
  destruct (np_memmap_shape_fits _ mode_rplus _ _ _ _ _ ltac:(done) Hc1 Hfit Hm) as [-> Ha].
  rewrite world_eta in H. specialize (Ha a eq_refl). subst a.
  destruct Hfr as (_ & Hcfg1 & _). rewrite Hcfg1, Hcfg in H.
  cbn [numel foldr] in Hfit. rewrite Nat.mul_1_r in Hfit.
  set (flat := take (numel [pairs; 2%nat; cw]) (decode_u16 c)) in *.
  assert (Hflat : length flat = (pairs * (2 * cw))%nat).
  { subst flat. cbn [numel foldr]. rewrite Nat.mul_1_r, length_take, decode_u16_length.
    assert (pairs * (2 * cw) <= length c / 2)%nat by (apply Nat.div_le_lower_bound; lia).
    lia. }
  apply bind_Ok in H as (ix & w3 & Hix & H).
  apply lift_inv in Hix as [Hix ->]. symmetry in Hix. cbn [len shape hd] in Hix.
  destruct (torch_randint_Ok _ _ _ _ Hix) as (_ & Hlen & Hr).
  apply bind_Ok in H as (a0 & w4 & Ha0 & H).
  apply lift_inv in Ha0 as [_ ->].
  assert (Hrows : rmap (index0 (NdArray [pairs; 2%nat; cw] flat)) ix
            = Ok (map (fun i => NdArray [2%nat; cw]
                                  (take (2 * cw) (drop (Z.to_nat i * (2 * cw)) flat))) ix)).
  { apply rmap_total. eapply Forall_impl; [exact Hr|]. intros i Hi. cbn beta in *.
    rewrite index0_in_range by done. cbn [numel foldr]. by rewrite Nat.mul_1_r. }
  rewrite Hrows, bind_lift_Ok in H.
  destruct (decide (ix = [])) as [->|Hne].
  { exfalso. revert H. unfold bind, lift. cbn. discriminate. }
  assert (Hstack : torch_stack (map (fun i => NdArray [2%nat; cw]
                     (take (2 * cw) (drop (Z.to_nat i * (2 * cw)) flat))) ix)
            = Ok (NdArray [length ix; 2%nat; cw]
                    (concat (map (fun i => take (2 * cw)
                                             (drop (Z.to_nat i * (2 * cw)) flat)) ix)))).
  { unfold torch_stack. rewrite (stack_with_uniform _ _ [2%nat; cw]).
    - by rewrite length_map, map_map.
    - by destruct ix.
    - apply Forall_forall. intros t Ht.
      apply list_elem_of_In, in_map_iff in Ht. by destruct Ht as (i & <- & _). }
  assert (Hblk : Forall (fun l : list Z => length l = (2 * cw)%nat)
            (map (fun i => take (2 * cw) (drop (Z.to_nat i * (2 * cw)) flat)) ix)).
  { apply Forall_forall. intros l Hl.
    apply list_elem_of_In, in_map_iff in Hl as (i & <- & Hi).
    apply list_elem_of_In in Hi. rewrite Forall_forall in Hr. specialize (Hr i Hi).
    rewrite length_take, length_drop, Hflat.
    assert (Z.to_nat i + 1 <= pairs)%nat by lia.
    assert ((Z.to_nat i + 1) * (2 * cw) <= pairs * (2 * cw))%nat
      by (by apply Nat.mul_le_mono_r).
    lia. }
  assert (Hsel : forall j, (j < 2)%nat ->
            select1 (NdArray [length ix; 2%nat; cw]
                       (concat (map (fun i => take (2 * cw)
                                                (drop (Z.to_nat i * (2 * cw)) flat)) ix))) j
            = Ok (NdArray [length ix; cw]
                    (concat (map (fun i => take cw (drop (Z.to_nat i * (2 * cw) + j * cw) flat))
                               ix)))).
  { intros j Hj. unfold select1. cbn [shape buf numel foldr].
    replace (j <? 2)%nat with true by (symmetry; by apply Nat.ltb_lt).
    rewrite !Nat.mul_1_r.
    set (L := map (fun i => take (2 * cw) (drop (Z.to_nat i * (2 * cw)) flat)) ix) in *.
    assert (HL : blocks (length ix) (2 * cw) (concat L) = L).
    { rewrite <- (length_map (fun i => take (2 * cw) (drop (Z.to_nat i * (2 * cw)) flat)) ix).
      by apply blocks_concat. }
    rewrite HL. subst L. rewrite map_map.
    do 3 f_equal. apply map_ext. intros i.
    replace (2 * cw)%nat with (j * cw + (2 * cw - j * cw))%nat at 1 by nia.
    rewrite <- take_drop_commute, take_take, drop_drop.
    f_equal. nia. }
  rewrite Hstack, bind_lift_Ok in H.
  rewrite (Hsel 0%nat), bind_lift_Ok in H by lia.
  rewrite (Hsel 1%nat), bind_lift_Ok in H by lia.
  apply (f_equal fst) in H. cbn [fst] in H. apply Ok_inj in H. subst b.
  unfold bX, bY, buf.
  exists c, ix. rewrite <- Hbin, <- Hfs. split; [done|]. cbv zeta. fold pairs.
  split; [done|]. intros r i Hi.
  rewrite Forall_forall in Hr. pose proof (Hr i (list_elem_of_lookup_2 _ _ _ Hi)) as Hir.
  split; [done|]. intros k Hk.
  assert (Hrow : forall j, (j < 2)%nat ->
            concat (map (fun i0 => take cw (drop (Z.to_nat i0 * (2 * cw) + j * cw) flat)) ix)
              !! (r * cw + k)%nat
            = decode_u16 c !! (Z.to_nat i * (2 * cw) + j * cw + k)%nat /\
            (Z.to_nat i * (2 * cw) + j * cw + k < length (decode_u16 c))%nat).
  { intros j Hj.
    assert (Hpos : forall i0, 0 <= i0 < Z.of_nat pairs ->
              (Z.to_nat i0 * (2 * cw) + j * cw + cw <= pairs * (2 * cw))%nat).
    { intros i0 Hi0. assert (Z.to_nat i0 + 1 <= pairs)%nat by lia.
      assert ((Z.to_nat i0 + 1) * (2 * cw) <= pairs * (2 * cw))%nat
        by (by apply Nat.mul_le_mono_r).
      nia. }
    rewrite (window_row_lookup flat cw (fun i0 => (Z.to_nat i0 * (2 * cw) + j * cw)%nat)
               ix r i k Hi).
    - pose proof (Hpos i Hir).
      assert (Hle : (length flat <= length (decode_u16 c))%nat)
        by (unfold flat; rewrite length_take; lia).
      unfold flat at 1. cbn [numel foldr]. rewrite Nat.mul_1_r.
      rewrite lookup_take_lt by lia. split; [done | lia].
    - apply Forall_forall. intros i0 Hi0. rewrite Hflat. apply Hpos, Hr, Hi0.
    - done. }
  destruct (Hrow 0%nat ltac:(lia)) as [HX _].
  destruct (Hrow 1%nat ltac:(lia)) as [HY HYlt].
  rewrite HX, HY. split_and!; [f_equal; lia | f_equal; lia |].
  by apply lookup_lt_is_Some_2.
Qed.

Lemma conversational_batch_pairs_witness :
  exists c ix,
    files (disk_with (new_loader ConversationalDataloader demo_cfg) "train" conv_tokens)
      !! bin_file (new_loader ConversationalDataloader demo_cfg) "train" = Some c /\
    torch_randint demo_rng (Z.of_nat (length c / 2 / 2 / 2)) 2 = Ok ix /\
    forall (r : nat) (i : Z), ix !! r = Some i ->
      [5; 6; 1; 2] !! (r * 2)%nat = decode_u16 c !! (Z.to_nat i * 4)%nat /\
      [7; 8; 3; 4] !! (r * 2)%nat = decode_u16 c !! (Z.to_nat i * 4 + 2)%nat.
Proof.
  destruct (conversational_batch_pairs demo_cfg (new_loader ConversationalDataloader demo_cfg)
              (disk_with (new_loader ConversationalDataloader demo_cfg) "train" conv_tokens)
              [] "train" demo_rng
              (Batch (NdArray [2%nat; 2%nat] [5; 6; 1; 2])
                     (NdArray [2%nat; 2%nat] [7; 8; 3; 4]) None)
              (snd (get_batch "train" demo_rng
                      (demo_world ConversationalDataloader demo_cfg conv_tokens))))
    as (c & ix & Hc & Hr & Hall); [reflexivity | vm_compute; reflexivity |].
  exists c, ix. split; [exact Hc|]. split; [exact Hr|].
  intros r i Hi. destruct (Hall r i Hi) as (_ & Hk).
  destruct (Hk 0%nat ltac:(vm_compute; lia)) as (HX & HY & _).
  rewrite !Nat.add_0_r in HX, HY. split; [exact HX | exact HY].
Defined.

(** ** Index access of the masked class *)



(** ** Strings *)

Lemma string_length_app (s t : string) :
  String.length (s +:+ t) = (String.length s + String.length t)%nat.
Proof.
  induction s as [|a s IH]; [done|].
  change (String a s +:+ t) with (String a (s +:+ t)). cbn [String.length]. by rewrite IH.
Qed.

Lemma string_app_inj_r (t s1 s2 : string) : s1 +:+ t = s2 +:+ t -> s1 = s2.
Proof.
  revert s2. induction s1 as [|a s1 IH]; intros [|b s2] H.
  - done.
  - apply (f_equal String.length) in H. rewrite !string_length_app in H. cbn in H. lia.
  - apply (f_equal String.length) in H. rewrite !string_length_app in H. cbn in H. lia.
  - change (String a (s1 +:+ t) = String b (s2 +:+ t)) in H.
    injection H as -> H. f_equal. by apply IH.
Qed.

Lemma string_app_neq (s t : string) : t <> ""%string -> s +:+ t <> s.
Proof.
  intros Ht H. apply (f_equal String.length) in H. rewrite string_length_app in H.
  destruct t; [done|]. cbn in H. lia.
Qed.

(** ** The processed-data directory of each class *)

(** Property X9.  Two loaders built from the same configuration use the
    same processed-data directory exactly when both or neither of them is
    a byte-pooling loader: only that class appends a suffix to the path. *)
Theorem processed_directory_by_class v1 v2 c d1 d2 :
  __init__ v1 c = Ok d1 -> __init__ v2 c = Ok d2 ->
  (tokenized_data_path d1 = tokenized_data_path d2 <->
   (v1 = BytePoolingDataloader <-> v2 = BytePoolingDataloader)).
Proof.
  intros H1 H2.
  assert (Hp : forall v d, __init__ v c = Ok d ->
            tokenized_data_path d
            = data_dir c ++ [dataset_name c;
                (tokenizer_type c +:+ "-" +:+ string_of_N (vocab_size c))
                  +:+ match v with
                      | BytePoolingDataloader => "-BytePooling"
                      | _ => ""
                      end]%string).
  { intros v d. unfold __init__.
    assert (Hnil : forall s : string, s +:+ "" = s).
    { intros s. induction s as [|a s IH]; [done|].
      change (String a s +:+ "") with (String a (s +:+ "")). by rewrite IH. }
    destruct v; cbn [has_shape_cache]; try case_bool_decide; intros [= <-];
      cbn [tokenized_data_path]; try done; by rewrite Hnil. }
  rewrite (Hp _ _ H1), (Hp _ _ H2).
  set (base := (tokenizer_type c +:+ "-" +:+ string_of_N (vocab_size c))%string).
  split.
  - intros H. apply app_inv_head in H. injection H as H.
    apply String.app_inj in H.
    destruct v1, v2; try done; discriminate.
  - intros H.
    assert (Hsame : match v1 with BytePoolingDataloader => "-BytePooling" | _ => "" end%string
                    = match v2 with BytePoolingDataloader => "-BytePooling" | _ => "" end%string).
    { destruct v1, v2; try done; destruct H as [Ha Hb];
        first [by specialize (Ha eq_refl) | by specialize (Hb eq_refl)]. }
    by rewrite Hsame.
Qed.

Lemma processed_directory_by_class_witness :
  tokenized_data_path (new_loader StandardDataloader demo_cfg)
  = tokenized_data_path (new_loader ConversationalDataloader demo_cfg).
Proof.
  apply (processed_directory_by_class StandardDataloader ConversationalDataloader demo_cfg);
    [reflexivity | reflexivity | done].
Defined.

(** Property X10.  Because the standard, the conversational and the
    masked class share one directory, once [prepare_data] of one of them
    has returned, [prepare_data] of a loader of another of these classes
    with the same configuration returns without loading, tokenizing or
    writing anything. *)
Theorem shared_directory_skips_preprocessing v1 v2 c d1 d2 env env' fs0 w1 :
  v1 <> BytePoolingDataloader -> v2 <> BytePoolingDataloader ->
  __init__ v1 c = Ok d1 -> __init__ v2 c = Ok d2 ->
  prepare_data env (World fs0 d1) = (Ok tt, w1) ->
  prepare_data env' (World (fs w1) d2) = (Ok tt, World (fs w1) d2).
Proof.
  intros Hv1 Hv2 H1 H2 Hp.
  assert (Hpath : tokenized_data_path d2 = tokenized_data_path d1).
  { assert (Hq : forall v d, v <> BytePoolingDataloader -> __init__ v c = Ok d ->
              tokenized_data_path d
              = data_dir c ++ [dataset_name c;
                  tokenizer_type c +:+ "-" +:+ string_of_N (vocab_size c)]%string).
    { intros v d Hv. unfold __init__.
      destruct v; try done; try case_bool_decide; by intros [= <-]. }
    by rewrite (Hq _ _ Hv1 H1), (Hq _ _ Hv2 H2). }
  assert (Hs : self w1 = d1).
  { revert Hp. unfold prepare_data. rewrite bind_get_self. unfold bind at 1.
    cbn [fs self].
    destruct (os_path_exists fs0 (tokenized_data_path d1)); cbn [negb].
    { by intros [= <-]. }
    intros H.
    apply bind_Ok in H as (u & w2 & Hmk & H).
    unfold fs_update in Hmk. cbn [fs self] in Hmk.
    destruct (os_makedirs _ fs0); [|discriminate]. injection Hmk as _ <-.
    apply bind_Ok in H as (ds & w3 & Hl & H). apply lift_inv in Hl as [_ ->].
    unfold try_except_RuntimeError in H.
    match type of H with
    | match ?body ?w0 with _ => _ end = _ => destruct (body w0) as [[u'|e] w4] eqn:Hbody
    end.
    - injection H as _ <-.
      apply bind_Ok in Hbody as (tk & w5 & Hl & Hbody). apply lift_inv in Hl as [_ ->].
      by apply _write_tokenized_data_dirs in Hbody as [_ Hs].
    - destruct (is_RuntimeError e); [|discriminate].
      unfold bind, fs_update, raise in H. by repeat case_match. }
  apply prepare_data_Ok_exists in Hp. rewrite Hs, <- Hpath in Hp.
  unfold prepare_data. rewrite bind_get_self. unfold bind. cbn [fs self].
  by rewrite Hp.
Qed.

Lemma shared_directory_skips_preprocessing_witness :
  let w1 := snd (prepare_data healthy_env
                   (World empty_disk (new_loader StandardDataloader demo_cfg))) in
  prepare_data failing_tokenizer (World (fs w1) (new_loader ConversationalDataloader demo_cfg))
  = (Ok tt, World (fs w1) (new_loader ConversationalDataloader demo_cfg)).
Proof.
  intros w1.
  apply (shared_directory_skips_preprocessing StandardDataloader ConversationalDataloader
           demo_cfg (new_loader StandardDataloader demo_cfg) _ healthy_env _ empty_disk w1);
    [done | done | reflexivity | reflexivity | vm_compute; reflexivity].
Defined.

(** ** What [prepare_data] leaves alone *)

Lemma np_memmap_files p m shp fs0 r fs' :
  np_memmap p m shp fs0 = (r, fs') ->
  forall q, q <> p -> files fs' !! q = files fs0 !! q.
Proof.
  unfold np_memmap. intros H q Hq.
  repeat (case_match; simplify_eq; cbn [files] in *; rewrite ?lookup_insert_ne by done;
          try done).
Qed.

Lemma assign_rows_files fn arr_shape idx arr_batch w r w' :
  assign_rows fn arr_shape idx arr_batch w = (r, w') ->
  forall q, q <> fn -> files (fs w') !! q = files (fs w) !! q.
Proof.
  unfold assign_rows, fs_update, raise. intros H q Hq.
  repeat (case_match; simplify_eq; cbn [files fs] in *; rewrite ?lookup_insert_ne by done;
          try done).
Qed.

Lemma write_shards_files env v sp fn arr_shape dset ks idx w r w' :
  write_shards env v sp fn arr_shape dset ks idx w = (r, w') ->
  forall q, q <> fn -> files (fs w') !! q = files (fs w) !! q.
Proof.
  revert idx w. induction ks as [|k ks IH]; intros idx w H q Hq; cbn [write_shards] in H.
  - by injection H as <- <-.
  - destruct (io_fault env sp k); [by injection H as <- <-|].
    apply bind_any in H as [(arr_batch & w1 & Hl & H) | (e & Hl & ->)];
      apply lift_inv in Hl as [_ ->]; [|done].
    apply bind_any in H as [(u & w2 & Ha & H) | (e & Ha & ->)];
      pose proof (assign_rows_files _ _ _ _ _ _ _ Ha q Hq) as Hf; [|done].
    rewrite <- Hf. by eapply IH.
Qed.

Lemma write_split_files env sp dset w r w' :
  write_split env sp dset w = (r, w') ->
  forall q, q <> bin_file (self w) sp -> files (fs w') !! q = files (fs w) !! q.
Proof.
  unfold write_split. rewrite bind_get_self. intros H q Hq.
  apply bind_any in H as [(arr_shape & w1 & Hl & H) | (e & Hl & ->)];
    apply lift_inv in Hl as [_ ->]; [|done].
  apply bind_any in H as [(a & w2 & Hm & H) | (e & Hm & ->)];
    apply memmap_inv in Hm as (fs' & Hm & ->);
    pose proof (np_memmap_files _ _ _ _ _ _ Hm q Hq) as Hf; [|done].
  cbn [fs] in *. rewrite <- Hf.
  by apply (write_shards_files _ _ _ _ _ _ _ _ _ _ _ H).
Qed.

Lemma _write_tokenized_data_files env tokenized w r w' :
  _write_tokenized_data env tokenized w = (r, w') ->
  forall q, dirname q <> tokenized_data_path (self w) ->
            files (fs w') !! q = files (fs w) !! q.
Proof.
  revert w. induction tokenized as [|[sp dset] rest IH]; intros w H q Hq;
    cbn [_write_tokenized_data] in H.
  - by injection H as <- <-.
  - assert (Hne : q <> bin_file (self w) sp).
    { intros ->. by rewrite dirname_bin_file in Hq. }
    apply bind_any in H as [(u & w1 & Hw & H) | (e & Hw & ->)];
      pose proof (write_split_files _ _ _ _ _ _ Hw q Hne) as Hf;
      apply write_split_dirs in Hw as [_ Hs]; [|done].
    rewrite <- Hf. apply (IH _ H). by rewrite Hs.
Qed.

Lemma prune_files anc fs0 : files (prune anc fs0) = files fs0.
Proof.
  revert fs0. induction anc as [|a anc IH]; intros fs0; [done|].
  cbn [prune]. unfold os_rmdir. repeat case_match; try done.
  simplify_eq. by rewrite IH.
Qed.

Lemma os_removedirs_files p fs0 fs' :
  os_removedirs p fs0 = Ok fs' -> files fs' = files fs0.
Proof.
  unfold os_removedirs, os_rmdir.
  repeat case_match; try discriminate. cbn [rbind]. intros [= <-].
  by rewrite prune_files.
Qed.

(** Property X11.  Whatever happens in [prepare_data] (return or any
    exception), the loader object is unchanged and so is every file that
    is not an entry of the loader's own processed-data directory. *)
Theorem prepare_data_touches_only_its_directory env w r w' :
  prepare_data env w = (r, w') ->
  self w' = self w /\
  forall q, dirname q <> tokenized_data_path (self w) ->
            files (fs w') !! q = files (fs w) !! q.
Proof.
  unfold prepare_data. rewrite bind_get_self. unfold bind at 1.
  destruct (os_path_exists (fs w) (tokenized_data_path (self w))); cbn [negb].
  { by intros [= <- <-]. }
  intros H.
  apply bind_any in H as [(u & w1 & Hmk & H) | (e & Hmk & ->)].
  2:{ unfold fs_update in Hmk. destruct (os_makedirs _ _); [discriminate|].
      by injection Hmk as <- <-. }
  unfold fs_update, os_makedirs in Hmk.
  destruct (bool_decide _); [discriminate|].
  destruct (os_path_exists _ _); [discriminate|].
  destruct (existsb _ _); [discriminate|]. injection Hmk as _ <-.
  apply bind_any in H as [(ds & w2 & Hl & H) | (e & Hl & ->)];
    apply lift_inv in Hl as [_ ->]; [|cbn [fs self files]; by split].
  unfold try_except_RuntimeError in H.
  match type of H with
  | match ?body ?w0 with _ => _ end = _ => destruct (body w0) as [[u'|e] w3] eqn:Hbody
  end.
  - injection H as <- <-.
    apply bind_Ok in Hbody as (tk & w4 & Hl & Hbody). apply lift_inv in Hl as [_ ->].
    pose proof (_write_tokenized_data_files _ _ _ _ _ Hbody) as Hf.
    apply _write_tokenized_data_dirs in Hbody as [_ Hs]. split; [done|].
    intros q Hq. by rewrite Hf.
  - assert (Hw3 : self w3 = self w /\
              forall q, dirname q <> tokenized_data_path (self w) ->
                        files (fs w3) !! q = files (fs w) !! q).
    { apply bind_any in Hbody as [(tk & w4 & Hl & Hbody) | (e' & Hl & _)];
        apply lift_inv in Hl as [_ ->]; [|done].
      pose proof (_write_tokenized_data_files _ _ _ _ _ Hbody) as Hf.
      apply _write_tokenized_data_dirs in Hbody as [_ Hs]. split; [done|].
      intros q Hq. by rewrite Hf. }
    destruct Hw3 as [Hs3 Hf3].
    destruct (is_RuntimeError e); [|by injection H as <- <-].
    apply bind_any in H as [(u2 & w5 & Hrm & H) | (e' & Hrm & ->)];
      unfold fs_update in Hrm;
      destruct (os_removedirs _ (fs w3)) as [fs5|] eqn:Erm; try discriminate.
    + injection Hrm as _ <-. injection H as <- <-. cbn [fs self].
      split; [done|]. intros q Hq.
      rewrite (os_removedirs_files _ _ _ Erm). by apply Hf3.
    + by injection Hrm as <- <-.
Qed.

Lemma prepare_data_touches_only_its_directory_witness :
  let disk := FS {[ ["other"]%string ]} {[ ["other"; "notes.txt"]%string := [x01; x02] ]} in
  let w := World disk (new_loader StandardDataloader demo_cfg) in
  fst (prepare_data failing_last_shard w) = Raise OSError /\
  self (snd (prepare_data failing_last_shard w)) = self w /\
  files (fs (snd (prepare_data failing_last_shard w))) !! ["other"; "notes.txt"]%string
  = Some [x01; x02].
Proof.
  intros disk w. split; [vm_compute; reflexivity|].
  destruct (prepare_data_touches_only_its_directory failing_last_shard w
              (fst (prepare_data failing_last_shard w))
              (snd (prepare_data failing_last_shard w))) as [Hs Hf];
    [by destruct (prepare_data failing_last_shard w)|].
  split; [exact Hs|].
  rewrite (Hf ["other"; "notes.txt"]%string); [reflexivity | vm_compute; discriminate].
Defined.

(** ** Exceptions that leave [prepare_data] *)

Lemma os_removedirs_not_RuntimeError p fs0 :
  os_removedirs p fs0 <> Raise RuntimeError.
Proof. unfold os_removedirs, os_rmdir. by repeat case_match. Qed.

(** Property X12.  A [RuntimeError] raised while tokenizing or writing
    never reaches the caller of [prepare_data] as a [RuntimeError]: the
    only [RuntimeError] that leaves [prepare_data] is one that [load_data]
    raised, outside the [try] block. *)
Theorem prepare_data_RuntimeError_only_from_load_data env w w' :
  prepare_data env w = (Raise RuntimeError, w') ->
  load_data env (dataset_name (cfg (self w))) = Raise RuntimeError.
Proof.
  unfold prepare_data. rewrite bind_get_self. unfold bind at 1.
  destruct (os_path_exists (fs w) (tokenized_data_path (self w))) eqn:Hex; cbn [negb].
  { discriminate. }
  intros H.
  apply bind_any in H as [(u & w1 & Hmk & H) | (e & Hmk & He)].
  2:{ exfalso. unfold fs_update, os_makedirs in Hmk. rewrite Hex in Hmk.
      destruct (bool_decide _); [by simplify_eq|].
      destruct (existsb _ _); by simplify_eq. }
  apply bind_any in H as [(ds & w2 & Hl & H) | (e & Hl & He)];
    apply lift_inv in Hl as [Hl ->]; [|congruence].
  exfalso. unfold try_except_RuntimeError in H.
  match type of H with
  | match ?body ?w0 with _ => _ end = _ => destruct (body w0) as [[u'|e] w3]
  end; [discriminate|].
  destruct e; cbn [is_RuntimeError] in H; try discriminate.
  apply bind_any in H as [(u2 & w5 & Hrm & H) | (e' & Hrm & He)].
  - discriminate.
  - unfold fs_update in Hrm.
    destruct (os_removedirs _ (fs w3)) eqn:Erm; [discriminate|].
    injection Hrm as -> _. injection He as <-.
    by apply os_removedirs_not_RuntimeError in Erm.
Qed.

Lemma prepare_data_RuntimeError_only_from_load_data_witness :
  load_data failing_load (dataset_name demo_cfg) = Raise RuntimeError.
Proof.
  apply (prepare_data_RuntimeError_only_from_load_data failing_load
           (World empty_disk (new_loader StandardDataloader demo_cfg))
           (snd (prepare_data failing_load
                   (World empty_disk (new_loader StandardDataloader demo_cfg))))).
  vm_compute. reflexivity.
Defined.

Section BlockWriter.
Local Open Scope nat_scope.

Lemma blocks_exact n w (b : list Z) :
  length b = n * w ->
  concat (blocks n w b) = b /\ Forall (fun l => length l = w) (blocks n w b).
Proof.
  revert b. induction n as [|n IH]; intros b Hb.
  - destruct b; [done | cbn in Hb; lia].
  - cbn [blocks concat].
    destruct (IH (drop w b)) as [Hc Hf]; [rewrite length_drop; lia|].
    rewrite Hc, take_drop. split; [done|].
    constructor; [rewrite length_take; lia | done].
Qed.

Lemma broadcast_same_rank_id s (b : list Z) :
  length b = numel s -> broadcast_same_rank s s b = Some b.
Proof.
  revert b. induction s as [|n s IH]; intros b Hb; [done|].
  cbn [broadcast_same_rank]. rewrite Nat.eqb_refl.
  cbn [numel foldr] in Hb. fold (numel s) in Hb.
  destruct (blocks_exact n (numel s) b Hb) as [Hc Hf].
  assert (Hm : mapM (broadcast_same_rank s s) (blocks n (numel s) b)
               = Some (blocks n (numel s) b)).
  { apply mapM_Some_2. clear Hc.
    induction Hf as [|l ls Hl _ IHf]; constructor; [by apply IH | done]. }
  rewrite Hm. cbn [option_map]. by rewrite Hc.
Qed.

Lemma broadcast_to_id s (b : list Z) :
  length b = numel s -> broadcast_to s s b = Some b.
Proof.
  intros Hb. unfold broadcast_to. rewrite Nat.sub_diag. cbn [strip_ones].
  rewrite Nat.ltb_irrefl, Nat.sub_diag. cbn [replicate app].
  by apply broadcast_same_rank_id.
Qed.

Lemma assign_rows_block fn N rest idx m (b : list Z) c w :
  files (fs w) !! fn = Some c -> length b = m * numel rest -> idx + m <= N ->
  assign_rows fn (N :: rest) idx (NdArray (m :: rest) b) w
  = (Ok tt, World (FS (dirs (fs w))
                     (<[ fn := splice c (2 * (idx * numel rest)) (encode_u16 b) ]>
                        (files (fs w))))
              (self w)).
Proof.
  intros Hc Hb Hle. unfold assign_rows. cbn [len shape hd buf].
  rewrite <- Nat2Z.inj_add. rewrite !clip_bound_nat by lia.
  replace (idx + m - idx) with m by lia.
  rewrite broadcast_to_id by done. unfold fs_update. by rewrite Hc.
Qed.

Context (env : collaborators) (v : variant) (sp : string) (fn : path).
Hypothesis Hfault : forall k, io_fault env sp k = None.

Lemma write_shards_blocks N rest dset (m : nat -> nat) (B : nat -> list Z) ks idx c w :
  files (fs w) !! fn = Some c -> length c = 2 * (N * numel rest) ->
  Forall (fun k =>
            match v with
            | ConversationalDataloader => np_stack (map ids (shard dset total_batches k))
            | _ => np_concatenate (map ids (shard dset total_batches k))
            end = Ok (NdArray (m k :: rest) (B k)) /\
            length (B k) = m k * numel rest) ks ->
  idx + foldr Nat.add 0 (map m ks) <= N ->
  write_shards env v sp fn (N :: rest) dset ks idx w
  = (Ok tt, World (FS (dirs (fs w))
                     (<[ fn := splice c (2 * (idx * numel rest))
                                 (encode_u16 (concat (map B ks))) ]>
                        (files (fs w))))
              (self w)).
Proof.
  revert idx c w. induction ks as [|k ks IH]; intros idx c w Hc Hlen Hall Hle.
  - cbn [write_shards map concat encode_u16 flat_map].
    cbn [map foldr] in Hle.
    rewrite splice_nil by nia. rewrite insert_id by done.
    unfold ret. by destruct w as [[] ?].
  - cbn [write_shards]. rewrite Hfault.
    inversion Hall as [|? ? [Hk HBk] Hks]; subst.
    rewrite Hk, bind_lift_Ok. cbn [map foldr concat] in Hle |- *.
    unfold bind at 1. rewrite (assign_rows_block _ _ _ _ _ _ c) by (done || lia).
    cbn [len shape hd].
    rewrite (IH _ (splice c (2 * (idx * numel rest)) (encode_u16 (B k)))).
    + cbn [fs self dirs files]. rewrite insert_insert_eq.
      do 4 f_equal.
      replace (2 * ((idx + m k) * numel rest))
        with (2 * (idx * numel rest) + length (encode_u16 (B k)))
        by (rewrite encode_u16_length; nia).
      rewrite splice_splice.
      * by rewrite encode_u16_app.
      * rewrite !encode_u16_length, length_concat.
        assert (Hsum : foldr Nat.add 0 (map length (map B ks))
                       = foldr Nat.add 0 (map m ks) * numel rest).
        { clear -Hks. induction Hks as [|k0 ks0 [_ Hb] _ IHk]; [done|].
          cbn [map foldr]. rewrite IHk, Hb. lia. }
        unfold list_sum. rewrite Hsum, HBk, Hlen. nia.
    + cbn [fs files]. by rewrite lookup_insert_eq.
    + rewrite splice_length by (rewrite encode_u16_length; nia). done.
    + done.
    + lia.
Qed.

End BlockWriter.

(** ** One split, any class *)

Section SplitWriter.
Local Open Scope nat_scope.

Lemma np_memmap_create_shape fn s fs0 :
  dirname fn ∈ dirs fs0 -> fn ∉ dirs fs0 -> 0 < numel s ->
  np_memmap fn mode_wplus (Some s) fs0
  = (Ok (NdArray s (replicate (numel s) 0%Z)),
     FS (dirs fs0) (<[ fn := replicate (2 * numel s) x00 ]> (files fs0))).
Proof.
  intros Hd Hf HN. unfold np_memmap.
  rewrite (bool_decide_eq_true_2 _ Hd), (bool_decide_eq_false_2 _ Hf).
  cbn [andb negb writable length dirs files].
  replace (0 <? 2 * numel s) with true by (symmetry; apply Nat.ltb_lt; lia).
  cbn [app]. rewrite Nat.sub_0_r, length_replicate.
  replace (2 * numel s =? 0) with false by (symmetry; apply Nat.eqb_neq; lia).
  rewrite Nat.ltb_irrefl, insert_insert_eq.
  rewrite take_ge by (rewrite length_replicate; lia).
  by rewrite decode_replicate_zero.
Qed.

Lemma shard_sublist {A} (l : list A) n k x : x ∈ shard l n k -> x ∈ l.
Proof.
  unfold shard. intros H. apply elem_of_take in H as (i & H & _).
  rewrite lookup_drop in H. by eapply list_elem_of_lookup_2.
Qed.

Lemma concat_shards {A B} (f : A -> list B) (l : list A) :
  concat (map (fun k => concat (map f (shard l total_batches k))) (seq 0 total_batches))
  = concat (map f l).
Proof.
  transitivity (concat (map f (concat (map (shard l total_batches) (seq 0 total_batches))))).
  - generalize (seq 0 total_batches). intros ks.
    induction ks as [|k ks IH]; [done|].
    cbn [map concat]. by rewrite map_app, concat_app, IH.
  - rewrite shard_partition by (unfold total_batches; lia). done.
Qed.

Lemma sum_shards {A} (f : A -> nat) (l : list A) :
  foldr Nat.add 0 (map (fun k => foldr Nat.add 0 (map f (shard l total_batches k)))
                     (seq 0 total_batches))
  = foldr Nat.add 0 (map f l).
Proof.
  transitivity (foldr Nat.add 0
                  (map f (concat (map (shard l total_batches) (seq 0 total_batches))))).
  - generalize (seq 0 total_batches). intros ks.
    induction ks as [|k ks IH]; [done|].
    cbn [map concat foldr]. rewrite map_app, foldr_app, IH.
    generalize (foldr Nat.add 0 (map f (concat (map (shard l total_batches) ks)))).
    intros a. induction (map f (shard l total_batches k)) as [|x xs IHx]; [done|].
    cbn [foldr]. rewrite <- IHx. lia.
  - rewrite shard_partition by (unfold total_batches; lia). done.
Qed.

Lemma np_concatenate_blocks (ts : list ndarray) rest :
  ts <> [] -> Forall (fun t => exists m, shape t = m :: rest) ts ->
  np_concatenate ts
  = Ok (NdArray (foldr Nat.add 0 (map len ts) :: rest) (concat (map buf ts))).
Proof.
  intros Hne Hall. destruct ts as [|t ts']; [done|].
  unfold np_concatenate.
  inversion Hall as [|? ? [m Ht] Hrest]; subst. rewrite Ht.
  replace (forallb _ ts') with true.
  2:{ symmetry. apply forallb_forall. intros u Hu.
      rewrite Forall_forall in Hrest. apply list_elem_of_In in Hu.
      destruct (Hrest u Hu) as [mu ->]. unfold shape_eqb. by apply bool_decide_eq_true. }
  do 3 f_equal. generalize (t :: ts'). intros l.
  induction l as [|x l IH]; [done|]. cbn [foldr map]. by rewrite IH.
Qed.

Lemma write_split_all env sp dset w rest N :
  (forall k, io_fault env sp k = None) ->
  tokenized_data_path (self w) ∈ dirs (fs w) ->
  bin_file (self w) sp ∉ dirs (fs w) ->
  total_batches <= length dset ->
  0 < N * numel rest ->
  match cls (self w) with
  | ConversationalDataloader =>
      N = length dset /\ rest = [2; context_window (cfg (self w))] /\
      Forall (fun r => shape (ids r) = rest) dset
  | BytePoolingDataloader =>
      rest = [byte_context_window (cfg (self w))] /\
      Forall (fun r => shape (ids r) = len (ids r) :: rest /\
                       len_col r = Some (len (ids r))) dset /\
      N = foldr Nat.add 0 (map (fun r => len (ids r)) dset)
  | _ =>
      rest = [] /\
      Forall (fun r => shape (ids r) = len (ids r) :: rest /\
                       len_col r = Some (len (ids r))) dset /\
      N = foldr Nat.add 0 (map (fun r => len (ids r)) dset)
  end ->
  Forall (fun r => length (buf (ids r)) = numel (shape (ids r))) dset ->
  write_split env sp dset w
  = (Ok tt, World (FS (dirs (fs w))
                     (<[ bin_file (self w) sp
                         := encode_u16 (concat (map (fun r => buf (ids r)) dset)) ]>
                        (files (fs w))))
              (self w)).
Proof.
  intros Hfault Hdir Hfile Hmany Hpos Hcls Hbuf.
  set (fn := bin_file (self w) sp).
  set (B := fun k => concat (map (fun r => buf (ids r)) (shard dset total_batches k))).
  set (m := fun k => match cls (self w) with
                     | ConversationalDataloader => length (shard dset total_batches k)
                     | _ => foldr Nat.add 0
                              (map (fun r => len (ids r)) (shard dset total_batches k))
                     end).
  assert (Hsum_len : Forall (fun r => len_col r = Some (len (ids r))) dset ->
            sum_len dset = Ok (foldr Nat.add 0 (map (fun r => len (ids r)) dset))).
  { intros Hl. unfold sum_len.
    rewrite (rmap_total _ (fun r => len (ids r))).
    - done.
    - eapply Forall_impl; [exact Hl|]. intros r Hr. cbn beta in *. by rewrite Hr. }
  assert (Hshape : match cls (self w) with
                   | ConversationalDataloader =>
                       Ok [length dset; 2; context_window (cfg (self w))]
                   | BytePoolingDataloader =>
                       rbind (sum_len dset)
                         (fun arr_len => Ok [arr_len; byte_context_window (cfg (self w))])
                   | _ => rbind (sum_len dset) (fun arr_len => Ok [arr_len])
                   end = Ok (N :: rest)).
  { destruct (cls (self w)).
    - destruct Hcls as (-> & Hall & ->). rewrite Hsum_len; [done|].
      eapply Forall_impl; [exact Hall|]. by intros r [_ ?].
    - destruct Hcls as (-> & Hall & ->). rewrite Hsum_len; [done|].
      eapply Forall_impl; [exact Hall|]. by intros r [_ ?].
    - by destruct Hcls as (-> & -> & _).
    - destruct Hcls as (-> & Hall & ->). rewrite Hsum_len; [done|].
      eapply Forall_impl; [exact Hall|]. by intros r [_ ?]. }
  assert (Hcomb : Forall (fun k =>
            match cls (self w) with
            | ConversationalDataloader => np_stack (map ids (shard dset total_batches k))
            | _ => np_concatenate (map ids (shard dset total_batches k))
            end = Ok (NdArray (m k :: rest) (B k)) /\
            length (B k) = m k * numel rest) (seq 0 total_batches)).
  { apply Forall_forall. intros k Hk. apply list_elem_of_In, in_seq in Hk.
    assert (Hne : shard dset total_batches k <> [])
      by (apply shard_nonempty; unfold total_batches in *; lia).
    assert (Hsub : forall r, r ∈ shard dset total_batches k -> r ∈ dset)
      by (intros r; apply shard_sublist).
    assert (HlenB : forall (f : tokenized_row -> nat),
              (forall r, r ∈ dset -> length (buf (ids r)) = f r * numel rest) ->
              length (B k) = foldr Nat.add 0 (map f (shard dset total_batches k))
                             * numel rest).
    { intros f Hf. subst B. cbn beta. clear Hne.
      induction (shard dset total_batches k) as [|r l IH]; [done|].
      cbn [map concat foldr]. rewrite length_app, IH.
      - rewrite Hf by (apply Hsub; left). lia.
      - intros. apply Hsub. by right. }
    rewrite Forall_forall in Hbuf.
    subst m. cbn beta.
    destruct (cls (self w)).
    - destruct Hcls as (_ & Hall & _). rewrite Forall_forall in Hall. split.
      + rewrite (np_concatenate_blocks _ rest).
        * unfold B. by rewrite !map_map.
        * by destruct (shard dset total_batches k).
        * apply Forall_forall. intros t Ht.
          apply list_elem_of_In, in_map_iff in Ht as (r & <- & Hr).
          apply list_elem_of_In, Hsub, Hall in Hr as [Hr _]. eauto.
      + apply HlenB. intros r Hr. rewrite (Hbuf r Hr).
        destruct (Hall r Hr) as [-> _]. done.
    - destruct Hcls as (_ & Hall & _). rewrite Forall_forall in Hall. split.
      + rewrite (np_concatenate_blocks _ rest).
        * unfold B. by rewrite !map_map.
        * by destruct (shard dset total_batches k).
        * apply Forall_forall. intros t Ht.
          apply list_elem_of_In, in_map_iff in Ht as (r & <- & Hr).
          apply list_elem_of_In, Hsub, Hall in Hr as [Hr _]. eauto.
      + apply HlenB. intros r Hr. rewrite (Hbuf r Hr).
        destruct (Hall r Hr) as [-> _]. done.
    - destruct Hcls as (_ & _ & Hall). rewrite Forall_forall in Hall. split.
      + unfold np_stack. rewrite (stack_with_uniform _ _ rest).
        * unfold B. by rewrite length_map, !map_map.
        * by destruct (shard dset total_batches k).
        * apply Forall_forall. intros t Ht.
          apply list_elem_of_In, in_map_iff in Ht as (r & <- & Hr).
          by apply list_elem_of_In, Hsub, Hall in Hr.
      + rewrite (HlenB (fun _ => 1)).
        * f_equal. generalize (shard dset total_batches k). clear. intros l.
          induction l as [|r l IH]; [done|].
          cbn [map foldr length]. by rewrite IH.
        * intros r Hr. rewrite (Hbuf r Hr), (Hall r Hr). lia.
    - destruct Hcls as (_ & Hall & _). rewrite Forall_forall in Hall. split.
      + rewrite (np_concatenate_blocks _ rest).
        * unfold B. by rewrite !map_map.
        * by destruct (shard dset total_batches k).
        * apply Forall_forall. intros t Ht.
          apply list_elem_of_In, in_map_iff in Ht as (r & <- & Hr).
          apply list_elem_of_In, Hsub, Hall in Hr as [Hr _]. eauto.
      + apply HlenB. intros r Hr. rewrite (Hbuf r Hr).
        destruct (Hall r Hr) as [-> _]. done. }
  assert (Hm : foldr Nat.add 0 (map m (seq 0 total_batches)) = N).
  { subst m. cbn beta. destruct (cls (self w)).
    - destruct Hcls as (_ & _ & ->). apply sum_shards.
    - destruct Hcls as (_ & _ & ->). apply sum_shards.
    - destruct Hcls as (-> & _ & _).
      transitivity (length (concat (map (shard dset total_batches) (seq 0 total_batches)))).
      + generalize (seq 0 total_batches). intros ks.
        induction ks as [|k ks IH]; [done|].
        cbn [map foldr concat]. by rewrite length_app, IH.
      + by rewrite shard_partition by (unfold total_batches; lia).
    - destruct Hcls as (_ & _ & ->). apply sum_shards. }
  unfold write_split. rewrite bind_get_self, Hshape, bind_lift_Ok. fold fn.
  unfold bind at 1, memmap.
  rewrite np_memmap_create_shape
    by (subst fn; rewrite ?dirname_bin_file; cbn [numel foldr]; done).
  rewrite (write_shards_blocks env _ sp fn Hfault N rest dset m B _ 0
             (replicate (2 * numel (N :: rest)) x00)).
  - cbn [fs self dirs files ret]. rewrite insert_insert_eq.
    assert (HlenAll : length (concat (map B (seq 0 total_batches))) = N * numel rest).
    { rewrite <- Hm. clear -Hcomb. induction Hcomb as [|k ks [_ Hk] _ IH]; [done|].
      cbn [map concat foldr]. rewrite length_app, IH, Hk. lia. }
    subst B. cbn beta in HlenAll |- *. rewrite concat_shards in HlenAll |- *.
    rewrite splice_all; [done|].
    rewrite encode_u16_length, length_replicate. cbn [numel foldr]. f_equal.
    exact HlenAll.
  - cbn [fs files]. by rewrite lookup_insert_eq.
  - rewrite length_replicate. done.
  - exact Hcomb.
  - lia.
Qed.

End SplitWriter.

(** ** Every split, and the whole of [prepare_data] *)

Lemma bin_file_inj d sp sp' : bin_file d sp = bin_file d sp' -> sp = sp'.
Proof.
  unfold bin_file. intros H. apply app_inv_head in H. injection H as H.
  by apply string_app_inj_r in H.
Qed.

Lemma _write_tokenized_data_other_files env tokenized w r w' :
  _write_tokenized_data env tokenized w = (r, w') ->
  forall q, (forall sp, sp ∈ map fst tokenized -> q <> bin_file (self w) sp) ->
            files (fs w') !! q = files (fs w) !! q.
Proof.
  revert w. induction tokenized as [|[sp dset] rest IH]; intros w H q Hq;
    cbn [_write_tokenized_data] in H.
  - by injection H as <- <-.
  - assert (Hne : q <> bin_file (self w) sp) by (apply Hq; cbn; left).
    apply bind_any in H as [(u & w1 & Hw & H) | (e & Hw & ->)];
      pose proof (write_split_files _ _ _ _ _ _ Hw q Hne) as Hf;
      apply write_split_dirs in Hw as [_ Hs]; [|done].
    rewrite <- Hf. apply (IH _ H). intros sp' Hsp'. rewrite Hs. apply Hq. cbn. by right.
Qed.

Lemma _write_tokenized_data_all env (tokenized : list (string * list tokenized_row)) w :
  NoDup (map fst tokenized) ->
  (forall sp dset w0, (sp, dset) ∈ tokenized ->
     self w0 = self w -> dirs (fs w0) = dirs (fs w) ->
     write_split env sp dset w0
     = (Ok tt, World (FS (dirs (fs w0))
                        (<[ bin_file (self w) sp
                            := encode_u16 (concat (map (fun r => buf (ids r)) dset)) ]>
                           (files (fs w0))))
                 (self w0))) ->
  exists w',
    _write_tokenized_data env tokenized w = (Ok tt, w') /\
    self w' = self w /\ dirs (fs w') = dirs (fs w) /\
    forall sp dset, (sp, dset) ∈ tokenized ->
      files (fs w') !! bin_file (self w) sp
      = Some (encode_u16 (concat (map (fun r => buf (ids r)) dset))).
Proof.
  revert w. induction tokenized as [|[sp dset] rest IH]; intros w Hnd Hws.
  - exists w. split_and!; try done. intros sp dset H. by apply elem_of_nil in H.
  - cbn [map fst] in Hnd. apply NoDup_cons in Hnd as [Hnotin Hnd].
    pose proof (Hws sp dset w ltac:(left) eq_refl eq_refl) as Hw1.
    set (w1 := World (FS (dirs (fs w))
                        (<[ bin_file (self w) sp
                            := encode_u16 (concat (map (fun r => buf (ids r)) dset)) ]>
                           (files (fs w))))
                 (self w)) in *.
    destruct (IH w1 Hnd) as (w' & Hrest & Hs & Hd & Hfiles).
    { intros sp' dset' w0 Hin Hs0 Hd0. cbn [self fs dirs w1] in *.
      apply Hws; [by right | done | done]. }
    exists w'. cbn [_write_tokenized_data]. unfold bind at 1. rewrite Hw1.
    split_and!; [done | done | done |].
    intros sp' dset' Hin. apply elem_of_cons in Hin as [[= -> ->] | Hin].
    + rewrite (_write_tokenized_data_other_files _ _ _ _ _ Hrest).
      * cbn [w1 fs files]. by rewrite lookup_insert_eq.
      * intros sp'' Hsp'' Heq. cbn [w1 self] in Heq. apply bin_file_inj in Heq.
        by subst sp''.
    + by apply Hfiles.
Qed.

Lemma prepare_data_fresh env w ds tokenized w2 :
  os_path_exists (fs w) (tokenized_data_path (self w)) = false ->
  tokenized_data_path (self w) <> [] ->
  Forall (fun q => files (fs w) !! q = None) (prefixes (tokenized_data_path (self w))) ->
  load_data env (dataset_name (cfg (self w))) = Ok ds ->
  dataset_map (match cls (self w) with
               | ConversationalDataloader => process_conversation env
               | _ => process_text env
               end) ds = Ok tokenized ->
  _write_tokenized_data env tokenized
    (World (FS (dirs (fs w) ∪ list_to_set (prefixes (tokenized_data_path (self w))))
              (files (fs w))) (self w)) = (Ok tt, w2) ->
  prepare_data env w = (Ok tt, w2).
Proof.
  intros Hex Hne Hpre Hload Hmap Hwrite.
  unfold prepare_data. rewrite bind_get_self. unfold bind at 1. rewrite Hex.
  cbn [negb]. unfold bind at 1, fs_update, os_makedirs.
  rewrite Hex, (bool_decide_eq_false_2 _ Hne).
  replace (existsb _ (prefixes (tokenized_data_path (self w)))) with false.
  2:{ symmetry. apply not_true_is_false. intros H. apply existsb_exists in H as (q & Hq & H).
      apply bool_decide_eq_true in H. rewrite Forall_forall in Hpre.
      apply list_elem_of_In in Hq. rewrite (Hpre q Hq) in H. by destruct H. }
  cbn [self fs]. rewrite Hload, bind_lift_Ok.
  unfold try_except_RuntimeError. cbn [self cls].
  rewrite Hmap, bind_lift_Ok, Hwrite. reflexivity.
Qed.

Lemma fresh_directory_has_no_entry fs0 p x :
  fs_wf fs0 -> p <> [] -> os_path_exists fs0 p = false ->
  p ++ [x] ∉ dirs fs0 ∪ list_to_set (prefixes p).
Proof.
  intros [Hwf _] Hne Hex Hin. apply elem_of_union in Hin as [Hin | Hin].
  - apply Hwf in Hin.
    + unfold dirname in Hin. rewrite length_app in Hin. cbn [length] in Hin.
      replace (length p + 1 - 1)%nat with (length p) in Hin by lia.
      rewrite take_app_length in Hin.
      unfold os_path_exists in Hex. apply orb_false_iff in Hex as [Hex _].
      by apply bool_decide_eq_false in Hex.
    + rewrite length_app. cbn. destruct p; [done | cbn; lia].
  - apply elem_of_list_to_set in Hin. unfold prefixes in Hin.
    apply list_elem_of_In, in_map_iff in Hin as (k & Hk & Hin). apply in_seq in Hin.
    apply (f_equal length) in Hk. rewrite length_take, length_app in Hk. cbn in Hk. lia.
Qed.

Lemma rmap_map_total {A B C} (f : B -> result C) (g : A -> B) (h : A -> C) (l : list A) :
  (forall a, a ∈ l -> f (g a) = Ok (h a)) -> rmap f (map g l) = Ok (map h l).
Proof.
  intros H. induction l as [|a l IH]; [done|].
  cbn [map rmap]. rewrite H by left. cbn [rbind]. rewrite IH; [done|].
  intros. apply H. by right.
Qed.

(** Property X13.  Write and read back, flat classes.  On a well-formed
    disk without the destination directory, with a tokenizer that returns
    one-dimensional ids, no I/O failure, distinct split names and at least
    [total_batches] records and one token per split, [prepare_data]
    returns, [check_processed] is then true, and [get_data] of every split
    is the concatenation of the ids of its records in dataset order, each
    reduced modulo 2^16. *)
Theorem prepare_then_get_data env (tok : string -> list Z)
    (corpus : list (string * list string)) w :
  cls (self w) = StandardDataloader \/ cls (self w) = NextTokenMLMDataloader ->
  fs_wf (fs w) ->
  os_path_exists (fs w) (tokenized_data_path (self w)) = false ->
  tokenized_data_path (self w) <> [] ->
  Forall (fun q => files (fs w) !! q = None) (prefixes (tokenized_data_path (self w))) ->
  load_data env (dataset_name (cfg (self w)))
    = Ok (map (fun '(sp, texts) => (sp, map TextExample texts)) corpus) ->
  (forall s, tokenize_input env s = Ok (array1 (tok s))) ->
  (forall sp k, io_fault env sp k = None) ->
  NoDup (map fst corpus) ->
  Forall (fun '(sp, texts) =>
            (total_batches <= length texts)%nat /\ concat (map tok texts) <> []) corpus ->
  exists w',
    prepare_data env w = (Ok tt, w') /\ self w' = self w /\
    check_processed w' = (Ok true, w') /\
    forall sp texts, (sp, texts) ∈ corpus ->
      get_data sp w'
      = (Ok (NdArray [length (concat (map tok texts))]
               (map (fun t => t mod 65536) (concat (map tok texts)))), w').
Proof.
  intros Hcls Hwf Hex Hne Hpre Hload Htok Hfault Hnd Hall.
  set (tokenized := map (fun '(sp, texts) =>
                           (sp, map (fun s => flat_row (tok s)) texts)) corpus
                    : list (string * list tokenized_row)).
  set (w1 := World (FS (dirs (fs w) ∪ list_to_set (prefixes (tokenized_data_path (self w))))
                      (files (fs w))) (self w)).
  assert (Hmap : dataset_map (match cls (self w) with
                              | ConversationalDataloader => process_conversation env
                              | _ => process_text env
                              end) (map (fun '(sp, texts) => (sp, map TextExample texts)) corpus)
                 = Ok tokenized).
  { unfold dataset_map. subst tokenized. apply rmap_map_total.
    intros [sp texts] _.
    rewrite (rmap_map_total _ _ (fun s => flat_row (tok s))); [done|].
    intros s _. destruct Hcls as [-> | ->]; cbn [process_text]; by rewrite Htok. }
  destruct (_write_tokenized_data_all env tokenized w1) as (w' & Hwrite & Hs & Hd & Hfiles).
  { subst tokenized. rewrite map_map.
    erewrite map_ext; [exact Hnd|]. by intros [sp texts]. }
  { intros sp dset w0 Hin Hs0 Hd0. subst tokenized.
    apply list_elem_of_In, in_map_iff in Hin as ([sp' texts] & [= <- <-] & Hin).
    apply list_elem_of_In in Hin.
    rewrite Forall_forall in Hall. destruct (Hall _ Hin) as [Hmany Htoks].
    unfold w1 in Hs0, Hd0 |- *. cbn [self fs dirs] in Hs0, Hd0 |- *. rewrite <- Hs0.
    apply (write_split_all env sp' _ w0 [] (length (concat (map tok texts)))).
    - intros k. apply Hfault.
    - rewrite Hd0, Hs0. apply elem_of_union_r, elem_of_list_to_set, prefixes_last. done.
    - rewrite Hd0, Hs0. unfold bin_file. by apply fresh_directory_has_no_entry.
    - by rewrite length_map.
    - cbn [numel foldr]. destruct (concat (map tok texts)); [done | cbn; lia].
    - assert (Hrows : Forall (fun r => shape (ids r) = [len (ids r)] /\
                                       len_col r = Some (len (ids r)))
                        (map (fun s => flat_row (tok s)) texts)).
      { apply Forall_forall. intros r Hr.
        apply list_elem_of_In, in_map_iff in Hr as (s & <- & _). done. }
      assert (Hsum : length (concat (map tok texts))
                     = foldr Nat.add 0%nat
                         (map (fun r => len (ids r)) (map (fun s => flat_row (tok s)) texts))).
      { rewrite map_map. clear. induction texts as [|s l IH]; [done|].
        cbn [map concat foldr]. by rewrite length_app, IH. }
      rewrite Hs0. destruct Hcls as [-> | ->]; by split_and!.
    - apply Forall_forall. intros r Hr.
      apply list_elem_of_In, in_map_iff in Hr as (s & <- & _).
      cbn [flat_row ids array1 buf shape numel foldr]. lia. }
  exists w'.
  assert (Hprep : prepare_data env w = (Ok tt, w'))
    by (eapply prepare_data_fresh; eauto).
  unfold w1 in Hs, Hd. cbn [self fs dirs] in Hs, Hd.
  split_and!; [done | done | |].
  - unfold check_processed. by rewrite (prepare_data_Ok_exists _ _ _ Hprep).
  - intros sp texts Hin.
    assert (Hin' : (sp, map (fun s => flat_row (tok s)) texts) ∈ tokenized).
    { subst tokenized. apply list_elem_of_In, in_map_iff. exists (sp, texts).
      split; [done | by apply list_elem_of_In]. }
    pose proof (Hfiles _ _ Hin') as Hf. unfold w1 in Hf. cbn [self] in Hf.
    rewrite <- Hs in Hf.
    rewrite map_map in Hf. cbn [flat_row ids array1 buf] in Hf.
    rewrite Forall_forall in Hall. destruct (Hall _ Hin) as [_ Htoks].
    unfold get_data. rewrite bind_get_self. unfold bind at 1, memmap.
    rewrite (np_memmap_r_flat_Ok _ _ _ Hf).
    + rewrite world_eta, Hs. rewrite encode_u16_length, decode_encode_u16.
      rewrite (Nat.mul_comm 2), Nat.div_mul by done.
      by destruct Hcls as [-> | ->].
    + rewrite encode_u16_length. by rewrite Nat.mul_comm, Nat.Div0.mod_mul.
    + intros Hnil. apply (f_equal length) in Hnil.
      rewrite encode_u16_length in Hnil. destruct (concat (map tok texts)); [done|].
      cbn in Hnil. lia.
Qed.

Lemma prepare_then_get_data_witness :
  let w := World empty_disk (new_loader StandardDataloader demo_cfg) in
  exists w',
    prepare_data healthy_env w = (Ok tt, w') /\ self w' = self w /\
    check_processed w' = (Ok true, w').
Proof.
  intros w.
  destruct (prepare_then_get_data healthy_env
              (fun s => map (fun a => Z.of_nat (Ascii.nat_of_ascii a))
                          (String.list_ascii_of_string s))
              [("train"%string, replicate 1024 "a"%string)] w)
    as (w' & H1 & H2 & H3 & _).
  - left. reflexivity.
  - split; intros q Hq; [by apply elem_of_empty in Hq|].
    cbn in Hq. rewrite lookup_empty in Hq. by destruct Hq.
  - reflexivity.
  - discriminate.
  - apply Forall_forall. intros q _. apply lookup_empty.
  - vm_compute. reflexivity.
  - intros s. reflexivity.
  - intros sp k. reflexivity.
  - apply NoDup_singleton.
  - constructor; [|constructor]. split; [vm_compute; lia | vm_compute; discriminate].
  - exists w'. split; [exact H1|]. split; [exact H2 | exact H3].
Defined.

(** ** Any class: what a fresh, fault-free run stores *)

Lemma prepare_data_stores env w ds (tokenized : list (string * list tokenized_row)) rest :
  fs_wf (fs w) ->
  os_path_exists (fs w) (tokenized_data_path (self w)) = false ->
  tokenized_data_path (self w) <> [] ->
  Forall (fun q => files (fs w) !! q = None) (prefixes (tokenized_data_path (self w))) ->
  load_data env (dataset_name (cfg (self w))) = Ok ds ->
  dataset_map (match cls (self w) with
               | ConversationalDataloader => process_conversation env
               | _ => process_text env
               end) ds = Ok tokenized ->
  (forall sp k, io_fault env sp k = None) ->
  NoDup (map fst tokenized) ->
  Forall (fun '(sp, dset) =>
     (total_batches <= length dset)%nat /\
     Forall (fun r => length (buf (ids r)) = numel (shape (ids r))) dset /\
     exists N, (0 < N * numel rest)%nat /\
       match cls (self w) with
       | ConversationalDataloader =>
           N = length dset /\ rest = [2%nat; context_window (cfg (self w))] /\
           Forall (fun r => shape (ids r) = rest) dset
       | BytePoolingDataloader =>
           rest = [byte_context_window (cfg (self w))] /\
           Forall (fun r => shape (ids r) = len (ids r) :: rest /\
                            len_col r = Some (len (ids r))) dset /\
           N = foldr Nat.add 0%nat (map (fun r => len (ids r)) dset)
       | _ =>
           rest = [] /\
           Forall (fun r => shape (ids r) = len (ids r) :: rest /\
                            len_col r = Some (len (ids r))) dset /\
           N = foldr Nat.add 0%nat (map (fun r => len (ids r)) dset)
       end) tokenized ->
  exists w',
    prepare_data env w = (Ok tt, w') /\ self w' = self w /\
    forall sp dset, (sp, dset) ∈ tokenized ->
      files (fs w') !! bin_file (self w) sp
      = Some (encode_u16 (concat (map (fun r => buf (ids r)) dset))).
Proof.
  intros Hwf Hex Hne Hpre Hload Hmap Hfault Hnd Hall.
  set (w1 := World (FS (dirs (fs w) ∪ list_to_set (prefixes (tokenized_data_path (self w))))
                      (files (fs w))) (self w)).
  destruct (_write_tokenized_data_all env tokenized w1) as (w' & Hwrite & Hs & Hd & Hfiles).
  { done. }
  { intros sp dset w0 Hin Hs0 Hd0.
    rewrite Forall_forall in Hall. destruct (Hall _ Hin) as (Hmany & Hbuf & N & Hpos & Hshape).
    unfold w1 in Hs0, Hd0 |- *. cbn [self fs dirs] in Hs0, Hd0 |- *. rewrite <- Hs0.
    apply (write_split_all env sp _ w0 rest N).
    - intros k. apply Hfault.
    - rewrite Hd0, Hs0. apply elem_of_union_r, elem_of_list_to_set, prefixes_last. done.
    - rewrite Hd0, Hs0. unfold bin_file. by apply fresh_directory_has_no_entry.
    - done.
    - done.
    - by rewrite Hs0.
    - done. }
  exists w'.
  assert (Hprep : prepare_data env w = (Ok tt, w'))
    by (eapply prepare_data_fresh; eauto).
  unfold w1 in Hs, Hd, Hfiles. cbn [self fs dirs] in Hs, Hd, Hfiles.
  by split_and!.
Qed.

(** Property X14.  Write, conversational class.  With a tokenizer whose
    outputs all have [context_window] tokens, [prepare_data] returns and
    the file of every split holds, conversation after conversation, the
    ids of the first turn followed by the ids of the second turn (modulo
    2^16); later turns are not stored. *)
Theorem conversational_prepare_stores_pairs env (tok : string -> list Z)
    (corpus : list (string * list (string * string * list string))) w :
  cls (self w) = ConversationalDataloader ->
  fs_wf (fs w) ->
  os_path_exists (fs w) (tokenized_data_path (self w)) = false ->
  tokenized_data_path (self w) <> [] ->
  Forall (fun q => files (fs w) !! q = None) (prefixes (tokenized_data_path (self w))) ->
  load_data env (dataset_name (cfg (self w)))
    = Ok (map (fun '(sp, convs) =>
                 (sp, map (fun '(q, r, more) => ConvExample (q :: r :: more)) convs))
            corpus) ->
  (forall s, tokenize_input env s = Ok (array1 (tok s))) ->
  (forall s, length (tok s) = context_window (cfg (self w))) ->
  (0 < context_window (cfg (self w)))%nat ->
  (forall sp k, io_fault env sp k = None) ->
  NoDup (map fst corpus) ->
  Forall (fun '(sp, convs) => (total_batches <= length convs)%nat) corpus ->
  exists w',
    prepare_data env w = (Ok tt, w') /\ self w' = self w /\
    forall sp convs, (sp, convs) ∈ corpus ->
      exists c, files (fs w') !! bin_file (self w) sp = Some c /\
        decode_u16 c = map (fun t => t mod 65536)
                         (concat (map (fun '(q, r, _) => tok q ++ tok r) convs)).
Proof.
  intros Hcls Hwf Hex Hne Hpre Hload Htok Hlen Hcw Hfault Hnd Hall.
  set (cw := context_window (cfg (self w))) in *.
  set (row := fun x : string * string * list string =>
                let '(q, r, _) := x in TokRow (NdArray [2%nat; cw] (tok q ++ tok r)) None).
  set (tokenized := map (fun '(sp, convs) => (sp, map row convs)) corpus
                    : list (string * list tokenized_row)).
  destruct (prepare_data_stores env w _ tokenized [2%nat; cw] Hwf Hex Hne Hpre Hload)
    as (w' & Hprep & Hs & Hfiles).
  - rewrite Hcls. unfold dataset_map. subst tokenized. apply rmap_map_total.
    intros [sp convs] _.
    rewrite (rmap_map_total _ _ row); [done|].
    intros [[q r] more] _. cbn [process_conversation lookup list_lookup].
    rewrite !Htok. cbn [rbind]. unfold np_stack, stack_with.
    cbn [forallb array1 shape]. unfold shape_eqb.
    rewrite bool_decide_eq_true_2 by (by rewrite !Hlen).
    cbn [andb rbind length map buf concat array1]. unfold row.
    by rewrite app_nil_r, Hlen.
  - done.
  - subst tokenized. rewrite map_map.
    erewrite map_ext; [exact Hnd|]. by intros [sp convs].
  - subst tokenized. apply Forall_forall. intros [sp dset] Hin.
    apply list_elem_of_In, in_map_iff in Hin as ([sp' convs] & [= <- <-] & Hin).
    apply list_elem_of_In in Hin. rewrite Forall_forall in Hall.
    pose proof (Hall _ Hin) as Hmany. cbn beta iota in Hmany.
    split_and!.
    + by rewrite length_map.
    + apply Forall_forall. intros r Hr.
      apply list_elem_of_In, in_map_iff in Hr as ([[q r'] more] & <- & _).
      cbn [row ids buf shape numel foldr]. rewrite length_app, !Hlen. lia.
    + exists (length (map row convs)). rewrite Hcls. split_and!; try done.
      * rewrite length_map. cbn [numel foldr]. unfold total_batches in Hmany. nia.
      * apply Forall_forall. intros r Hr.
        by apply list_elem_of_In, in_map_iff in Hr as ([[q r'] more] & <- & _).
  - exists w'. split_and!; [done | done |].
    intros sp convs Hin.
    assert (Hin' : (sp, map row convs) ∈ tokenized).
    { subst tokenized. apply list_elem_of_In, in_map_iff. exists (sp, convs).
      split; [done | by apply list_elem_of_In]. }
    eexists. split; [apply (Hfiles _ _ Hin')|].
    rewrite decode_encode_u16, map_map. do 2 f_equal.
    apply map_ext. by intros [[q r] more].
Qed.

Lemma conversational_prepare_stores_pairs_witness :
  let env := Collaborators (fun _ => Ok (array1 [7; 8]))
               (fun _ => Ok [("train"%string,
                              replicate 1024 (ConvExample ["q"; "r"; "later turn"]%string))])
               (fun _ _ => None) in
  let w := World empty_disk (new_loader ConversationalDataloader demo_cfg) in
  exists w', prepare_data env w = (Ok tt, w') /\ self w' = self w.
Proof.
  intros env w.
  destruct (conversational_prepare_stores_pairs env (fun _ => [7; 8])
              [("train"%string, replicate 1024 ("q", "r", ["later turn"])%string)] w)
    as (w' & H1 & H2 & _).
  - reflexivity.
  - split; intros q Hq; [by apply elem_of_empty in Hq|].
    cbn in Hq. rewrite lookup_empty in Hq. by destruct Hq.
  - reflexivity.
  - discriminate.
  - apply Forall_forall. intros q _. apply lookup_empty.
  - vm_compute. reflexivity.
  - intros s. reflexivity.
  - intros s. reflexivity.
  - vm_compute. lia.
  - intros sp k. reflexivity.
  - apply NoDup_singleton.
  - constructor; [|constructor]. vm_compute. lia.
  - exists w'. split; [exact H1 | exact H2].
Defined.

(** Property X15.  Write, byte-pooling class.  With a tokenizer that
    returns a matrix of [byte_context_window] columns per record,
    [prepare_data] returns and the file of every split holds the rows of
    all records in dataset order (modulo 2^16); its element count is a
    multiple of [byte_context_window]. *)
Theorem byte_pooling_prepare_stores_rows env (rows_of : string -> nat)
    (tok : string -> list Z) (corpus : list (string * list string)) w :
  cls (self w) = BytePoolingDataloader ->
  fs_wf (fs w) ->
  os_path_exists (fs w) (tokenized_data_path (self w)) = false ->
  tokenized_data_path (self w) <> [] ->
  Forall (fun q => files (fs w) !! q = None) (prefixes (tokenized_data_path (self w))) ->
  load_data env (dataset_name (cfg (self w)))
    = Ok (map (fun '(sp, texts) => (sp, map TextExample texts)) corpus) ->
  (forall s, tokenize_input env s
             = Ok (NdArray [rows_of s; byte_context_window (cfg (self w))] (tok s))) ->
  (forall s, length (tok s) = (rows_of s * byte_context_window (cfg (self w)))%nat) ->
  (forall sp k, io_fault env sp k = None) ->
  NoDup (map fst corpus) ->
  Forall (fun '(sp, texts) =>
            (total_batches <= length texts)%nat /\ concat (map tok texts) <> []) corpus ->
  exists w',
    prepare_data env w = (Ok tt, w') /\ self w' = self w /\
    forall sp texts, (sp, texts) ∈ corpus ->
      exists c, files (fs w') !! bin_file (self w) sp = Some c /\
        decode_u16 c = map (fun t => t mod 65536) (concat (map tok texts)) /\
        (length (decode_u16 c) mod byte_context_window (cfg (self w)) = 0)%nat.
Proof.
  intros Hcls Hwf Hex Hne Hpre Hload Htok Hlen Hfault Hnd Hall.
  set (bcw := byte_context_window (cfg (self w))) in *.
  set (row := fun s : string => TokRow (NdArray [rows_of s; bcw] (tok s)) (Some (rows_of s))).
  set (tokenized := map (fun '(sp, texts) => (sp, map row texts)) corpus
                    : list (string * list tokenized_row)).
  assert (Hsum : forall texts,
            length (concat (map tok texts))
            = (foldr Nat.add 0%nat (map (fun r => len (ids r)) (map row texts)) * bcw)%nat).
  { intros texts. rewrite map_map. induction texts as [|s l IH]; [done|].
    cbn [map concat foldr]. rewrite length_app, IH, Hlen. cbn [row ids len shape hd]. lia. }
  destruct (prepare_data_stores env w _ tokenized [bcw] Hwf Hex Hne Hpre Hload)
    as (w' & Hprep & Hs & Hfiles).
  - rewrite Hcls. unfold dataset_map. subst tokenized. apply rmap_map_total.
    intros [sp texts] _.
    rewrite (rmap_map_total _ _ row); [done|].
    intros s _. cbn [process_text]. by rewrite Htok.
  - done.
  - subst tokenized. rewrite map_map.
    erewrite map_ext; [exact Hnd|]. by intros [sp texts].
  - subst tokenized. apply Forall_forall. intros [sp dset] Hin.
    apply list_elem_of_In, in_map_iff in Hin as ([sp' texts] & [= <- <-] & Hin).
    apply list_elem_of_In in Hin. rewrite Forall_forall in Hall.
    destruct (Hall _ Hin) as [Hmany Htoks].
    split_and!.
    + by rewrite length_map.
    + apply Forall_forall. intros r Hr.
      apply list_elem_of_In, in_map_iff in Hr as (s & <- & _).
      cbn [row ids buf shape numel foldr]. rewrite Hlen. lia.
    + exists (foldr Nat.add 0%nat (map (fun r => len (ids r)) (map row texts))).
      rewrite Hcls. split_and!; try done.
      * cbn [numel foldr]. rewrite Nat.mul_1_r, <- Hsum.
        destruct (concat (map tok texts)); [done | cbn; lia].
      * apply Forall_forall. intros r Hr.
        by apply list_elem_of_In, in_map_iff in Hr as (s & <- & _).
  - exists w'. split_and!; [done | done |].
    intros sp texts Hin.
    assert (Hin' : (sp, map row texts) ∈ tokenized).
    { subst tokenized. apply list_elem_of_In, in_map_iff. exists (sp, texts).
      split; [done | by apply list_elem_of_In]. }
    eexists. split; [apply (Hfiles _ _ Hin')|].
    rewrite decode_encode_u16, map_map. cbn [row ids buf].
    split; [done|]. rewrite length_map.
    change (fun x : string => tok x) with tok. rewrite Hsum.
    apply Nat.Div0.mod_mul.
Qed.

Lemma byte_pooling_prepare_stores_rows_witness :
  let env := Collaborators (fun _ => Ok (NdArray [2%nat; 3%nat] [1; 2; 3; 4; 5; 6]))
               (fun _ => Ok corpus_1024) (fun _ _ => None) in
  let w := World empty_disk (new_loader BytePoolingDataloader demo_cfg) in
  exists w', prepare_data env w = (Ok tt, w') /\ self w' = self w.
Proof.
  intros env w.
  destruct (byte_pooling_prepare_stores_rows env (fun _ => 2%nat) (fun _ => [1; 2; 3; 4; 5; 6])
              [("train"%string, replicate 1024 "a"%string)] w)
    as (w' & H1 & H2 & _).
  - reflexivity.
  - split; intros q Hq; [by apply elem_of_empty in Hq|].
    cbn in Hq. rewrite lookup_empty in Hq. by destruct Hq.
  - reflexivity.
  - discriminate.
  - apply Forall_forall. intros q _. apply lookup_empty.
  - vm_compute. reflexivity.
  - intros s. reflexivity.
  - intros s. reflexivity.
  - intros sp k. reflexivity.
  - apply NoDup_singleton.
  - constructor; [|constructor]. split; [vm_compute; lia | vm_compute; discriminate].
  - exists w'. split; [exact H1 | exact H2].
Defined.

Section Cleanup.
Local Open Scope nat_scope.

(** The pruning loop only removes directories, and only ancestors. *)
Lemma prune_spec anc fs0 :
  files (prune anc fs0) = files fs0 /\
  dirs (prune anc fs0) ⊆ dirs fs0 /\
  forall q, q ∈ dirs fs0 -> q ∉ anc -> q ∈ dirs (prune anc fs0).
Proof.
  revert fs0. induction anc as [|a anc IH]; intros fs0; [done|].
  cbn [prune]. unfold os_rmdir.
  destruct (bool_decide (a ∈ dirs fs0)); [|split_and!; [done | done | by intros]].
  destruct (is_empty_dir fs0 a); [|split_and!; [done | done | by intros]].
  destruct (IH (FS (dirs fs0 ∖ {[a]}) (files fs0))) as (Hf & Hd & Hk).
  cbn [files dirs] in *. split_and!.
  - done.
  - intros q Hq. apply Hd in Hq. by apply elem_of_difference in Hq as [? _].
  - intros q Hq Hnot. apply not_elem_of_cons in Hnot as [Hqa Hnot].
    apply Hk; [|done]. apply elem_of_difference. split; [done|].
    by apply not_elem_of_singleton.
Qed.

Context (fs0 : filesystem) (p : path).
Hypothesis Hwf : fs_wf fs0.


Lemma elem_of_pre k q : q ∈ short_prefixes p k <-> exists j, 1 <= j <= k /\ q = take j p.
Proof.
  unfold short_prefixes. rewrite elem_of_list_to_set, list_elem_of_In, in_map_iff.
  split.
  - intros (j & <- & Hj). apply in_seq in Hj. exists j. split; [lia | done].
  - intros (j & Hj & ->). exists j. split; [done|]. apply in_seq. lia.
Qed.

Lemma dirname_take j : dirname (take j p) = take (Nat.min j (length p) - 1) p.
Proof.
  unfold dirname. rewrite length_take, take_take. f_equal. lia.
Qed.

(** A missing prefix of [p] is an empty directory once it has been
    created together with the shorter prefixes. *)
Lemma os_rmdir_fresh k fsc :
  1 <= k <= length p ->
  take k p ∉ dirs fs0 ->
  files fsc = files fs0 ->
  dirs fsc = dirs fs0 ∪ short_prefixes p k ->
  exists fs', os_rmdir (take k p) fsc = Ok fs' /\
              files fs' = files fs0 /\ dirs fs' = dirs fs0 ∪ short_prefixes p (k - 1).
Proof.
  intros Hk Hnew Hf Hd. destruct Hwf as [Hwd Hwfiles].
  exists (FS (dirs fsc ∖ {[take k p]}) (files fsc)).
  assert (Hlen : length (take k p) = k) by (rewrite length_take; lia).
  split_and!; [| done |].
  - unfold os_rmdir.
    rewrite bool_decide_eq_true_2
      by (rewrite Hd; apply elem_of_union_r, elem_of_pre; exists k; split; [lia | done]).
    replace (is_empty_dir fsc (take k p)) with true; [done|].
    symmetry. unfold is_empty_dir. apply andb_true_iff. split; apply bool_decide_eq_true.
    + intros q Hq [Hq0 Hdir]. rewrite Hd in Hq. apply elem_of_union in Hq as [Hq | Hq].
      * destruct (decide (1 < length q)) as [Hl | Hl].
        -- apply Hwd in Hq; [|done]. by rewrite Hdir in Hq.
        -- apply (f_equal length) in Hdir. unfold dirname in Hdir.
           rewrite length_take in Hdir. lia.
      * apply elem_of_pre in Hq as (j & Hj & ->).
        rewrite dirname_take in Hdir. apply (f_equal length) in Hdir.
        rewrite length_take in Hdir. lia.
    + intros q c Hq [Hq0 Hdir]. rewrite Hf in Hq.
      destruct (decide (1 < length q)) as [Hl | Hl].
      * apply (Hwfiles q) in Hl; [|by eexists]. by rewrite Hdir in Hl.
      * apply (f_equal length) in Hdir. unfold dirname in Hdir.
        rewrite length_take in Hdir. lia.
  - cbn [dirs]. rewrite Hd. apply set_eq. intros q.
    rewrite elem_of_difference, !elem_of_union, elem_of_singleton, !elem_of_pre.
    split.
    + intros [[Hq | (j & Hj & ->)] Hne]; [by left|].
      right. exists j. split; [|done].
      destruct (decide (j = k)) as [->|]; [done | lia].
    + intros [Hq | (j & Hj & ->)].
      * split; [by left|]. by intros ->.
      * split; [right; exists j; split; [lia | done]|].
        intros Heq. apply (f_equal length) in Heq. rewrite !length_take in Heq. lia.
Qed.

Lemma existing_prefixes k :
  1 <= k <= length p -> take k p ∈ dirs fs0 -> short_prefixes p k ⊆ dirs fs0.
Proof.
  intros Hk Hin. destruct Hwf as [Hwd _].
  induction k as [|k IH]; [lia|].
  intros q Hq. apply elem_of_pre in Hq as (j & Hj & ->).
  destruct (decide (j = S k)) as [->|Hne]; [done|].
  destruct (decide (k = 0)) as [->|Hk0]; [lia|].
  apply IH; [lia | | apply elem_of_pre; exists j; split; [lia | done]].
  apply Hwd in Hin; [|rewrite length_take; lia].
  rewrite dirname_take in Hin.
  by replace (Nat.min (S k) (length p) - 1) with k in Hin by lia.
Qed.

Lemma reverse_seq_S k : reverse (seq 1 (S k)) = S k :: reverse (seq 1 k).
Proof. rewrite seq_S, reverse_app. reflexivity. Qed.

Lemma prune_fresh k fsc :
  k <= length p ->
  files fsc = files fs0 ->
  dirs fsc = dirs fs0 ∪ short_prefixes p k ->
  let res := prune (map (fun j => take j p) (reverse (seq 1 k))) fsc in
  files res = files fs0 /\ dirs res ⊆ dirs fs0 /\
  forall q, q ∈ dirs fs0 -> q ∉ prefixes p -> q ∈ dirs res.
Proof.
  revert fsc. induction k as [|k IH]; intros fsc Hk Hf Hd res.
  - subst res. change (reverse (seq 1 0)) with (@nil nat). cbn [map prune].
    split_and!; [done | | ].
    + rewrite Hd. intros q Hq. apply elem_of_union in Hq as [Hq | Hq]; [done|].
      apply elem_of_pre in Hq as (j & Hj & _). lia.
    + intros q Hq _. rewrite Hd. by apply elem_of_union_l.
  - destruct (decide (take (S k) p ∈ dirs fs0)) as [Hin | Hnew].
    + pose proof (existing_prefixes (S k) ltac:(lia) Hin) as Hsub.
      destruct (prune_spec (map (fun j => take j p) (reverse (seq 1 (S k)))) fsc)
        as (Hpf & Hpd & Hpk).
      subst res. split_and!.
      * by rewrite Hpf.
      * intros q Hq. apply Hpd in Hq. rewrite Hd in Hq.
        apply elem_of_union in Hq as [Hq | Hq]; [done | by apply Hsub].
      * intros q Hq Hnot. apply Hpk; [rewrite Hd; by apply elem_of_union_l|].
        intros Hq'. apply Hnot. unfold prefixes.
        apply list_elem_of_In, in_map_iff in Hq' as (j & <- & Hj).
        apply list_elem_of_In, in_map_iff. exists j. split; [done|].
        apply list_elem_of_In, elem_of_reverse, list_elem_of_In, in_seq in Hj.
        apply in_seq. lia.
    + destruct (os_rmdir_fresh (S k) fsc ltac:(lia) Hnew Hf Hd) as (fs' & Hrm & Hf' & Hd').
      subst res. rewrite reverse_seq_S. cbn [map prune]. rewrite Hrm.
      replace (S k - 1) with k in Hd' by lia.
      apply (IH fs'); [lia | done | done].
Qed.

Lemma os_removedirs_fresh :
  p <> [] -> p ∉ dirs fs0 ->
  exists fs',
    os_removedirs p (FS (dirs fs0 ∪ list_to_set (prefixes p)) (files fs0)) = Ok fs' /\
    files fs' = files fs0 /\ dirs fs' ⊆ dirs fs0 /\
    forall q, q ∈ dirs fs0 -> q ∉ prefixes p -> q ∈ dirs fs'.
Proof.
  intros Hne Hnew.
  assert (Hn : 1 <= length p) by (destruct p; [done | cbn; lia]).
  assert (Hp : take (length p) p = p) by (by apply take_ge).
  destruct (os_rmdir_fresh (length p) (FS (dirs fs0 ∪ list_to_set (prefixes p)) (files fs0)))
    as (fs1 & Hrm & Hf1 & Hd1); [lia | by rewrite Hp | done | done |].
  rewrite Hp in Hrm. unfold os_removedirs. rewrite Hrm. cbn [rbind].
  assert (Hanc : tail (reverse (prefixes p))
                 = map (fun j => take j p) (reverse (seq 1 (length p - 1)))).
  { unfold prefixes. destruct (length p) as [|n]; [lia|].
    rewrite <- fmap_reverse, reverse_seq_S. cbn [fmap list_fmap tail].
    replace (S n - 1) with n by lia. reflexivity. }
  rewrite Hanc.
  destruct (prune_fresh (length p - 1) fs1 ltac:(lia) Hf1 Hd1) as (Hf & Hd & Hk).
  eexists. split; [reflexivity|]. by split_and!.
Qed.

End Cleanup.

(** Property X16.  The cleanup that does work: when tokenization raises
    [RuntimeError] (so before any file is written) on a well-formed disk,
    [prepare_data] raises [SystemExit], the destination directory is gone
    again ([check_processed] is false), no file has changed, no directory
    has been added, and the only directories that can have disappeared
    are ancestors of the destination. *)
Theorem tokenizer_RuntimeError_is_cleaned_up env w ds :
  fs_wf (fs w) ->
  os_path_exists (fs w) (tokenized_data_path (self w)) = false ->
  tokenized_data_path (self w) <> [] ->
  Forall (fun q => files (fs w) !! q = None) (prefixes (tokenized_data_path (self w))) ->
  load_data env (dataset_name (cfg (self w))) = Ok ds ->
  dataset_map (match cls (self w) with
               | ConversationalDataloader => process_conversation env
               | _ => process_text env
               end) ds = Raise RuntimeError ->
  exists w',
    prepare_data env w = (Raise SystemExit, w') /\ self w' = self w /\
    files (fs w') = files (fs w) /\
    dirs (fs w') ⊆ dirs (fs w) /\
    (forall q, q ∈ dirs (fs w) -> q ∉ prefixes (tokenized_data_path (self w)) ->
               q ∈ dirs (fs w')) /\
    check_processed w' = (Ok false, w').
Proof.
  intros Hwf Hex Hne Hpre Hload Hmap.
  assert (Hnew : tokenized_data_path (self w) ∉ dirs (fs w)).
  { unfold os_path_exists in Hex. apply orb_false_iff in Hex as [Hex _].
    by apply bool_decide_eq_false in Hex. }
  destruct (os_removedirs_fresh (fs w) (tokenized_data_path (self w)) Hwf Hne Hnew)
    as (fs' & Hrm & Hf & Hd & Hk).
  exists (World fs' (self w)).
  assert (Hrun : prepare_data env w = (Raise SystemExit, World fs' (self w))).
  { unfold prepare_data. rewrite bind_get_self. unfold bind at 1. rewrite Hex.
    cbn [negb]. unfold bind at 1, fs_update, os_makedirs.
    rewrite Hex, (bool_decide_eq_false_2 _ Hne).
    replace (existsb _ (prefixes (tokenized_data_path (self w)))) with false.
    2:{ symmetry. apply not_true_is_false. intros H.
        apply existsb_exists in H as (q & Hq & H).
        apply bool_decide_eq_true in H. rewrite Forall_forall in Hpre.
        apply list_elem_of_In in Hq. rewrite (Hpre q Hq) in H. by destruct H. }
    cbn [self fs]. rewrite Hload, bind_lift_Ok.
    unfold try_except_RuntimeError. cbn [self cls].
    rewrite Hmap, bind_lift_Raise. cbn [is_RuntimeError].
    unfold bind, fs_update. cbn [fs self]. by rewrite Hrm. }
  cbn [fs self]. split_and!; try done.
  unfold check_processed. cbn [fs self]. do 2 f_equal.
  unfold os_path_exists. apply orb_false_iff. split; apply bool_decide_eq_false.
  - intros Hin. by apply Hd in Hin.
  - rewrite Hf. rewrite Forall_forall in Hpre.
    rewrite (Hpre _ (prefixes_last _ Hne)). by intros [? ?].
Qed.

Lemma tokenizer_RuntimeError_is_cleaned_up_witness :
  let disk := FS {[ ["data"]%string ]} {[ ["data"; "keep.txt"]%string := [x01] ]} in
  let w := World disk (new_loader StandardDataloader demo_cfg) in
  exists w',
    prepare_data crashing_tokenizer w = (Raise SystemExit, w') /\
    files (fs w') = files disk /\ dirs (fs w') ⊆ dirs disk.
Proof.
  intros disk w.
  destruct (tokenizer_RuntimeError_is_cleaned_up crashing_tokenizer w corpus_1024)
    as (w' & H1 & _ & H2 & H3 & _).
  - split.
    + intros q Hq Hl. cbn [w disk fs dirs] in Hq.
      apply elem_of_singleton in Hq. subst q. cbn in Hl. lia.
    + intros q [c Hc] _. cbn [w disk fs dirs files] in Hc |- *.
      apply lookup_singleton_Some in Hc as [<- _].
      apply elem_of_singleton. reflexivity.
  - vm_compute. reflexivity.
  - discriminate.
  - repeat constructor.
  - reflexivity.
  - vm_compute. reflexivity.
  - exists w'. split; [exact H1|]. split; [exact H2 | exact H3].
Defined.

(** ** Chunking of evaluation requests *)

Lemma list_slice_nonneg {A} (l : list A) (lo hi : Z) :
  0 <= lo -> 0 <= hi ->
  LLMHarness.list_slice l lo hi
  = take (Nat.min (Z.to_nat hi) (length l) - Nat.min (Z.to_nat lo) (length l))
      (drop (Nat.min (Z.to_nat lo) (length l)) l).
Proof.
  intros Hlo Hhi. unfold LLMHarness.list_slice. cbv zeta.
  by rewrite !clip_bound_nonneg by done.
Qed.

(** The chunks, spelled out: chunk [k] runs from [min (k * b) n] to
    [min ((k + 1) * b) n]. *)
Lemma batch_chunks {A} (data : list A) (bs : Z) :
  0 < bs ->
  let n := length data in
  let b := Z.to_nat bs in
  let m := Z.to_nat ((Z.of_nat n + bs - 1) / bs) in
  let f := fun k : nat => Nat.min (k * b) n in
  LLMHarness.batch data bs
  = Ok (map (fun k => take (f (S k) - f k) (drop (f k) data)) (seq 0 m)) /\
  (n <= m * b)%nat /\ ((0 < m)%nat -> ((m - 1) * b < n)%nat).
Proof.
  intros Hbs n b m f.
  assert (Hq : 0 <= (Z.of_nat n + bs - 1) / bs) by (apply Z.div_pos; lia).
  split_and!.
  - unfold LLMHarness.batch, LLMHarness.py_range.
    replace (bs =? 0) with false by (symmetry; apply Z.eqb_neq; lia).
    replace (0 <? bs) with true by (symmetry; apply Z.ltb_lt; lia).
    cbn [rbind]. f_equal. rewrite map_map. rewrite Z.sub_0_r. fold n m.
    apply map_ext. intros k. rewrite list_slice_nonneg by lia.
    fold n. unfold f. do 2 f_equal; lia.
  - pose proof (Z.mul_succ_div_gt (Z.of_nat n + bs - 1) bs Hbs). nia.
  - intros Hm. pose proof (Z.mul_div_le (Z.of_nat n + bs - 1) bs Hbs). nia.
Qed.

Lemma batch_concat {A} (data : list A) (bs : Z) chunks :
  0 < bs -> LLMHarness.batch data bs = Ok chunks -> concat chunks = data.
Proof.
  intros Hbs H. destruct (batch_chunks data bs Hbs) as (Hc & Hm1 & _).
  cbv zeta in Hc, Hm1. rewrite Hc in H. injection H as <-.
  rewrite (segments_concat data (fun k => Nat.min (k * Z.to_nat bs) (length data)))
    by (intros; lia).
  cbn [Nat.mul Nat.min]. rewrite Nat.sub_0_r, drop_0.
  apply take_ge. lia.
Qed.

(** Property X17.  [batch(data, batch_size)] with a positive size cuts
    [data] into [ceil (len data / batch_size)] consecutive chunks whose
    concatenation is [data]; no chunk is empty, none is longer than
    [batch_size], and all but the last have exactly [batch_size]
    elements. *)
Theorem batch_partitions {A} (data : list A) (bs : Z) :
  0 < bs ->
  exists chunks, LLMHarness.batch data bs = Ok chunks /\
    concat chunks = data /\
    Z.of_nat (length chunks) = (Z.of_nat (length data) + bs - 1) / bs /\
    forall (i : nat) c, chunks !! i = Some c ->
      c <> [] /\ Z.of_nat (length c) <= bs /\
      ((S i < length chunks)%nat -> Z.of_nat (length c) = bs).
Proof.
  intros Hbs. destruct (batch_chunks data bs Hbs) as (Hchunks & Hm1 & Hm2).
  set (n := length data) in *. set (b := Z.to_nat bs) in *.
  set (m := Z.to_nat ((Z.of_nat n + bs - 1) / bs)) in *.
  set (f := fun k : nat => Nat.min (k * b) n) in *.
  assert (Hb : (0 < b)%nat) by lia.
  assert (Hq : 0 <= (Z.of_nat n + bs - 1) / bs) by (apply Z.div_pos; lia).
  eexists. split; [exact Hchunks|]. split_and!.
  - by apply (batch_concat data bs).
  - rewrite length_map, length_seq. subst m. lia.
  - intros i c Hi. rewrite length_map, length_seq.
    rewrite list_lookup_fmap in Hi.
    destruct (seq 0 m !! i) as [k|] eqn:Ek; [|discriminate].
    apply lookup_seq in Ek as [-> Hk]. cbn [Nat.add] in Hi.
    specialize (Hm2 ltac:(lia)).
    assert (Hi1 : (i * b <= (m - 1) * b)%nat) by (apply Nat.mul_le_mono_r; lia).
    assert (Hlen : length c = (f (S i) - f i)%nat).
    { injection Hi as <-. rewrite length_take, length_drop. fold n. unfold f. lia. }
    clear Hi. split_and!.
    + intros ->. cbn [length] in Hlen. unfold f in Hlen. lia.
    + rewrite Hlen. unfold f. lia.
    + intros Hlt. rewrite Hlen. unfold f.
      assert (S i * b <= (m - 1) * b)%nat by (apply Nat.mul_le_mono_r; lia).
      lia.
Qed.

Lemma batch_partitions_witness :
  exists chunks, LLMHarness.batch [1; 2; 3; 4; 5; 6; 7] 3 = Ok chunks /\
    concat chunks = [1; 2; 3; 4; 5; 6; 7] /\ Z.of_nat (length chunks) = 3.
Proof.
  destruct (batch_partitions [1; 2; 3; 4; 5; 6; 7] 3 ltac:(lia))
    as (chunks & H1 & H2 & H3 & _).
  exists chunks. split; [exact H1|]. split; [exact H2 | exact H3].
Defined.

(** Property X18.  [batch] with a size of zero raises [ValueError] (the
    step of [range] must not be zero); with a negative size it yields no
    chunk at all, whatever [data] holds. *)
Theorem batch_nonpositive_size {A} (data : list A) :
  LLMHarness.batch data 0 = Raise ValueError /\
  forall bs, bs < 0 -> LLMHarness.batch data bs = Ok [].
Proof.
  split; [reflexivity|]. intros bs Hbs.
  unfold LLMHarness.batch, LLMHarness.py_range.
  replace (bs =? 0) with false by (symmetry; apply Z.eqb_neq; lia).
  replace (0 <? bs) with false by (symmetry; apply Z.ltb_ge; lia).
  cbn [rbind].
  replace (Z.to_nat ((0 - Z.of_nat (length data) - bs - 1) / - bs)) with 0%nat; [done|].
  assert ((0 - Z.of_nat (length data) - bs - 1) / - bs <= 0); [|lia].
  apply Z.lt_succ_r. apply Z.div_lt_upper_bound; lia.
Qed.

Section Harness.
Import LLMHarness.

(** ** The token matrix of a chunk *)

Lemma unpadded_row_eq (c t : list Z) :
  unpadded_row c t
  = drop (length c + length t - 1 - 512) (take (length c + length t - 1) (c ++ t)).
Proof.
  unfold unpadded_row, list_slice. cbv zeta.
  set (n := (length c + length t)%nat).
  assert (Hn : length (c ++ t) = n) by (by rewrite length_app).
  rewrite Hn.
  assert (H0 : clip_bound n 0 = 0%nat) by (unfold clip_bound; cbn; lia).
  assert (H1 : clip_bound n (-1) = (n - 1)%nat) by (unfold clip_bound; cbn; lia).
  rewrite H0, H1, Nat.sub_0_r, drop_0.
  assert (Hs : length (take (n - 1) (c ++ t)) = (n - 1)%nat)
    by (rewrite length_take; lia).
  rewrite Hs.
  assert (H2 : clip_bound (n - 1) (-512) = (n - 1 - 512)%nat)
    by (unfold clip_bound; cbn; lia).
  assert (H3 : clip_bound (n - 1) (Z.of_nat (n - 1)) = (n - 1)%nat)
    by (rewrite clip_bound_nonneg by lia; lia).
  rewrite H2, H3. apply take_ge. rewrite length_drop, Hs. lia.
Qed.

Lemma unpadded_row_length (c t : list Z) :
  length (unpadded_row c t) = Nat.min 512 (length c + length t - 1).
Proof.
  rewrite unpadded_row_eq, length_drop, length_take, length_app. lia.
Qed.

Lemma foldr_max_ge (l : list nat) x : x ∈ l -> (x <= foldr Nat.max 0 l)%nat.
Proof.
  induction l as [|y l IH]; intros H; [by apply elem_of_nil in H|].
  cbn [foldr]. apply elem_of_cons in H as [-> | H]; [lia|]. specialize (IH H). lia.
Qed.

Lemma foldr_max_le (l : list nat) b :
  Forall (fun x => (x <= b)%nat) l -> (foldr Nat.max 0 l <= b)%nat.
Proof. induction 1; cbn [foldr]; lia. Qed.

Lemma rmap_seq_lookup {B} (f : nat -> result B) n ys :
  rmap f (seq 0 n) = Ok ys ->
  length ys = n /\ forall i y, ys !! i = Some y -> f i = Ok y.
Proof.
  intros H. pose proof (rmap_length _ _ _ H) as Hlen. rewrite length_seq in Hlen.
  split; [done|]. intros i y Hy.
  apply rmap_Ok_Forall2 in H.
  assert (Hi : (i < n)%nat) by (rewrite <- Hlen; by eapply lookup_lt_Some).
  eapply (Forall2_lookup_lr _ _ _ i i y) in H; [done | | done].
  by rewrite lookup_seq_lt.
Qed.

Lemma input_tokens_spec pad (ctx tgt : list (list Z)) :
  length tgt = length ctx -> ctx <> [] ->
  exists unpadded padded (m : nat),
    input_tokens pad ctx tgt = Ok (unpadded, padded) /\
    (m <= 512)%nat /\ length unpadded = length ctx /\ length padded = length ctx /\
    Forall (fun row => length row = m) padded /\
    forall i c t, ctx !! i = Some c -> tgt !! i = Some t ->
      unpadded !! i = Some (unpadded_row c t) /\
      padded !! i
      = Some (unpadded_row c t ++ replicate (m - length (unpadded_row c t)) pad).
Proof.
  intros Hlen Hne.
  set (row := fun i => match ctx !! i, tgt !! i with
                       | Some c, Some t => unpadded_row c t
                       | _, _ => []
                       end).
  set (unpadded := map row (seq 0 (length ctx))).
  set (m := foldr Nat.max 0%nat (map length unpadded)).
  assert (Hun : rmap (fun i => match ctx !! i, tgt !! i with
                               | Some c, Some t => Ok (unpadded_row c t)
                               | _, _ => Raise IndexError
                               end) (seq 0 (length ctx)) = Ok unpadded).
  { apply rmap_total. apply Forall_forall. intros i Hi.
    apply list_elem_of_In, in_seq in Hi. unfold row.
    destruct (lookup_lt_is_Some_2 ctx i ltac:(lia)) as [c ->].
    destruct (lookup_lt_is_Some_2 tgt i ltac:(lia)) as [t ->]. done. }
  assert (Hul : length unpadded = length ctx)
    by (unfold unpadded; by rewrite length_map, length_seq).
  assert (Hrow : forall i c t, ctx !! i = Some c -> tgt !! i = Some t ->
            unpadded !! i = Some (unpadded_row c t)).
  { intros i c t Hc Ht. unfold unpadded.
    rewrite list_lookup_fmap, lookup_seq_lt by (by eapply lookup_lt_Some).
    cbn. unfold row. by rewrite Hc, Ht. }
  assert (Hall512 : Forall (fun x => (x <= 512)%nat) (map length unpadded)).
  { apply Forall_forall. intros x Hx.
    apply list_elem_of_In, in_map_iff in Hx as (r & <- & Hr).
    apply in_map_iff in Hr as (i & <- & Hi). unfold row.
    destruct (ctx !! i), (tgt !! i); cbn; try lia.
    rewrite unpadded_row_length. lia. }
  exists unpadded, (map (fun tokens => tokens ++ replicate (m - length tokens) pad) unpadded), m.
  split_and!.
  - unfold input_tokens. rewrite Hun. cbn [rbind]. unfold max_len.
    destruct unpadded as [|r0 rs] eqn:E; [|done].
    destruct ctx; [done | discriminate].
  - by apply foldr_max_le.
  - done.
  - by rewrite length_map.
  - apply Forall_forall. intros r Hr.
    apply list_elem_of_In, in_map_iff in Hr as (r0 & <- & Hr0).
    rewrite length_app, length_replicate.
    assert (length r0 <= m)%nat; [|lia].
    apply foldr_max_ge, list_elem_of_In, in_map. done.
  - intros i c t Hc Ht. split; [by apply Hrow|].
    by rewrite list_lookup_fmap, (Hrow i c t Hc Ht).
Qed.

(** Property X19.  The token matrix that [loglikelihood] builds for a
    non-empty chunk is rectangular with at most 512 columns: row [i] is
    the last 512 tokens of context followed by target without the final
    target token, right-padded with the padding token to the longest row
    of the chunk. *)
Theorem input_tokens_rectangular pad (ctx tgt : list (list Z)) :
  length tgt = length ctx -> ctx <> [] ->
  exists unpadded padded (m : nat),
    input_tokens pad ctx tgt = Ok (unpadded, padded) /\
    (m <= 512)%nat /\ length padded = length ctx /\
    Forall (fun row => length row = m) padded /\
    forall i c t, ctx !! i = Some c -> tgt !! i = Some t ->
      exists row,
        unpadded !! i = Some row /\
        row = drop (length c + length t - 1 - 512) (take (length c + length t - 1) (c ++ t)) /\
        length row = Nat.min 512 (length c + length t - 1) /\
        padded !! i = Some (row ++ replicate (m - length row) pad).
Proof.
  intros Hlen Hne.
  destruct (input_tokens_spec pad ctx tgt Hlen Hne)
    as (unpadded & padded & m & H & Hm & _ & Hp & Hrect & Hrows).
  exists unpadded, padded, m. split_and!; try done.
  intros i c t Hc Ht. destruct (Hrows i c t Hc Ht) as [Hu Hpad].
  exists (unpadded_row c t). split_and!; try done.
  - apply unpadded_row_eq.
  - apply unpadded_row_length.
Qed.

Lemma input_tokens_rectangular_witness :
  exists unpadded padded (m : nat),
    input_tokens 0 [[1; 2; 3]; [4]] [[7; 8]; [9]] = Ok (unpadded, padded) /\
    (m <= 512)%nat /\ Forall (fun row => length row = m) padded.
Proof.
  destruct (input_tokens_rectangular 0 [[1; 2; 3]; [4]] [[7; 8]; [9]] eq_refl ltac:(done))
    as (unpadded & padded & m & H1 & H2 & _ & H3 & _).
  exists unpadded, padded, m. split; [exact H1|]. split; [exact H2 | exact H3].
Defined.

(** ** The results of [loglikelihood] *)

Section Loglikelihood.
Context {L R : Type} (ms : model_shell L R).


Lemma list_slice_length_le {A} (l : list A) lo hi :
  (length (list_slice l lo hi) <= length l)%nat.
Proof. unfold list_slice. cbv zeta. rewrite length_take, length_drop. lia. Qed.

Lemma list_slice_prefix_length {A} (l : list A) (n : nat) :
  (length (list_slice l 0 (Z.of_nat n)) <= n)%nat.
Proof.
  rewrite list_slice_nonneg by lia. rewrite length_take, length_drop. lia.
Qed.

Lemma list_slice_drop_last_length {A} (l : list A) (k : nat) :
  (0 < k)%nat -> length (list_slice l 0 (- Z.of_nat k)) = (length l - k)%nat.
Proof.
  intros Hk. unfold list_slice. cbv zeta.
  assert (H0 : clip_bound (length l) 0 = 0%nat) by (unfold clip_bound; cbn; lia).
  assert (H1 : clip_bound (length l) (- Z.of_nat k) = (length l - k)%nat).
  { unfold clip_bound.
    replace (- Z.of_nat k <? 0) with true by (symmetry; apply Z.ltb_lt; lia). lia. }
  rewrite H0, H1, drop_0, length_take. lia.
Qed.

Lemma score_chunk_linked chunk rs :
  score_chunk ms chunk = Ok rs -> Forall2 (linked ms) chunk rs.
Proof.
  unfold score_chunk. intros H.
  destruct (rmap (fun rq => tokenize ms (fst rq)) chunk) as [cts|] eqn:Ec; [|discriminate].
  destruct (rmap (fun rq => tokenize ms (snd rq)) chunk) as [tts|] eqn:Et; [|discriminate].
  cbn [rbind] in H.
  destruct (input_tokens (pad_token ms) cts tts) as [[unpadded padded]|] eqn:Ei;
    [|discriminate].
  cbn [rbind fst snd] in H.
  destruct (logits_of ms padded) as [logits|]; [|discriminate]. cbn [rbind] in H.
  apply rmap_seq_lookup in H as [Hlen Hrs].
  pose proof (rmap_length _ _ _ Ec) as Hlc. pose proof (rmap_length _ _ _ Et) as Hlt.
  apply rmap_Ok_Forall2 in Ec, Et.
  apply Forall2_same_length_lookup_2; [done|].
  intros i rq res Hrq Hres.
  destruct (Forall2_lookup_l _ _ _ _ _ Ec Hrq) as (ct & Hct & Htok_c).
  destruct (Forall2_lookup_l _ _ _ _ _ Et Hrq) as (tt & Htt & Htok_t).
  exists ct, tt. split_and!; [done | done |].
  assert (Hne : cts <> []) by (intros ->; by rewrite lookup_nil in Hct).
  destruct (input_tokens_spec (pad_token ms) cts tts ltac:(congruence) Hne)
    as (u' & p' & m & Hi' & _ & _ & _ & _ & Hrows).
  rewrite Ei in Hi'. injection Hi' as <- <-.
  destruct (Hrows i ct tt Hct Htt) as [Hu _].
  specialize (Hrs i res Hres). unfold score_row in Hrs. rewrite Hu, Htt in Hrs.
  destruct (logits !! i) as [logits_i|]; [|discriminate].
  cbv zeta in Hrs.
  destruct (cross_entropy_sum ms _ tt) as [ll|]; [|discriminate].
  cbn [rbind] in Hrs. injection Hrs as <-. cbn [snd].
  intros Hg. apply bool_decide_eq_true in Hg.
  destruct tt as [|t0 tt']; [by left|]. right.
  apply (f_equal length) in Hg. rewrite length_map in Hg.
  rewrite list_slice_drop_last_length in Hg by (cbn; lia).
  pose proof (list_slice_prefix_length logits_i (length (unpadded_row ct (t0 :: tt')))) as Hle.
  pose proof (unpadded_row_length ct (t0 :: tt')) as Hr.
  cbn [length] in Hg, Hle, Hr |- *. lia.
Qed.

Lemma Forall2_concat_linked chunks per_chunk :
  Forall2 (Forall2 (linked ms)) chunks per_chunk ->
  Forall2 (linked ms) (concat chunks) (concat per_chunk).
Proof.
  induction 1 as [|c r cs rs Hcr _ IH]; [constructor|].
  cbn [concat]. by apply Forall2_app.
Qed.

Lemma loglikelihood_linked requests results :
  loglikelihood ms requests = Ok results -> Forall2 (linked ms) requests results.
Proof.
  unfold loglikelihood. intros H.
  destruct (batch requests 32) as [chunks|] eqn:Hb; [|discriminate].
  pose proof (batch_concat requests 32 chunks ltac:(lia) Hb) as Hcat.
  cbn [rbind] in H.
  destruct (rmap (score_chunk ms) chunks) as [per_chunk|] eqn:E; [|discriminate].
  cbn [rbind] in H. injection H as <-. rewrite <- Hcat.
  apply Forall2_concat_linked. apply rmap_Ok_Forall2 in E.
  eapply Forall2_impl; [exact E|]. intros c r. apply score_chunk_linked.
Qed.

End Loglikelihood.

(** Property X20.  When [loglikelihood] returns, it returns one result per
    request, in order, and the greedy flag of a request can only be set if
    its target is empty or has fewer tokens than its context: the flag
    compares the target with the predictions at the positions before the
    last [len target] ones. *)
Theorem loglikelihood_greedy_flag {L R} (ms : model_shell L R) requests results :
  loglikelihood ms requests = Ok results ->
  length results = length requests /\
  forall (i : nat) context target ll,
    requests !! i = Some (context, target) ->
    results !! i = Some (ll, true) ->
    exists ct tt,
      tokenize ms context = Ok ct /\ tokenize ms target = Ok tt /\
      (tt = [] \/ (length tt < length ct)%nat).
Proof.
  intros H. apply loglikelihood_linked in H. split.
  - symmetry. by eapply Forall2_length.
  - intros i c t ll Hrq Hres.
    destruct (Forall2_lookup_lr _ _ _ _ _ _ H Hrq Hres) as (ct & tt & Hc & Ht & Hg).
    exists ct, tt. split_and!; [done | done |].
    destruct (Hg eq_refl) as [-> | Hlen]; [by left|].
    destruct tt as [|t0 tt']; [by left|]. right. cbn [length] in *. lia.
Qed.

Lemma loglikelihood_greedy_flag_witness :
  let ms := ModelShell Z nat
              (fun s => Ok (map (fun a => Z.of_nat (Ascii.nat_of_ascii a))
                              (String.list_ascii_of_string s)))
              0 (fun rows => Ok (map (map (fun _ => 99)) rows))
              (fun _ _ => Ok 0%nat) (fun v => v) in
  loglikelihood ms [("ab", "c")]%string = Ok [(0%nat, true)] /\
  exists ct tt,
    tokenize ms "ab" = Ok ct /\ tokenize ms "c" = Ok tt /\
    (tt = [] \/ (length tt < length ct)%nat).
Proof.
  intros ms. split; [vm_compute; reflexivity|].
  destruct (loglikelihood_greedy_flag ms [("ab", "c")]%string [(0%nat, true)])
    as [_ H]; [vm_compute; reflexivity|].
  exact (H 0%nat "ab"%string "c"%string 0%nat eq_refl eq_refl).
Defined.

End Harness.

Section DecoderShapes.
Import ByteLevel.

(** ** Shapes through the byte-level decoder *)

Lemma linear_Ok_shape {T} inf outf (W : list T -> list T) x front :
  tshape x = front ++ [inf] ->
  exists y, linear inf outf W x = Ok y /\ tshape y = front ++ [outf].
Proof.
  intros Hs. unfold linear. rewrite Hs, reverse_snoc, Nat.eqb_refl.
  eexists. split; [reflexivity|]. cbn [tshape]. by rewrite reverse_involutive.
Qed.

Lemma apply_blocks_shape {T} (blocks : list (tensor T -> result (tensor T))) s x :
  Forall (fun block => forall t, tshape t = s ->
            exists t', block t = Ok t' /\ tshape t' = s) blocks ->
  tshape x = s ->
  exists y, apply_blocks blocks x = Ok y /\ tshape y = s.
Proof.
  intros Hall. revert x. induction Hall as [|block rest Hb _ IH]; intros x Hx.
  - exists x. by split.
  - cbn [apply_blocks]. destruct (Hb x Hx) as (x' & -> & Hx'). cbn [rbind]. by apply IH.
Qed.

(** Property X21.  [ByteLevelDecoder.forward] maps an input of shape
    [(B, S, hidden_dim)] to an output of shape
    [(B, S, 16, byte_vocab_size)], provided the transformer blocks keep
    the shape [(B * S, 16, 128)] of their input. *)
Theorem forward_output_shape {T} (dec : decoder T) (x : tensor T) (B S : nat) :
  tshape x = [B; S; hidden_dim dec] ->
  Forall (fun block => forall t, tshape t = [(B * S)%nat; 16%nat; 128%nat] ->
            exists t', block t = Ok t' /\ tshape t' = [(B * S)%nat; 16%nat; 128%nat])
    (transformer dec) ->
  exists y, forward dec x = Ok y /\
            tshape y = [B; S; 16%nat; byte_vocab_size dec].
Proof.
  intros Hx Hblocks. unfold forward.
  destruct (linear_Ok_shape (hidden_dim dec) (byte_context_window * embedding_dim)
              (projection dec) x [B; S] Hx) as (x1 & -> & Hx1).
  cbn [rbind]. unfold size. rewrite Hx1. cbn [app lookup list_lookup rbind].
  unfold view at 1. rewrite Hx1.
  replace (numel ([B; S] ++ [(byte_context_window * embedding_dim)%nat])
           =? numel [B; S; byte_context_window; embedding_dim])%nat with true
    by (symmetry; apply Nat.eqb_eq; cbn [numel foldr app]; lia).
  cbn [rbind tshape lookup list_lookup]. unfold view at 1. cbn [tshape].
  replace (numel [B; S; byte_context_window; embedding_dim]
           =? numel [(B * S)%nat; byte_context_window; embedding_dim])%nat with true
    by (symmetry; apply Nat.eqb_eq; cbn [numel foldr]; lia).
  cbn [rbind tdata].
  destruct (apply_blocks_shape (transformer dec)
              [(B * S)%nat; byte_context_window; embedding_dim]
              (Tensor [(B * S)%nat; byte_context_window; embedding_dim] (tdata x1))
              Hblocks eq_refl) as (x4 & -> & Hx4).
  cbn [rbind].
  destruct (linear_Ok_shape embedding_dim (byte_vocab_size dec) (lm_head dec) x4
              [(B * S)%nat; byte_context_window] Hx4) as (x5 & -> & Hx5).
  cbn [rbind]. unfold view. rewrite Hx5.
  replace (numel ([(B * S)%nat; byte_context_window] ++ [byte_vocab_size dec])
           =? numel [B; S; byte_context_window; byte_vocab_size dec])%nat with true
    by (symmetry; apply Nat.eqb_eq; cbn [numel foldr app]; lia).
  eexists. split; reflexivity.
Qed.

Lemma forward_Ok_rank4 {T} (dec : decoder T) (x y : tensor T) :
  forward dec x = Ok y ->
  exists B S, tshape y = [B; S; byte_context_window; byte_vocab_size dec].
Proof.
  unfold forward. intros H.
  repeat match type of H with
         | rbind ?r _ = Ok _ => destruct r; [cbn [rbind] in H | discriminate]
         end.
  unfold view in H. case_match; [|discriminate]. injection H as <-.
  cbn [tshape]. eauto.
Qed.

(** Property X22.  [ByteLevelDecoder.inference] never returns a value:
    whenever [forward] returns, its result has four dimensions, so
    [forward(x)[0]] has three and the four-component index applied to it
    raises [IndexError]. *)
Theorem inference_never_returns {T} (dec : decoder T) (x : tensor T) :
  inference dec x = match forward dec x with
                    | Ok _ => Raise IndexError
                    | Raise e => Raise e
                    end.
Proof.
  unfold inference. destruct (forward dec x) as [y|e] eqn:E; [|done].
  apply forward_Ok_rank4 in E as (B & S & Hy). cbn [rbind].
  unfold getitem at 1. rewrite Hy. cbn [getitem_shape].
  case_match; [|done]. cbn [rbind]. unfold getitem. cbn [tshape getitem_shape].
  by case_match.
Qed.

Lemma forward_output_shape_witness :
  let dec := Decoder unit 1 2 (fun _ => replicate 2048 tt)
               [fun t => Ok t; fun t => Ok t; fun t => Ok t; fun t => Ok t]
               (fun _ => [tt; tt]) in
  exists y, forward dec (Tensor [3%nat; 1%nat; 1%nat] [tt; tt; tt]) = Ok y /\
            tshape y = [3%nat; 1%nat; 16%nat; 2%nat].
Proof.
  intros dec.
  apply (forward_output_shape dec (Tensor [3%nat; 1%nat; 1%nat] [tt; tt; tt]) 3 1).
  - reflexivity.
  - repeat constructor; intros t Ht; exists t; by split.
Defined.

End DecoderShapes.
